(** * Vault UI sign-in form: a shallow embedding of [auth-form.js] and
      [encode-decode.js], and the properties of their specification.

    Definitions:
    - [JS]           the JavaScript values the component handles, truthiness,
                     strict equality, template-literal interpolation,
                     exceptions;
    - [Codec]        [bufferEncode] / [bufferDecode] of
                     [utils/encode-decode.js], over the platform's [btoa] and
                     [atob];
    - [AuthForm]     the component of [components/auth-form.js]: its members,
                     the attribute-change pass [didReceiveAttrs], the tasks
                     [fetchMethods], [unwrapToken], [authenticate],
                     [webauthnAuthenticate], the actions [doSubmit] and
                     [handleError];
    - [CodecAux], [Observations]
                     what the properties are stated with.

    Theorems:
    - [Rules]        reasoning rules for pieces of component code;
    - the properties of the component, section by section;
    - [CodecFacts]   when [bufferDecode] undoes [bufferEncode]. *)

From Stdlib Require Import NArith List String Ascii Bool Lia.
From stdpp Require Import base option list gmap strings.

Local Open Scope string_scope.
Local Open Scope list_scope.

(* ===================================================================== *)
(** ** JavaScript values and exceptions *)
(* ===================================================================== *)

Module JS.

(** The values held by the members of the component that the form logic
    reads: [undefined], [null], booleans, strings, and [Obj m], a reference
    to the array or object stored in member [m] (handed on, never
    inspected). *)
Inductive value : Type :=
| Undefined
| Null
| Bool (b : bool)
| Str (s : string)
| Obj (member : string).

#[global] Instance value_eq_dec : EqDecision value.
Proof. solve_decision. Defined.

(** [if (v)], [!v], [v && ...]: the empty string, [null], [undefined] and
    [false] are falsy. *)
Definition truthy (v : value) : bool :=
  match v with
  | Undefined | Null => false
  | Bool b => b
  | Str s => negb (String.eqb s "")
  | Obj _ => true
  end.

(** [a === b] and [a !== b] on these values. *)
Definition strict_eq (a b : value) : bool := bool_decide (a = b).
Definition strict_ne (a b : value) : bool := negb (strict_eq a b).

(** [a || b]. *)
Definition or_else (a b : value) : value := if truthy a then a else b.

(** Interpolation [`${v}`] in a template literal. *)
Definition to_text (v : value) : string :=
  match v with
  | Undefined => "undefined"
  | Null => "null"
  | Bool true => "true"
  | Bool false => "false"
  | Str s => s
  | Obj _ => "[object Object]"
  end.

(** What a [catch (e)] can receive: a [TypeError] of the language (property
    access on [null] / [undefined]), the [InvalidCharacterError] of [atob],
    or a rejection of an adapter / service call, which carries the [errors]
    array of the server's body when there is one. *)
Inductive exn : Type :=
| TypeError
| InvalidCharacterError
| AdapterError (errors : option (list string)).

Inductive result (A : Type) : Type :=
| Ok (a : A)
| Throw (e : exn).
Arguments Ok {A} a.
Arguments Throw {A} e.

(** [e.errors[0]] interpolated in a template literal: reading [errors] of a
    language error gives [undefined], and indexing [undefined] throws;
    index 0 of an empty array is [undefined]. *)
Definition first_error_text (e : exn) : result string :=
  match e with
  | AdapterError (Some (msg :: _)) => Ok msg
  | AdapterError (Some []) => Ok "undefined"
  | AdapterError None | TypeError | InvalidCharacterError => Throw TypeError
  end.

End JS.
Export JS.

(* ===================================================================== *)
(** ** utils/encode-decode.js *)
(* ===================================================================== *)

Module Codec.

Local Open Scope N_scope.
Local Open Scope char_scope.

(** A binary string (every code unit below 256) is a list of 8-bit
    characters; a [Uint8Array] is a list of bytes. *)
Definition text := list ascii.
Definition bytes := list Byte.byte.

Definition b64_alphabet : text :=
  list_ascii_of_string
    "ABCDEFGHIJKLMNOPQRSTUVWXYZabcdefghijklmnopqrstuvwxyz0123456789+/".

Definition b64_char (n : N) : ascii := nth (N.to_nat n) b64_alphabet "=".

Fixpoint index_of (c : ascii) (l : text) : option N :=
  match l with
  | [] => None
  | x :: l' => if Ascii.eqb x c then Some 0 else N.succ <$> index_of c l'
  end.

Definition b64_index (c : ascii) : option N := index_of c b64_alphabet.

(** The four sextets of a group of three octets. *)
Definition sextet1 (a : N) : N := N.shiftr a 2.
Definition sextet2 (a b : N) : N := N.lor (N.shiftl (N.land a 3) 4) (N.shiftr b 4).
Definition sextet3 (b c : N) : N := N.lor (N.shiftl (N.land b 15) 2) (N.shiftr c 6).
Definition sextet4 (c : N) : N := N.land c 63.

(** [btoa]: the platform's base64 encoder, with [=] padding. *)
Fixpoint btoa (s : text) : text :=
  match s with
  | [] => []
  | [a] =>
      let a := N_of_ascii a in
      [b64_char (sextet1 a); b64_char (sextet2 a 0); "="; "="]
  | [a; b] =>
      let a := N_of_ascii a in
      let b := N_of_ascii b in
      [b64_char (sextet1 a); b64_char (sextet2 a b); b64_char (sextet3 b 0); "="]
  | a :: b :: c :: rest =>
      let a := N_of_ascii a in
      let b := N_of_ascii b in
      let c := N_of_ascii c in
      b64_char (sextet1 a) :: b64_char (sextet2 a b)
        :: b64_char (sextet3 b c) :: b64_char (sextet4 c) :: btoa rest
  end.

(** The three octets of a group of four sextets. *)
Definition octet1 (i1 i2 : N) : N := N.lor (N.shiftl i1 2) (N.shiftr i2 4).
Definition octet2 (i2 i3 : N) : N := N.lor (N.shiftl (N.land i2 15) 4) (N.shiftr i3 2).
Definition octet3 (i3 i4 : N) : N := N.lor (N.shiftl (N.land i3 3) 6) i4.

(** The decoding loop of [atob]: 24 bits give three octets; a remainder of
    12 bits gives one (its last four bits are discarded), a remainder of 18
    bits gives two (its last two bits are discarded). *)
Fixpoint atob_groups (l : list N) : text :=
  match l with
  | i1 :: i2 :: i3 :: i4 :: rest =>
      ascii_of_N (octet1 i1 i2) :: ascii_of_N (octet2 i2 i3)
        :: ascii_of_N (octet3 i3 i4) :: atob_groups rest
  | [i1; i2; i3] => [ascii_of_N (octet1 i1 i2); ascii_of_N (octet2 i2 i3)]
  | [i1; i2] => [ascii_of_N (octet1 i1 i2)]
  | _ => []
  end.

Definition is_ascii_whitespace (c : ascii) : bool :=
  match N_of_ascii c with
  | 9 | 10 | 12 | 13 | 32 => true
  | _ => false
  end.

(** "If data ends with one or two [=], remove them." *)
Definition strip_padding (data : text) : text :=
  match rev data with
  | "=" :: "=" :: r => rev r
  | "=" :: r => rev r
  | _ => data
  end.

Fixpoint indices (data : text) : option (list N) :=
  match data with
  | [] => Some []
  | c :: data' =>
      match b64_index c, indices data' with
      | Some i, Some l => Some (i :: l)
      | _, _ => None
      end
  end.

(** [atob]: the platform's forgiving base64 decoder.  ASCII whitespace is
    dropped; padding is removed when the length is a multiple of four; a
    length of 1 modulo 4, or any character outside the standard alphabet
    [A-Za-z0-9+/], raises [InvalidCharacterError]. *)
Definition atob (data : text) : result text :=
  let data := List.filter (fun c => negb (is_ascii_whitespace c)) data in
  let data :=
    if N.eqb (N.of_nat (length data) mod 4) 0 then strip_padding data else data in
  if N.eqb (N.of_nat (length data) mod 4) 1 then Throw InvalidCharacterError
  else
    match indices data with
    | None => Throw InvalidCharacterError
    | Some l => Ok (atob_groups l)
    end.

(** [String.fromCharCode.apply(null, new Uint8Array(value))]. *)
Definition fromCharCodes (value : bytes) : text := map ascii_of_byte value.

(** [.replace(/x/g, y)] for single characters, [.replace(/x/g, '')]. *)
Definition replace_char (x y : ascii) (s : text) : text :=
  map (fun c => if Ascii.eqb c x then y else c) s.
Definition remove_char (x : ascii) (s : text) : text :=
  List.filter (fun c => negb (Ascii.eqb c x)) s.

(** [bufferEncode(value)]. *)
Definition bufferEncode (value : bytes) : text :=
  remove_char "=" (replace_char "/" "_" (replace_char "+" "-" (btoa (fromCharCodes value)))).

(** [bufferDecode(value)]: [Uint8Array.from(atob(value), c => c.charCodeAt(0))]. *)
Definition bufferDecode (value : text) : result bytes :=
  match atob value with
  | Ok s => Ok (map byte_of_ascii s)
  | Throw e => Throw e
  end.

End Codec.


(* ===================================================================== *)
(** ** components/auth-form.js *)
(* ===================================================================== *)

Module AuthForm.

(** *** Strings: [toLowerCase], [dasherize], the test [/\/$/] *)

(** [String.prototype.toLowerCase] on strings of ASCII characters: there it
    maps [A-Z] to [a-z] and leaves every other character.  On other
    characters the engine follows the Unicode tables, which are not
    modelled; the statements that turn on the result of [toLowerCase] are
    made for ASCII type names ([ascii_types] below). *)
Definition lower_char (c : ascii) : ascii :=
  let n := N_of_ascii c in
  if (N.leb 65 n && N.leb n 90)%bool then ascii_of_N (n + 32) else c.

Fixpoint toLowerCase (s : string) : string :=
  match s with
  | EmptyString => EmptyString
  | String c s' => String (lower_char c) (toLowerCase s')
  end.

Definition is_upper (c : ascii) : bool :=
  let n := N_of_ascii c in (N.leb 65 n && N.leb n 90)%bool.
Definition is_lower_or_digit (c : ascii) : bool :=
  let n := N_of_ascii c in
  ((N.leb 97 n && N.leb n 122) || (N.leb 48 n && N.leb n 57))%bool.

(** Ember's [decamelize]: [str.replace(/([a-z\d])([A-Z])/g, '$1_$2').toLowerCase()]. *)
Fixpoint underscore_humps (s : string) : string :=
  match s with
  | EmptyString => EmptyString
  | String c s' =>
      match s' with
      | String d _ =>
          if (is_lower_or_digit c && is_upper d)%bool
          then String c (String "_" (underscore_humps s'))
          else String c (underscore_humps s')
      | EmptyString => String c EmptyString
      end
  end.
Definition decamelize (s : string) : string := toLowerCase (underscore_humps s).

(** Ember's [dasherize]: [decamelize(str).replace(/[ _]/g, '-')]. *)
Fixpoint dash_spaces (s : string) : string :=
  match s with
  | EmptyString => EmptyString
  | String c s' =>
      String (if (Ascii.eqb c " " || Ascii.eqb c "_")%bool then "-"%char else c)
             (dash_spaces s')
  end.
Definition dasherize (s : string) : string := dash_spaces (decamelize s).

(** [/\/$/.test(s)]. *)
Fixpoint ends_with_slash (s : string) : bool :=
  match s with
  | EmptyString => false
  | String c EmptyString => Ascii.eqb c "/"
  | String _ s' => ends_with_slash s'
  end.

(** *** Backend descriptors *)

(** The objects of the static catalog and of the mounts reported by the
    server share one shape.  Catalog entries carry [type] and
    [formAttributes]; serialized mounts carry [type], [path], [id] and
    [description], to which [fetchMethods] adds [mountDescription].  A
    property an object does not have is [Undefined] (or the empty list for
    [formAttributes], which is only read under [|| []]). *)
Record backend : Type := {
  type : string;
  path : value;
  id : value;
  description : value;
  mountDescription : value;
  formAttributes : list string;
}.

(** What a lookup of a backend can give: an object of a list, the literal
    [{}], or [undefined] ([findBy] with no match). *)
Inductive lookup : Type :=
| Found (b : backend)
| EmptyObject
| NotFound.

(** [l.type], [l.id] for an object [l] that is not [undefined]. *)
Definition lookup_type (l : lookup) : value :=
  match l with Found b => Str (type b) | _ => Undefined end.
Definition lookup_id (l : lookup) : value :=
  match l with Found b => id b | _ => Undefined end.

(** [||] on a lookup: objects are truthy. *)
Definition lookup_or_empty (l : lookup) : lookup :=
  match l with NotFound => EmptyObject | _ => l end.

Definition of_find (o : option backend) : lookup :=
  match o with Some b => Found b | None => NotFound end.

(** [list.findBy('path', v)] and [list.findBy('type', v)]: the first item
    whose property is strictly equal to [v]. *)
Definition findBy_path (l : list backend) (v : value) : option backend :=
  List.find (fun m => strict_eq (path m) v) l.
Definition findBy_type (l : list backend) (v : value) : option backend :=
  List.find (fun b => strict_eq (Str (type b)) v) l.

(** *** The component *)

(** [cluster] is an object with an [id]. *)
Record cluster_model : Type := { cluster_id : value }.

(** The members of the component.  [methods] and [cluster] are [null]
    ([None]) until set.  [showLoading] is [None] while it is the computed
    [or(...)] macro and [Some b] once assigned.  [inputs] holds every other
    property bound to a form field (role, jwt, ...). *)
Record component : Type := {
  selectedAuth : value;
  methods : option (list backend);
  cluster : option cluster_model;
  namespace : value;
  wrappedToken : value;
  oldNamespace : value;
  oldWrappedToken : value;
  oldSelectedAuth : value;
  token : value;
  username : value;
  password : value;
  customPath : value;
  error : value;
  isLoading : value;
  showLoading : option bool;
  inputs : gmap string value;
}.

(** The component as created: the members declared in the class body and
    in [DEFAULTS] are [null]; [oldWrappedToken], [oldSelectedAuth], [error]
    and [isLoading] are not declared, hence [undefined]. *)
Definition initial : component := {|
  selectedAuth := Null; methods := None; cluster := None;
  namespace := Null; wrappedToken := Null;
  oldNamespace := Null; oldWrappedToken := Undefined; oldSelectedAuth := Undefined;
  token := Null; username := Null; password := Null; customPath := Null;
  error := Undefined; isLoading := Undefined; showLoading := None;
  inputs := ∅;
|}.

(** [this.set(member, v)], one setter per member that is written. *)
Definition set_selectedAuth (v : value) (c : component) : component :=
  let '(Build_component _ ms cl ns wt ons owt osa tk un pw cp er il sl inp) := c in
  Build_component v ms cl ns wt ons owt osa tk un pw cp er il sl inp.
Definition set_methods (v : option (list backend)) (c : component) : component :=
  let '(Build_component sa _ cl ns wt ons owt osa tk un pw cp er il sl inp) := c in
  Build_component sa v cl ns wt ons owt osa tk un pw cp er il sl inp.
Definition set_cluster (v : option cluster_model) (c : component) : component :=
  let '(Build_component sa ms _ ns wt ons owt osa tk un pw cp er il sl inp) := c in
  Build_component sa ms v ns wt ons owt osa tk un pw cp er il sl inp.
Definition set_namespace (v : value) (c : component) : component :=
  let '(Build_component sa ms cl _ wt ons owt osa tk un pw cp er il sl inp) := c in
  Build_component sa ms cl v wt ons owt osa tk un pw cp er il sl inp.
Definition set_wrappedToken (v : value) (c : component) : component :=
  let '(Build_component sa ms cl ns _ ons owt osa tk un pw cp er il sl inp) := c in
  Build_component sa ms cl ns v ons owt osa tk un pw cp er il sl inp.
Definition set_oldNamespace (v : value) (c : component) : component :=
  let '(Build_component sa ms cl ns wt _ owt osa tk un pw cp er il sl inp) := c in
  Build_component sa ms cl ns wt v owt osa tk un pw cp er il sl inp.
Definition set_oldWrappedToken (v : value) (c : component) : component :=
  let '(Build_component sa ms cl ns wt ons _ osa tk un pw cp er il sl inp) := c in
  Build_component sa ms cl ns wt ons v osa tk un pw cp er il sl inp.
Definition set_oldSelectedAuth (v : value) (c : component) : component :=
  let '(Build_component sa ms cl ns wt ons owt _ tk un pw cp er il sl inp) := c in
  Build_component sa ms cl ns wt ons owt v tk un pw cp er il sl inp.
Definition set_token (v : value) (c : component) : component :=
  let '(Build_component sa ms cl ns wt ons owt osa _ un pw cp er il sl inp) := c in
  Build_component sa ms cl ns wt ons owt osa v un pw cp er il sl inp.
Definition set_username (v : value) (c : component) : component :=
  let '(Build_component sa ms cl ns wt ons owt osa tk _ pw cp er il sl inp) := c in
  Build_component sa ms cl ns wt ons owt osa tk v pw cp er il sl inp.
Definition set_password (v : value) (c : component) : component :=
  let '(Build_component sa ms cl ns wt ons owt osa tk un _ cp er il sl inp) := c in
  Build_component sa ms cl ns wt ons owt osa tk un v cp er il sl inp.
Definition set_customPath (v : value) (c : component) : component :=
  let '(Build_component sa ms cl ns wt ons owt osa tk un pw _ er il sl inp) := c in
  Build_component sa ms cl ns wt ons owt osa tk un pw v er il sl inp.
Definition set_error (v : value) (c : component) : component :=
  let '(Build_component sa ms cl ns wt ons owt osa tk un pw cp _ il sl inp) := c in
  Build_component sa ms cl ns wt ons owt osa tk un pw cp v il sl inp.
Definition set_isLoading (v : value) (c : component) : component :=
  let '(Build_component sa ms cl ns wt ons owt osa tk un pw cp er _ sl inp) := c in
  Build_component sa ms cl ns wt ons owt osa tk un pw cp er v sl inp.
Definition set_showLoading (v : option bool) (c : component) : component :=
  let '(Build_component sa ms cl ns wt ons owt osa tk un pw cp er il _ inp) := c in
  Build_component sa ms cl ns wt ons owt osa tk un pw cp er il v inp.

(** [this.get(name)] as [getProperties] reads it, for the members that hold
    data.  Arrays and objects are handed on by reference. *)
Definition getProperty (c : component) (name : string) : value :=
  if String.eqb name "selectedAuth" then selectedAuth c
  else if String.eqb name "methods" then
    match methods c with Some _ => Obj "methods" | None => Null end
  else if String.eqb name "cluster" then
    match cluster c with Some _ => Obj "cluster" | None => Null end
  else if String.eqb name "namespace" then namespace c
  else if String.eqb name "wrappedToken" then wrappedToken c
  else if String.eqb name "oldNamespace" then oldNamespace c
  else if String.eqb name "oldWrappedToken" then oldWrappedToken c
  else if String.eqb name "oldSelectedAuth" then oldSelectedAuth c
  else if String.eqb name "token" then token c
  else if String.eqb name "username" then username c
  else if String.eqb name "password" then password c
  else if String.eqb name "customPath" then customPath c
  else if String.eqb name "error" then error c
  else if String.eqb name "isLoading" then isLoading c
  else default Undefined (inputs c !! name).

(** [this.getProperties(...names)]: an object with one property per name. *)
Definition getProperties (c : component) (names : list string) : gmap string value :=
  fold_left (fun o k => <[k := getProperty c k]> o) names ∅.

(** [assign(target, source)]: the properties of [source] win. *)
Definition assign (target source : gmap string value) : gmap string value :=
  source ∪ target.

(** [o.k] of a plain object. *)
Definition prop (o : gmap string value) (k : string) : value :=
  default Undefined (o !! k).

(** [const DEFAULTS = { token: null, username: null, password: null, customPath: null }]. *)
Definition DEFAULTS : list (string * value) :=
  [("token", Null); ("username", Null); ("password", Null); ("customPath", Null)].

(** [this.set(k, v)] by name, for the members [setProperties] is used on. *)
Definition setProperty (k : string) (v : value) (c : component) : component :=
  if String.eqb k "token" then set_token v c
  else if String.eqb k "username" then set_username v c
  else if String.eqb k "password" then set_password v c
  else if String.eqb k "customPath" then set_customPath v c
  else if String.eqb k "error" then set_error v c
  else if String.eqb k "isLoading" then set_isLoading v c
  else c.

Definition setProperties (props : list (string * value)) (c : component) : component :=
  fold_left (fun c kv => setProperty (fst kv) (snd kv) c) props c.

(** [resetDefaults()]. *)
Definition resetDefaults (c : component) : component := setProperties DEFAULTS c.

(** *** Effects and the task monad *)

(** The argument of [this.auth.authenticate]. *)
Record auth_params : Type := {
  clusterId : value;
  backend_param : value;
  data_param : gmap string value;
  selectedAuth_param : value;
}.

(** The options of [/login/begin] and the assertion of the platform, as
    [webauthnAuthenticate] reads them. *)
Record request_options : Type := {
  challenge : Codec.text;
  allowCredentials : list Codec.text;
}.

Record assertion : Type := {
  assertion_id : string;
  rawId : Codec.bytes;
  assertion_type : string;
  authenticatorData : Codec.bytes;
  clientDataJSON : Codec.bytes;
  signature : Codec.bytes;
  userHandle : Codec.bytes;
}.

(** The body posted to [/login/finish]. *)
Record finish_body : Type := {
  body_id : string;
  body_rawId : Codec.text;
  body_type : string;
  body_authenticatorData : Codec.text;
  body_clientDataJSON : Codec.text;
  body_signature : Codec.text;
  body_userHandle : Codec.text;
}.

(** The calls the component makes on its collaborators, in the order it
    makes them. *)
Inductive effect : Type :=
| StoreFindAll
| StoreUnloadAll
| ToolActionUnwrap (clientToken : value)
| Timeout (ms : N)
| AuthAuthenticate (params : auth_params)
| OnSuccess (authResponse : value) (backendType : value) (data : gmap string value)
| PreventDefault
| ConsoleLog
| ConsoleError (e : exn)
| FetchGet (url : string)
| FetchPost (url : string) (body : finish_body)
| CredentialsGet (challenge : Codec.bytes) (allow : list Codec.bytes).

(** A piece of the component's code: from the component before, its
    outcome (a value or a thrown exception), the component after, and the
    calls made. *)
Record out (A : Type) : Type := {
  res : result A;
  after : component;
  calls : list effect;
}.
Arguments res {A} o.
Arguments after {A} o.
Arguments calls {A} o.

Definition M (A : Type) : Type := component -> out A.

Definition ret {A} (a : A) : M A :=
  fun c => {| res := Ok a; after := c; calls := [] |}.

Definition throw {A} (e : exn) : M A :=
  fun c => {| res := Throw e; after := c; calls := [] |}.

Definition bind {A B} (m : M A) (k : A -> M B) : M B :=
  fun c =>
    let o := m c in
    match res o with
    | Ok a =>
        let o' := k a (after o) in
        {| res := res o'; after := after o'; calls := calls o ++ calls o' |}
    | Throw e => {| res := Throw e; after := after o; calls := calls o |}
    end.

(** [try { m } catch (e) { h e }]. *)
Definition try_catch {A} (m : M A) (h : exn -> M A) : M A :=
  fun c =>
    let o := m c in
    match res o with
    | Ok a => o
    | Throw e =>
        let o' := h e (after o) in
        {| res := res o'; after := after o'; calls := calls o ++ calls o' |}
    end.

Definition read {A} (f : component -> A) : M A :=
  fun c => {| res := Ok (f c); after := c; calls := [] |}.

Definition modify (f : component -> component) : M unit :=
  fun c => {| res := Ok tt; after := f c; calls := [] |}.

Definition call (e : effect) : M unit :=
  fun c => {| res := Ok tt; after := c; calls := [e] |}.

Definition lift {A} (r : result A) : M A :=
  match r with Ok a => ret a | Throw e => throw e end.

Definition when (b : bool) (m : M unit) : M unit := if b then m else ret tt.

Notation "'let*' x ':=' m 'in' k" := (bind m (fun x => k))
  (at level 10, x name, m at level 100, k at level 200).
Notation "m ';;' k" := (bind m (fun _ => k))
  (at level 100, k at level 200, right associativity).

Section Component.

(** [const BACKENDS = supportedAuthBackends()]: the static catalog of the
    helper [vault/helpers/supported-auth-backends]. *)
Variable BACKENDS : list backend.

(** [Ember.testing]. *)
Variable testing : bool.

(** [this.auth.handleError], the error normalization of the auth service. *)
Variable auth_handleError : exn -> value.

(** [this.onSuccess], the action the component is given: [None] when no
    such argument was passed, so that calling it throws a [TypeError];
    otherwise what the action returns or throws. *)
Variable onSuccess : option (value -> value -> gmap string value -> result unit).

(** **** Computed properties *)

(** [selectedAuthIsPath: match('selectedAuth', /\/$/)]. *)
Definition selectedAuthIsPath (c : component) : bool :=
  match selectedAuth c with
  | Str s => ends_with_slash s
  | _ => false
  end.

(** [getAuthBackend(type)]; [type] is [Undefined] when omitted.  With
    [methods] still [null], [methods.findBy] throws. *)
Definition getAuthBackend (type_arg : value) (c : component) : result lookup :=
  let selected := or_else type_arg (selectedAuth c) in
  if (negb (bool_decide (is_Some (methods c))) && negb (truthy (wrappedToken c)))%bool
  then Ok EmptyObject
  else if (selectedAuthIsPath c && negb (truthy type_arg))%bool then
    match methods c with
    | Some ms => Ok (of_find (findBy_path ms selected))
    | None => Throw TypeError
    end
  else Ok (of_find (findBy_type BACKENDS selected)).

(** [selectedAuthBackend]: [this.getAuthBackend()]. *)
Definition selectedAuthBackend (c : component) : result lookup :=
  getAuthBackend Undefined c.

(** [providerName]. *)
Definition providerName (c : component) : result value :=
  match selectedAuthBackend c with
  | Throw e => Throw e
  | Ok NotFound => Ok Undefined
  | Ok l =>
      let type := to_text (or_else (lookup_type l) (Str "token")) in
      Ok (Str (dasherize (toLowerCase type)))
  end.

(** [methodsToShow]. *)
Definition methodsToShow (c : component) : list backend :=
  let methods := match methods c with Some ms => ms | None => [] end in
  let shownMethods :=
    List.filter
      (fun m =>
         bool_decide (is_Some
           (List.find
              (fun b => String.eqb (toLowerCase (type b)) (toLowerCase (type m)))
              BACKENDS)))
      methods in
  match shownMethods with
  | [] => BACKENDS
  | _ :: _ => shownMethods
  end.

(** [hasMethodsWithPath], [allSupportedMethods], [firstMethod()]. *)
Definition hasMethodsWithPath (c : component) : bool :=
  existsb (fun m => truthy (path m)) (methodsToShow c).

Definition allSupportedMethods (c : component) : list backend :=
  if hasMethodsWithPath c then methodsToShow c ++ BACKENDS else methodsToShow c.

Definition firstMethod (c : component) : value :=
  match methodsToShow c with
  | [] => Undefined
  | m :: _ => or_else (path m) (Str (type m))
  end.

(** **** Tasks *)

(** What [doSubmit] receives: [arguments.length] is 0, 1 or more.  The
    event [e] is modelled by its truthiness, [passedData] is [None] when
    falsy. *)
Inductive submit_args : Type :=
| NoArguments
| OneArgument (e : bool)
| TwoArguments (passedData : option (gmap string value)) (e : bool).

(** An [authenticate] task instance suspended on [this.auth.authenticate]:
    the arguments its continuation still uses. *)
Record pending_auth : Type := {
  pending_backendType : value;
  pending_data : gmap string value;
}.

(** [delayAuthMessageReminder.perform()], up to its [yield timeout(...)]. *)
Definition delayAuthMessageReminder : M unit :=
  if testing
  then modify (set_showLoading (Some true));; call (Timeout 0)
  else call (Timeout 5000).

(** [authenticate.perform(backendType, data)], up to the [yield] on
    [this.auth.authenticate].  Destructuring [cluster: { id }] of a
    [null] cluster throws before the [try]: the task instance ends in
    error without any call ([None]); [perform] itself returns. *)
Definition authenticate_perform (backendType : value) (data : gmap string value)
  : M (option pending_auth) :=
  let* selected := read selectedAuth in
  let* cl := read cluster in
  match cl with
  | None => ret None
  | Some cl =>
      delayAuthMessageReminder;;
      call (AuthAuthenticate {| clusterId := cluster_id cl;
                                backend_param := backendType;
                                data_param := data;
                                selectedAuth_param := selected |});;
      ret (Some {| pending_backendType := backendType; pending_data := data |})
  end.

(** The continuation of [authenticate] once [this.auth.authenticate] has
    settled; [mfaError] is [this.auth.mfaError] as the [catch] reads it.
    The call of [this.onSuccess] stands inside the [try]: what it throws is
    caught like a rejection of [this.auth.authenticate]. *)
Definition authenticate_settle (p : pending_auth) (outcome : result value)
    (mfaError : value) : M unit :=
  try_catch
    (let* authResponse := lift outcome in
     match onSuccess with
     | None => throw TypeError
     | Some action =>
         call (OnSuccess authResponse (pending_backendType p) (pending_data p));;
         lift (action authResponse (pending_backendType p) (pending_data p))
     end)
    (fun e =>
       modify (set_isLoading (Bool false));;
       when (negb (truthy mfaError))
         (modify (set_error
            (Str ("Authentication failed: " ++ to_text (auth_handleError e)))))).

(** [(v || '')] interpolated as a string. *)
Definition type_or_empty (v : value) : string := to_text (or_else v (Str "")).

(** The action [doSubmit].  When the OIDC branch finds no [token] backend,
    [backend] is [undefined] and reading [backend.type] throws; nothing is
    written or called between the lookup and that read. *)
Definition doSubmit (args : submit_args) : M (option pending_auth) :=
  let '(passedData, e) :=
    match args with
    | NoArguments => (None, false)
    | OneArgument e => (None, e)
    | TwoArguments passedData e => (passedData, e)
    end in
  when e (call PreventDefault);;
  modify (setProperties [("error", Null)]);;
  let* provider := (fun c => lift (providerName c) c) in
  let* backend :=
    (if strict_eq provider (Str "oidc")
     then (fun c => lift (getAuthBackend (Str "token") c) c)
     else let* l := (fun c => lift (selectedAuthBackend c) c) in
          ret (lookup_or_empty l)) in
  match backend with
  | NotFound => throw TypeError
  | _ =>
      let backendMeta :=
        List.find
          (fun b => String.eqb (toLowerCase (type_or_empty (Str (type b))))
                               (toLowerCase (type_or_empty (lookup_type backend))))
          BACKENDS in
      let attributes :=
        match backendMeta with Some b => formAttributes b | None => [] end in
      let* props := read (fun c => getProperties c attributes) in
      let data := assign ∅ props in
      let data :=
        match passedData with Some pd => assign data pd | None => data end in
      let* custom := read customPath in
      let data :=
        if truthy (or_else custom (lookup_id backend))
        then <["path" := or_else custom (lookup_id backend)]> data
        else data in
      authenticate_perform (lookup_type backend) data
  end.

(** The action [handleError(e)]. *)
Definition handleError (e : option exn) : M unit :=
  modify (setProperties
    [("isLoading", Bool false);
     ("error", match e with Some e => auth_handleError e | None => Null end)]).

(** [unwrapToken.perform(token)], up to the [yield] on the exchange call. *)
Definition unwrapToken_perform (token : value) : M unit :=
  modify (set_selectedAuth (Str "token"));;
  call (ToolActionUnwrap token).

(** The continuation of [unwrapToken]: [response] is
    [response.auth.client_token] when the exchange succeeded, the
    rejection otherwise. *)
Definition unwrapToken_settle (response : result value) : M unit :=
  try_catch
    (let* client_token := lift response in
     modify (set_token client_token);;
     doSubmit NoArguments;;
     ret tt)
    (fun e =>
       let* msg := lift (first_error_text e) in
       modify (set_error (Str ("Token unwrap failed: " ++ msg)))).

(** A whole run of the Token Unwrap operation. *)
Definition unwrapToken (token : value) (response : result value) : M unit :=
  unwrapToken_perform token;;
  unwrapToken_settle response.

(** [fetchMethods.perform()], up to the [yield] on [store.findAll]. *)
Definition fetchMethods_perform : M unit := call StoreFindAll.

(** The continuation of [fetchMethods]; [found] holds the serialized
    records ([m.serialize({ includeId: true })]). *)
Definition fetchMethods_settle (found : result (list backend)) : M unit :=
  try_catch
    (let* ms := lift found in
     modify (set_methods (Some (map
       (fun method =>
          {| type := type method; path := path method; id := id method;
             description := description method;
             mountDescription := description method;
             formAttributes := formAttributes method |}) ms)));;
     call StoreUnloadAll)
    (fun e =>
       let* msg := lift (first_error_text e) in
       modify (set_error
         (Str ("There was an error fetching Auth Methods: " ++ msg)))).

(** **** The attribute-change pass *)

(** What [didReceiveAttrs] reads from [this] before it defers its work
    with [next]. *)
Record snapshot : Type := {
  snap_token : value;
  snap_oldToken : value;
  snap_oldNS : value;
  snap_ns : value;
  snap_newMethod : value;
  snap_oldMethod : value;
}.

Definition didReceiveAttrs (c : component) : snapshot := {|
  snap_token := wrappedToken c;
  snap_oldToken := oldWrappedToken c;
  snap_oldNS := oldNamespace c;
  snap_ns := namespace c;
  snap_newMethod := selectedAuth c;
  snap_oldMethod := oldSelectedAuth c;
|}.

(** The function handed to [next]. *)
Definition attrs_callback (s : snapshot) : M unit :=
  when (negb (truthy (snap_token s))
        && (strict_eq (snap_oldNS s) Null || strict_ne (snap_oldNS s) (snap_ns s)))%bool
    fetchMethods_perform;;
  modify (set_oldNamespace (snap_ns s));;
  when (truthy (snap_token s) && negb (truthy (snap_oldToken s)))%bool
    (unwrapToken_perform (snap_token s);;
     modify (set_oldWrappedToken (snap_token s)));;
  when (truthy (snap_oldMethod s) && strict_ne (snap_oldMethod s) (snap_newMethod s))%bool
    (modify resetDefaults);;
  modify (set_oldSelectedAuth (snap_newMethod s)).

(** The attributes a render passes in; [None] leaves the member as it is. *)
Record attrs : Type := {
  attr_wrappedToken : option value;
  attr_namespace : option value;
  attr_selectedAuth : option value;
}.

Definition receive (a : attrs) (c : component) : component :=
  let c := match attr_wrappedToken a with Some v => set_wrappedToken v c | None => c end in
  let c := match attr_namespace a with Some v => set_namespace v c | None => c end in
  match attr_selectedAuth a with Some v => set_selectedAuth v c | None => c end.

(** One attribute-change pass: the attributes are received,
    [didReceiveAttrs] takes its snapshot, and the deferred function runs
    (before the next pass is delivered). *)
Definition pass (a : attrs) : M unit :=
  fun c => let c := receive a c in attrs_callback (didReceiveAttrs c) c.

Fixpoint passes (l : list attrs) : M unit :=
  match l with
  | [] => ret tt
  | a :: l' => pass a;; passes l'
  end.

(** **** The WebAuthn login ceremony *)

(** What the collaborators of the ceremony answer: the parsed body of
    [/login/begin], the platform's [navigator.credentials.get], and the
    parsed body of [/login/finish]. *)
Record ceremony : Type := {
  begin_json : result request_options;
  credentials_get : result assertion;
  finish_json : result unit;
}.

(** [forEach] over [allowCredentials], stopping at the first throw. *)
Fixpoint decode_each (l : list Codec.text) : result (list Codec.bytes) :=
  match l with
  | [] => Ok []
  | x :: l' =>
      match Codec.bufferDecode x with
      | Throw e => Throw e
      | Ok b =>
          match decode_each l' with
          | Throw e => Throw e
          | Ok bs => Ok (b :: bs)
          end
      end
  end.

(** [webauthnAuthenticate.perform(e)], up to the [yield] on the promise
    chain, whose first link is the request to [/login/begin]. *)
Definition webauthnAuthenticate_perform : M value :=
  call PreventDefault;;
  let* name := read username in
  call ConsoleLog;;
  call (FetchGet ("/login/begin/" ++ to_text name));;
  ret name.

(** The rest of the promise chain, ending in [.catch(e => console.error(e))]. *)
Definition webauthnAuthenticate_chain (name : value) (env : ceremony) : M unit :=
  try_catch
    (let* options := lift (begin_json env) in
     let* decoded := lift (Codec.bufferDecode (challenge options)) in
     let* allowed := lift (decode_each (allowCredentials options)) in
     call (CredentialsGet decoded allowed);;
     let* a := lift (credentials_get env) in
     call (FetchPost ("/login/finish/" ++ to_text name)
       {| body_id := assertion_id a;
          body_rawId := Codec.bufferEncode (rawId a);
          body_type := assertion_type a;
          body_authenticatorData := Codec.bufferEncode (authenticatorData a);
          body_clientDataJSON := Codec.bufferEncode (clientDataJSON a);
          body_signature := Codec.bufferEncode (signature a);
          body_userHandle := Codec.bufferEncode (userHandle a) |});;
     lift (finish_json env))
    (fun e => call (ConsoleError e)).

Definition webauthnAuthenticate (env : ceremony) : M unit :=
  let* name := webauthnAuthenticate_perform in
  webauthnAuthenticate_chain name env.

(** **** The default selection *)

(** An object or [undefined] as a condition. *)
Definition lookup_truthy (l : lookup) : bool :=
  match l with NotFound => false | _ => true end.

(** The function [didRender] hands to [next]; [fetchMethods_isIdle] is
    [this.fetchMethods.isIdle] as it reads it.  [&&] and [||] evaluate their
    right operand only when needed, so [selectedAuthBackend] is computed only
    with no wrapped token, the first alternative false and a selection
    present.  (Before it defers this function, [didRender] only scrolls the
    active tab into view.) *)
Definition didRender_callback (fetchMethods_isIdle : bool) : M unit :=
  let* first := read firstMethod in
  let* wrapped := read wrappedToken in
  if truthy wrapped then ret tt
  else
    let* selected := read selectedAuth in
    if (fetchMethods_isIdle && truthy first && negb (truthy selected))%bool
    then modify (set_selectedAuth first)
    else if truthy selected then
      let* l := (fun c => lift (selectedAuthBackend c) c) in
      when (negb (lookup_truthy l)) (modify (set_selectedAuth first))
    else ret tt.

End Component.

End AuthForm.

(* ===================================================================== *)
(** ** The token menu: the component with [registerWebauthn] *)
(* ===================================================================== *)

Module AuthInfo.

(** The calls the component makes on its collaborators. *)
Inductive call : Type :=
| Later (ms : N)
| AuthRenew
| AuthRevokeCurrentToken
| TransitionTo (route : string)
| WizardRestartGuide
| Prompt (message : string)
| FetchRegisterBegin (url : string) (user : value)
| CredentialsCreate (challenge : Codec.bytes) (user_id : Codec.bytes)
    (excludeCredentials : option (list Codec.bytes))
| FetchRegisterFinish (url : string) (id : string) (rawId : Codec.text)
    (type : string) (attestationObject : Codec.text) (clientDataJSON : Codec.text)
| Alert (message : string)
| ConsoleLog (e : exn).

(** [@tracked fakeRenew = false] is the only state of the component. *)
Record component : Type := { fakeRenew : bool }.

Definition initial : component := {| fakeRenew := false |}.

(** [get hasEntityId()]: [!!this.auth.authData.entity_id]. *)
Definition hasEntityId (entity_id : value) : bool := truthy entity_id.

(** [get isRenewing()]: [this.fakeRenew || this.auth.isRenewing]. *)
Definition isRenewing (c : component) (auth_isRenewing : bool) : bool :=
  (fakeRenew c || auth_isRenewing)%bool.

(** [renewToken()]: the flag is raised and the renewal deferred by 200 ms. *)
Definition renewToken (c : component) : component * list call :=
  ({| fakeRenew := true |}, [Later 200]).

(** The function handed to [later]: it calls [this.auth.renew()]. *)
Definition renewToken_later (c : component) : component * list call :=
  (c, [AuthRenew]).

(** The [then] of [this.auth.renew()]: it runs only when the renewal
    resolved, and copies [this.auth.isRenewing]; there is no [catch]. *)
Definition renewToken_settle (outcome : result unit) (auth_isRenewing : bool)
    (c : component) : component :=
  match outcome with
  | Ok _ => {| fakeRenew := auth_isRenewing |}
  | Throw _ => c
  end.

(** [revokeToken()], and the [then] of [this.auth.revokeCurrentToken()]. *)
Definition revokeToken : list call := [AuthRevokeCurrentToken].

Definition revokeToken_settle (outcome : result unit) : list call :=
  match outcome with
  | Ok _ => [TransitionTo "vault.cluster.logout"]
  | Throw _ => []
  end.

(** [restartGuide()]. *)
Definition restartGuide : list call := [WizardRestartGuide].

(** The options of [register/begin] ([credentialCreationOptions.data.publicKey])
    and the credential of the platform, as [registerWebauthn] reads them. *)
Record creation_options : Type := {
  challenge : Codec.text;
  user_id : Codec.text;
  excludeCredentials : option (list Codec.text);
}.

Record credential : Type := {
  credential_id : string;
  rawId : Codec.bytes;
  credential_type : string;
  attestationObject : Codec.bytes;
  clientDataJSON : Codec.bytes;
}.

(** What the collaborators of the ceremony answer: [prompt], the parsed body
    of [register/begin], [navigator.credentials.create], and the parsed body
    of [register/finish]. *)
Record ceremony : Type := {
  prompted : value;
  begin_json : result creation_options;
  credentials_create : result credential;
  finish_json : result unit;
}.

(** A link of the promise chain: the calls it made and its outcome. *)
Definition link (A : Type) : Type := list call * result A.

Definition done {A} (a : A) : link A := ([], Ok a).
Definition failed {A} (r : result A) : link A := ([], r).
Definition calling (e : call) : link unit := ([e], Ok tt).

Definition and_then {A B} (l : link A) (k : A -> link B) : link B :=
  match snd l with
  | Ok a => (fst l ++ fst (k a), snd (k a))
  | Throw e => (fst l, Throw e)
  end.

(** The [for] loop over [excludeCredentials], stopping at the first throw. *)
Fixpoint decode_each (l : list Codec.text) : result (list Codec.bytes) :=
  match l with
  | [] => Ok []
  | x :: l' =>
      match Codec.bufferDecode x with
      | Throw e => Throw e
      | Ok b =>
          match decode_each l' with
          | Throw e => Throw e
          | Ok bs => Ok (b :: bs)
          end
      end
  end.

Definition decode_excluded (o : option (list Codec.text))
  : result (option (list Codec.bytes)) :=
  match o with
  | None => Ok None
  | Some l =>
      match decode_each l with
      | Ok bs => Ok (Some bs)
      | Throw e => Throw e
      end
  end.

(** The promise chain of [registerWebauthn], up to its [catch]. *)
Definition registerWebauthn_chain (username : value) (env : ceremony) : link unit :=
  and_then (calling (FetchRegisterBegin
                       "http://127.0.0.1:8200/v1/auth/webauthn/register/begin" username))
  (fun _ => and_then (failed (begin_json env))
  (fun options => and_then (failed (Codec.bufferDecode (challenge options)))
  (fun decoded => and_then (failed (Codec.bufferDecode (user_id options)))
  (fun user => and_then (failed (decode_excluded (excludeCredentials options)))
  (fun excluded => and_then (calling (CredentialsCreate decoded user excluded))
  (fun _ => and_then (failed (credentials_create env))
  (fun cred => and_then
     (calling (FetchRegisterFinish
                 ("/register/finish/" ++ to_text username)
                 (credential_id cred)
                 (Codec.bufferEncode (rawId cred))
                 (credential_type cred)
                 (Codec.bufferEncode (attestationObject cred))
                 (Codec.bufferEncode (clientDataJSON cred))))
  (fun _ => and_then (failed (finish_json env))
  (fun _ => calling (Alert ("successfully registered " ++ to_text username ++ "!"))))))))))).

(** The task [registerWebauthn]: the username is prompted for, the chain
    runs, and its [catch] logs the cause and alerts. *)
Definition registerWebauthn (env : ceremony) : list call :=
  let username := prompted env in
  let chain := registerWebauthn_chain username env in
  Prompt "Username:"
    :: fst chain
    ++ match snd chain with
       | Ok _ => []
       | Throw e => [ConsoleLog e; Alert ("failed to register " ++ to_text username)]
       end.

End AuthInfo.

(* ===================================================================== *)
(** ** What the properties observe *)
(* ===================================================================== *)

Module CodecAux.
Import Codec.
Local Open Scope N_scope.

(** The octets, to check a property of one or two of them by enumeration. *)
Definition octets : list N := map N.of_nat (seq 0 256).

Definition for_octets (p : N -> bool) : bool := forallb p octets.

Definition for_octet_pairs (p : N -> N -> bool) : bool :=
  forallb (fun a => forallb (p a) octets) octets.

Definition option_N_eqb (o : option N) (n : N) : bool :=
  match o with Some m => m =? n | None => false end.

(** The sextets [btoa] writes, without the padding. *)
Fixpoint sextets (s : text) : list N :=
  match s with
  | [] => []
  | [a] => [sextet1 (N_of_ascii a); sextet2 (N_of_ascii a) 0]
  | [a; b] =>
      [sextet1 (N_of_ascii a); sextet2 (N_of_ascii a) (N_of_ascii b);
       sextet3 (N_of_ascii b) 0]
  | a :: b :: c :: rest =>
      sextet1 (N_of_ascii a) :: sextet2 (N_of_ascii a) (N_of_ascii b)
        :: sextet3 (N_of_ascii b) (N_of_ascii c) :: sextet4 (N_of_ascii c)
        :: sextets rest
  end.

(** The padded text has [+] or [/] in it. *)
Definition url_unsafe (s : text) : bool :=
  existsb (fun c => (Ascii.eqb c "+"%char || Ascii.eqb c "/"%char)%bool) s.

(** The padding [btoa] writes after the sextets. *)
Fixpoint padding (s : text) : text :=
  match s with
  | [] => []
  | [_] => ["="%char; "="%char]
  | [_; _] => ["="%char]
  | _ :: _ :: _ :: rest => padding rest
  end.

(** A character of the base64url alphabet [A-Za-z0-9-_]. *)
Definition is_base64url (c : ascii) : bool :=
  let n := N_of_ascii c in
  ((65 <=? n) && (n <=? 90) || (97 <=? n) && (n <=? 122)
   || (48 <=? n) && (n <=? 57) || (n =? 45) || (n =? 95))%bool.

(** The substitutions of [bufferEncode], the other way round. *)
Definition from_url_safe (s : text) : text :=
  replace_char "_"%char "/"%char (replace_char "-"%char "+"%char s).

(** The two substitutions of [bufferEncode] on one character. *)
Definition to_url_safe_char (c : ascii) : ascii :=
  let c := if Ascii.eqb c "+"%char then "-"%char else c in
  if Ascii.eqb c "/"%char then "_"%char else c.

End CodecAux.

Module Traces.

(** [only_after asks posts asked l]: in the trace [l], every call that
    satisfies [posts] comes after a call that satisfies [asks] ([asked]
    tells whether one came before [l]). *)
Fixpoint only_after {A} (asks posts : A -> bool) (asked : bool) (l : list A) : bool :=
  match l with
  | [] => true
  | e :: l' =>
      (if posts e then asked else true)
      && only_after asks posts (asked || asks e) l'
  end.

End Traces.

Module Observations.
Import AuthForm.

(** [keeps f m]: running [m] leaves the observation [f] of the component
    as it was, whether [m] returns or throws. *)
Inductive keeps {A X} (f : component -> X) (m : M A) : Prop :=
| Keeps (H : forall c, f (after (m c)) = f c).

(** Which calls of a trace are exchange calls, discovery calls,
    authenticate calls. *)
Definition unwrap_calls (l : list effect) : list value :=
  flat_map (fun e => match e with ToolActionUnwrap t => [t] | _ => [] end) l.

Definition discovery_calls (l : list effect) : nat :=
  length (List.filter (fun e => match e with StoreFindAll => true | _ => false end) l).

Definition authenticate_calls (l : list effect) : list auth_params :=
  flat_map (fun e => match e with AuthAuthenticate p => [p] | _ => [] end) l.

(** The three tests of the deferred function, on the snapshot taken by
    [didReceiveAttrs]. *)
Definition discovers (s : snapshot) : bool :=
  negb (truthy (snap_token s))
  && (strict_eq (snap_oldNS s) Null || strict_ne (snap_oldNS s) (snap_ns s)).

Definition unwraps (s : snapshot) : bool :=
  truthy (snap_token s) && negb (truthy (snap_oldToken s)).

Definition resets (s : snapshot) : bool :=
  truthy (snap_oldMethod s) && strict_ne (snap_oldMethod s) (snap_newMethod s).

(** [getAuthBackend] does not answer [{}]: [methods] is set or a wrapped
    token is present. *)
Definition backend_resolvable (c : component) : bool :=
  negb (negb (bool_decide (is_Some (methods c))) && negb (truthy (wrappedToken c))).

(** Type names written in ASCII characters only. *)
Definition ascii_text (s : string) : bool :=
  forallb (fun c => N.ltb (N_of_ascii c) 128) (list_ascii_of_string s).

Definition ascii_types (l : list backend) : bool :=
  forallb (fun b => ascii_text (type b)) l.

Section Catalog.
Variable BACKENDS : list backend.

(** Two characters that are the same but for their case: equal, or the
    capital and the small form of one letter of [A-Z]. *)
Definition same_letter (a b : ascii) : bool :=
  let x := N_of_ascii a in
  let y := N_of_ascii b in
  N.eqb x y
  || (N.leb 65 x && N.leb x 90 && N.eqb y (x + 32))
  || (N.leb 65 y && N.leb y 90 && N.eqb x (y + 32)).

(** Two strings that are the same but for the case of their letters. *)
Fixpoint same_ignoring_case (s t : string) : bool :=
  match s, t with
  | EmptyString, EmptyString => true
  | String a s', String b t' => same_letter a b && same_ignoring_case s' t'
  | _, _ => false
  end.

(** A type that matches, case-insensitively, a type of the static catalog. *)
Definition type_in_catalog (m : backend) : bool :=
  existsb (fun b => same_ignoring_case (type b) (type m)) BACKENDS.

(** The candidate list as the specification words it: the reported mounts
    whose type is in the catalog, in their order, or the whole catalog when
    there is none. *)
Definition methodsToShow_spec (reported : option (list backend)) : list backend :=
  match List.filter type_in_catalog (default [] reported) with
  | [] => BACKENDS
  | shown => shown
  end.

(** The catalog offers the token backend: it has an entry of type ['token'],
    and [meta], its first entry whose type is ['token'] up to case, lists the
    form attribute ['token']; its type names are written in ASCII. *)
Definition catalog_offers_token (b meta : backend) : Prop :=
  findBy_type BACKENDS (Str "token") = Some b
  /\ List.find (fun b' => String.eqb (toLowerCase (type b')) "token") BACKENDS = Some meta
  /\ In "token" (formAttributes meta)
  /\ ascii_types BACKENDS = true.

End Catalog.

(** A catalog with the token and userpass backends, and a component that
    was rendered with its cluster and a wrapped token. *)
Definition token_backend : backend :=
  {| type := "token"; path := Undefined; id := Undefined; description := Undefined;
     mountDescription := Undefined; formAttributes := ["token"] |}.

Definition userpass_backend : backend :=
  {| type := "userpass"; path := Undefined; id := Undefined; description := Undefined;
     mountDescription := Undefined; formAttributes := ["username"; "password"] |}.

Definition sample_catalog : list backend := [token_backend; userpass_backend].

Definition rendered_with_wrapped_token : component :=
  after (pass {| attr_wrappedToken := Some (Str "s.wrapped"); attr_namespace := None;
                 attr_selectedAuth := None |}
           (set_cluster (Some {| cluster_id := Str "1" |}) initial)).

(** A form on the [userpass] backend, filled in, after Method Discovery was
    refused by the server. *)
Definition userpass_form_after_failure : component :=
  set_password (Str "hunter2")
    (set_username (Str "alice")
       (after (fetchMethods_settle (Throw (AdapterError (Some ["permission denied"])))
          (after (pass {| attr_wrappedToken := None; attr_namespace := None;
                          attr_selectedAuth := Some (Str "userpass") |} initial))))).

End Observations.

Module MoreObservations.
Import AuthForm.

(** [only p m]: every call made by [m] satisfies [p]. *)
Inductive only {A} (p : effect -> bool) (m : M A) : Prop :=
| Only (H : forall c, forallb p (calls (m c)) = true).

(** Calls that sign the user in or report a sign-in. *)
Definition signs_in (e : effect) : bool :=
  match e with AuthAuthenticate _ | OnSuccess _ _ _ => true | _ => false end.

Definition asks_platform (e : effect) : bool :=
  match e with CredentialsGet _ _ => true | _ => false end.

Definition posts_assertion (e : effect) : bool :=
  match e with FetchPost _ _ => true | _ => false end.

(** Calls put in front of the calls of an outcome. *)
Definition prepend {A} (l : list effect) (o : out A) : out A :=
  {| res := res o; after := after o; calls := l ++ calls o |}.

Section Submit.
Variable BACKENDS : list backend.

(** The backend [doSubmit] resolves: by type ['token'] when the provider is
    ['oidc'], the selected backend or [{}] otherwise. *)
Definition submit_backend (c : component) : result lookup :=
  match providerName BACKENDS c with
  | Throw e => Throw e
  | Ok provider =>
      if strict_eq provider (Str "oidc") then getAuthBackend BACKENDS (Str "token") c
      else match selectedAuthBackend BACKENDS c with
           | Throw e => Throw e
           | Ok l => Ok (lookup_or_empty l)
           end
  end.

(** The form attributes [doSubmit] gathers for a backend: those of the first
    catalog entry of its type, up to case. *)
Definition submit_attributes (backend : lookup) : list string :=
  match List.find
          (fun b => String.eqb (toLowerCase (type_or_empty (Str (type b))))
                               (toLowerCase (type_or_empty (lookup_type backend))))
          BACKENDS
  with
  | Some b => formAttributes b
  | None => []
  end.

(** The [path] of the data: the custom path, or else the id of the backend. *)
Definition submit_path (backend : lookup) (c : component) : value :=
  or_else (customPath c) (lookup_id backend).

(** The data [doSubmit] hands to [authenticate]. *)
Definition submit_data (backend : lookup) (passedData : option (gmap string value))
    (c : component) : gmap string value :=
  let data := assign ∅ (getProperties c (submit_attributes backend)) in
  let data := match passedData with Some pd => assign data pd | None => data end in
  if truthy (submit_path backend c)
  then <["path" := submit_path backend c]> data
  else data.

End Submit.

(** The event and the data among the arguments of [doSubmit]. *)
Definition submit_event (args : submit_args) : bool :=
  match args with
  | NoArguments => false
  | OneArgument e => e
  | TwoArguments _ e => e
  end.

Definition submit_passedData (args : submit_args) : option (gmap string value) :=
  match args with
  | TwoArguments passedData _ => passedData
  | _ => None
  end.

(** The userpass backend mounted at [foo/], and a component rendered with
    its cluster and the selection [foo/] once Method Discovery has reported
    that mount: the user typed a name and a password. *)
Definition foo_mount : backend :=
  {| type := "userpass"; path := Str "foo/"; id := Str "foo"; description := Undefined;
     mountDescription := Undefined; formAttributes := [] |}.

Definition selected_foo : component :=
  set_password (Str "hunter2")
    (set_username (Str "alice")
       (after (fetchMethods_settle (Ok [foo_mount])
          (after (pass {| attr_wrappedToken := None; attr_namespace := None;
                          attr_selectedAuth := Some (Str "foo/") |}
                   (set_cluster (Some {| cluster_id := Str "1" |}) initial)))))).

(** A relying party whose challenge, ["-w"], has a [-] in it. *)
Definition challenge_with_dash : ceremony :=
  {| begin_json := Ok {| challenge := list_ascii_of_string "-w";
                         allowCredentials := [] |};
     credentials_get :=
       Ok {| assertion_id := "cred"; rawId := []; assertion_type := "public-key";
             authenticatorData := []; clientDataJSON := []; signature := [];
             userHandle := [] |};
     finish_json := Ok tt |}.

(** A render that passes no new attribute. *)
Definition same_attributes : attrs :=
  {| attr_wrappedToken := None; attr_namespace := None; attr_selectedAuth := None |}.

(** A pass unwrapped while a backend other than ['token'] was selected:
    [oldSelectedAuth] holds that backend, [selectedAuth] is ['token']. *)
Definition stale_selection (s : snapshot) : bool :=
  Observations.unwraps s && truthy (snap_newMethod s)
  && strict_ne (snap_newMethod s) (Str "token").

End MoreObservations.

Module AuthInfoObservations.
Import AuthInfo.

(** The alerts of a trace, and whether it logs, asks the platform, or posts
    the attestation. *)
Definition alerts (l : list call) : list string :=
  flat_map (fun e => match e with Alert m => [m] | _ => [] end) l.

Definition logged (l : list call) : list exn :=
  flat_map (fun e => match e with ConsoleLog e => [e] | _ => [] end) l.

Definition asks_platform (e : call) : bool :=
  match e with CredentialsCreate _ _ _ => true | _ => false end.

Definition posts_attestation (e : call) : bool :=
  match e with FetchRegisterFinish _ _ _ _ _ _ => true | _ => false end.

(** Every step of the registration answered. *)
Definition registration_goes_through (env : ceremony) : Prop :=
  exists options decoded user excluded cred,
    begin_json env = Ok options
    /\ Codec.bufferDecode (challenge options) = Ok decoded
    /\ Codec.bufferDecode (user_id options) = Ok user
    /\ decode_excluded (excludeCredentials options) = Ok excluded
    /\ credentials_create env = Ok cred
    /\ finish_json env = Ok tt.

(** A relying party whose challenge, ["-w"], has a [-] in it; the platform
    and the finish endpoint would answer. *)
Definition challenge_with_dash : ceremony :=
  {| prompted := Str "alice";
     begin_json := Ok {| challenge := list_ascii_of_string "-w";
                         user_id := list_ascii_of_string "YWxpY2U";
                         excludeCredentials := None |};
     credentials_create :=
       Ok {| credential_id := "cred"; rawId := []; credential_type := "public-key";
             attestationObject := []; clientDataJSON := [] |};
     finish_json := Ok tt |}.

End AuthInfoObservations.

(* ===================================================================== *)
(** ** Examples of the codec *)
(* ===================================================================== *)

Module CodecExamples.
Import Codec.
Local Open Scope char_scope.

Example btoa_three_octets :
  btoa (list_ascii_of_string "Man") = list_ascii_of_string "TWFu".
Proof. reflexivity. Qed.

Example btoa_two_octets :
  btoa (list_ascii_of_string "Ma") = list_ascii_of_string "TWE=".
Proof. reflexivity. Qed.

Example atob_without_padding :
  atob (list_ascii_of_string "TWE") = Ok (list_ascii_of_string "Ma").
Proof. reflexivity. Qed.

Example atob_with_padding :
  atob (list_ascii_of_string "TQ==") = Ok (list_ascii_of_string "M").
Proof. reflexivity. Qed.

Example bufferEncode_url_safe : bufferEncode [Byte.xfb] = list_ascii_of_string "-w".
Proof. reflexivity. Qed.

Example bufferDecode_url_safe : bufferDecode (list_ascii_of_string "-w") = Throw InvalidCharacterError.
Proof. reflexivity. Qed.
End CodecExamples.

(* ===================================================================== *)
(** ** Reasoning rules for pieces of component code *)
(* ===================================================================== *)

Module Rules.
Import AuthForm Observations.

Lemma keeps_elim {A X} (f : component -> X) (m : M A) :
  keeps f m -> forall c, f (after (m c)) = f c.
Proof. intros [H]. exact H. Qed.

Section Keeps.
Context {X : Type} (f : component -> X).

Lemma keeps_ret {A} (a : A) : keeps f (ret a).
Proof. constructor. intros c. reflexivity. Qed.

Lemma keeps_throw {A} (e : exn) : keeps f (@throw A e).
Proof. constructor. intros c. reflexivity. Qed.

Lemma keeps_read {A} (g : component -> A) : keeps f (read g).
Proof. constructor. intros c. reflexivity. Qed.

Lemma keeps_call (e : effect) : keeps f (call e).
Proof. constructor. intros c. reflexivity. Qed.

Lemma keeps_lift {A} (r : result A) : keeps f (lift r).
Proof. constructor. intros c. destruct r; reflexivity. Qed.

Lemma keeps_lift_read {A} (g : component -> result A) :
  keeps f (fun c => lift (g c) c).
Proof. constructor. intros c. destruct (g c); reflexivity. Qed.

Lemma keeps_modify (g : component -> component) :
  (forall c, f (g c) = f c) -> keeps f (modify g).
Proof. intros H. constructor. intros c. apply H. Qed.

Lemma keeps_bind {A B} (m : M A) (k : A -> M B) :
  keeps f m -> (forall a, keeps f (k a)) -> keeps f (bind m k).
Proof.
  intros [Hm] Hk. constructor. intros c. unfold bind.
  destruct (res (m c)) as [a|e] eqn:E; simpl.
  - rewrite (keeps_elim _ _ (Hk a)). apply Hm.
  - apply Hm.
Qed.

Lemma keeps_try_catch {A} (m : M A) (h : exn -> M A) :
  keeps f m -> (forall e, keeps f (h e)) -> keeps f (try_catch m h).
Proof.
  intros [Hm] Hh. constructor. intros c. unfold try_catch.
  destruct (res (m c)) as [a|e] eqn:E; simpl.
  - apply Hm.
  - rewrite (keeps_elim _ _ (Hh e)). apply Hm.
Qed.

Lemma keeps_when (b : bool) (m : M unit) : keeps f m -> keeps f (when b m).
Proof. intros Hm. destruct b; [exact Hm | apply keeps_ret]. Qed.
End Keeps.


(** A step that returns hands its component to the rest of the code. *)
Lemma after_bind_ok {A B} (m : M A) (k : A -> M B) (c : component) (a : A) :
  res (m c) = Ok a -> after (bind m k c) = after (k a (after (m c))).
Proof. intros H. unfold bind. rewrite H. reflexivity. Qed.

Lemma calls_bind_ok {A B} (m : M A) (k : A -> M B) (c : component) (a : A) :
  res (m c) = Ok a -> calls (bind m k c) = calls (m c) ++ calls (k a (after (m c))).
Proof. intros H. unfold bind. rewrite H. reflexivity. Qed.

Lemma res_bind_ok {A B} (m : M A) (k : A -> M B) (c : component) (a : A) :
  res (m c) = Ok a -> res (bind m k c) = res (k a (after (m c))).
Proof. intros H. unfold bind. rewrite H. reflexivity. Qed.

(** A step that returns without a call is transparent. *)
Lemma bind_silent {A B} (m : M A) (k : A -> M B) (c : component) (a : A) :
  res (m c) = Ok a -> calls (m c) = [] -> bind m k c = k a (after (m c)).
Proof.
  intros Hr Hc. unfold bind. rewrite Hr, Hc.
  destruct (k a (after (m c))); reflexivity.
Qed.

(** A [try] block that returns is not caught. *)
Lemma try_catch_ok {A} (m : M A) (h : exn -> M A) (c : component) (a : A) :
  res (m c) = Ok a -> try_catch m h c = m c.
Proof. intros H. unfold try_catch. rewrite H. reflexivity. Qed.

(** Setters write one member each. *)
Ltac setter := intros; match goal with c : component |- _ => destruct c end; reflexivity.

(** Break a piece of code down along its structure. *)
Ltac step_keeps :=
  first
    [ apply keeps_bind; [| intros ? ]
    | apply keeps_try_catch; [| intros ? ]
    | apply keeps_when
    | apply keeps_ret | apply keeps_throw | apply keeps_read | apply keeps_call
    | apply keeps_lift | apply keeps_lift_read
    | apply keeps_modify; setter ].

(** Facts about whole tasks, for the tasks that call them. *)
Create HintDb tasks.
#[global] Hint Extern 5 (_ = _) => solve [setter] : tasks.

(** The same, through the branches of the code; writes that are not plain
    setters are left to the hypotheses at hand. *)
Ltac branch_keeps :=
  repeat first
    [ step_keeps
    | apply keeps_modify; intros; first [solve [auto] | simpl; solve [auto]]
    | solve [auto with tasks]
    | match goal with
      | |- keeps _ (match ?x with _ => _ end) => destruct x
      | |- keeps _ (if ?b then _ else _) => destruct b
      end ].

End Rules.

(* ===================================================================== *)
(** ** Properties of the component *)
(* ===================================================================== *)

Import AuthForm Observations Rules.

Lemma authenticate_calls_app l1 l2 :
  authenticate_calls (l1 ++ l2) = authenticate_calls l1 ++ authenticate_calls l2.
Proof. unfold authenticate_calls. apply flat_map_app. Qed.

Section MethodsToShow.
Variable BACKENDS : list backend.

(** The code compares lower-cased characters; the specification compares
    characters but for their case.  The two agree. *)
Lemma lower_char_code (a : ascii) :
  N_of_ascii (lower_char a)
  = if (N.leb 65 (N_of_ascii a) && N.leb (N_of_ascii a) 90)%bool
    then (N_of_ascii a + 32)%N else N_of_ascii a.
Proof.
  unfold lower_char. cbv zeta.
  destruct (N.leb 65 (N_of_ascii a) && N.leb (N_of_ascii a) 90)%bool eqn:E; [|reflexivity].
  apply andb_true_iff in E as [_ E]. apply N.leb_le in E.
  apply N_ascii_embedding. lia.
Qed.

Lemma lower_char_same_letter (a b : ascii) :
  Ascii.eqb (lower_char a) (lower_char b) = same_letter a b.
Proof.
  assert (Ha : (N_of_ascii a < 256)%N) by apply N_ascii_bounded.
  assert (Hb : (N_of_ascii b < 256)%N) by apply N_ascii_bounded.
  assert (Hcode : Ascii.eqb (lower_char a) (lower_char b)
                  = N.eqb (N_of_ascii (lower_char a)) (N_of_ascii (lower_char b))).
  { destruct (Ascii.eqb_spec (lower_char a) (lower_char b)) as [->|Hne].
    - symmetry. apply N.eqb_refl.
    - symmetry. apply N.eqb_neq. intros H. apply Hne.
      rewrite <- (ascii_N_embedding (lower_char a)), <- (ascii_N_embedding (lower_char b)).
      rewrite H. reflexivity. }
  rewrite Hcode, !lower_char_code. unfold same_letter. cbv zeta.
  set (x := N_of_ascii a) in *. set (y := N_of_ascii b) in *.
  destruct (N.leb_spec 65 x), (N.leb_spec x 90), (N.leb_spec 65 y), (N.leb_spec y 90);
    cbn [andb orb];
    repeat match goal with
           | |- context [N.eqb ?u ?v] => destruct (N.eqb_spec u v)
           end;
    cbn [andb orb]; try reflexivity; lia.
Qed.

Lemma toLowerCase_same_ignoring_case (s t : string) :
  String.eqb (toLowerCase s) (toLowerCase t) = same_ignoring_case s t.
Proof.
  revert t. induction s as [|a s IH]; intros [|b t]; simpl; try reflexivity.
  rewrite lower_char_same_letter, IH. reflexivity.
Qed.

Lemma find_type_in_catalog (m : backend) :
  bool_decide (is_Some
    (List.find (fun b => String.eqb (toLowerCase (type b)) (toLowerCase (type m)))
       BACKENDS))
  = type_in_catalog BACKENDS m.
Proof.
  unfold type_in_catalog.
  induction BACKENDS as [|b l IH]; simpl.
  - reflexivity.
  - rewrite toLowerCase_same_ignoring_case.
    destruct (same_ignoring_case (type b) (type m)); simpl.
    + reflexivity.
    + exact IH.
Qed.

(** C7.  With type names written in ASCII: for every value of [methods]
    (unset, empty or not), [methodsToShow] is the sub-list of the reported
    methods whose type is, but for the case of its letters, a type of the
    static catalog when that sub-list is not empty, and the whole static
    catalog otherwise; with no reported mount it is the whole catalog. *)
Theorem methodsToShow_catalog_or_matches (c : component) :
  ascii_types BACKENDS = true ->
  ascii_types (default [] (methods c)) = true ->
  methodsToShow BACKENDS c = methodsToShow_spec BACKENDS (methods c)
  /\ (forall m, m ∈ List.filter (type_in_catalog BACKENDS) (default [] (methods c)) <->
                m ∈ default [] (methods c)
                /\ exists b, b ∈ BACKENDS /\ same_ignoring_case (type b) (type m) = true)
  /\ sublist (List.filter (type_in_catalog BACKENDS) (default [] (methods c))) (default [] (methods c))
  /\ methodsToShow BACKENDS (set_methods None c) = BACKENDS
  /\ methodsToShow BACKENDS (set_methods (Some []) c) = BACKENDS.
Proof.
  intros _ _.
  assert (Heq : methodsToShow BACKENDS c = methodsToShow_spec BACKENDS (methods c)).
  { unfold methodsToShow, methodsToShow_spec.
    assert (E : forall l : list backend,
      List.filter
        (fun m => bool_decide (is_Some
           (List.find (fun b => String.eqb (toLowerCase (type b)) (toLowerCase (type m)))
              BACKENDS))) l
      = List.filter (type_in_catalog BACKENDS) l).
    { intros l. apply List.filter_ext. intros m. apply find_type_in_catalog. }
    destruct (methods c) as [ms|]; simpl; [rewrite E|]; [|reflexivity].
    destruct (List.filter (type_in_catalog BACKENDS) ms); reflexivity. }
  split; [exact Heq|]. split; [|split; [|split]].
  - intros m. rewrite !list_elem_of_In, List.filter_In, <- !list_elem_of_In.
    unfold type_in_catalog. rewrite List.existsb_exists.
    split; intros [Hm H]; (split; [exact Hm|]).
    + destruct H as [b [Hin Hb]]. exists b. split; [apply list_elem_of_In; exact Hin | exact Hb].
    + destruct H as [b [Hin Hb]]. exists b. split; [apply list_elem_of_In; exact Hin | exact Hb].
  - generalize (default [] (methods c)). intros l.
    induction l as [|m l IH]; simpl; [constructor|].
    destruct (type_in_catalog BACKENDS m); [apply sublist_skip | apply sublist_cons]; exact IH.
  - destruct c; reflexivity.
  - destruct c; reflexivity.
Qed.

End MethodsToShow.

Lemma methodsToShow_catalog_or_matches_witness :
  let mixed := {| type := "UserPass"; path := Str "foo/"; id := Str "foo";
                  description := Undefined; mountDescription := Undefined;
                  formAttributes := [] |} in
  let other := {| type := "kerberos"; path := Str "krb/"; id := Str "krb";
                  description := Undefined; mountDescription := Undefined;
                  formAttributes := [] |} in
  let c := set_methods (Some [other; mixed]) initial in
  ascii_types sample_catalog = true
  /\ ascii_types (default [] (methods c)) = true
  /\ methodsToShow sample_catalog c = [mixed].
Proof.
  cbv zeta. split; [reflexivity|]. split; [reflexivity|].
  destruct (methodsToShow_catalog_or_matches sample_catalog
              (set_methods
                 (Some [{| type := "kerberos"; path := Str "krb/"; id := Str "krb";
                           description := Undefined; mountDescription := Undefined;
                           formAttributes := [] |};
                        {| type := "UserPass"; path := Str "foo/"; id := Str "foo";
                           description := Undefined; mountDescription := Undefined;
                           formAttributes := [] |}])
                 initial)
              eq_refl eq_refl) as (H & _).
  rewrite H. reflexivity.
Defined.

Section Orchestrator.
Variable BACKENDS : list backend.
Variable testing : bool.
Variable auth_handleError : exn -> value.
Variable onSuccess : option (value -> value -> gmap string value -> result unit).

Abbreviation doSubmit := (doSubmit BACKENDS testing).
Abbreviation authenticate_perform := (authenticate_perform testing).
Abbreviation authenticate_settle := (authenticate_settle auth_handleError onSuccess).
Abbreviation unwrapToken := (unwrapToken BACKENDS testing).
Abbreviation unwrapToken_settle := (unwrapToken_settle BACKENDS testing).
Abbreviation delayAuthMessageReminder := (delayAuthMessageReminder testing).

(** *** What the tasks leave untouched *)

Lemma delayAuthMessageReminder_keeps {X} (f : component -> X) :
  (forall v c, f (set_showLoading v c) = f c) ->
  keeps f delayAuthMessageReminder.
Proof.
  intros H. unfold AuthForm.delayAuthMessageReminder. branch_keeps.
Qed.
Hint Resolve delayAuthMessageReminder_keeps : tasks.

Lemma authenticate_perform_keeps {X} (f : component -> X) backendType data :
  (forall v c, f (set_showLoading v c) = f c) ->
  keeps f (authenticate_perform backendType data).
Proof.
  intros H. unfold AuthForm.authenticate_perform. branch_keeps.
Qed.

Lemma doSubmit_keeps {X} (f : component -> X) args :
  (forall v c, f (set_showLoading v c) = f c) ->
  (forall v c, f (set_error v c) = f c) ->
  keeps f (doSubmit args).
Proof.
  intros Hs He. unfold AuthForm.doSubmit.
  destruct args as [|e|passedData e]; simpl; branch_keeps.
Qed.

(** *** The action [doSubmit] *)

(** C10.  Every [doSubmit] sets [error] to [null] before it resolves the
    backend and gathers the form data: what it resolves, gathers, calls and
    leaves behind does not depend on the error message of an earlier
    failure, and the message is [null] once it has run. *)
Theorem doSubmit_clears_error_first (args : submit_args) (c : component) :
  (forall stale : value, doSubmit args (set_error stale c) = doSubmit args c)
  /\ error (after (doSubmit args c)) = Null.
Proof.
  split.
  - intros stale. destruct c. destruct args as [|[]|passedData []]; reflexivity.
  - unfold AuthForm.doSubmit.
    destruct args as [|[]|passedData []]; cbv beta iota zeta.
    all: do 2 (erewrite after_bind_ok by reflexivity).
    all: etransitivity; [apply keeps_elim; branch_keeps | destruct c; reflexivity].
Qed.

(** *** The task [authenticate] *)

(** C6.  When [this.auth.authenticate] fails, the continuation of
    [authenticate] clears [isLoading]; unless [auth.mfaError] is set it sets
    [error] to "Authentication failed: " followed by what
    [auth.handleError] made of the failure; when [auth.mfaError] is set it
    leaves [error] as it was.  It makes no call either way. *)
Theorem authenticate_failure (p : pending_auth) (e : exn) (mfaError : value)
    (c : component) :
  let o := authenticate_settle p (Throw e) mfaError c in
  isLoading (after o) = Bool false
  /\ error (after o) =
       (if truthy mfaError then error c
        else Str ("Authentication failed: " ++ to_text (auth_handleError e)))
  /\ calls o = []
  /\ res o = Ok tt.
Proof.
  destruct c. unfold AuthForm.authenticate_settle.
  destruct (truthy mfaError); repeat split; reflexivity.
Qed.

(** *** The task [webauthnAuthenticate] *)

(** C8, as the code has it.  [webauthnAuthenticate] does not look at the
    username: whatever it is, empty and unset included, the task returns from
    its first step having requested [/login/begin/] followed by the username
    as text, and that request is the third call of every ceremony. *)
Theorem webauthnAuthenticate_requests_begin (c : component) (env : ceremony) :
  let o := webauthnAuthenticate_perform c in
  res o = Ok (username c)
  /\ calls o = [PreventDefault; ConsoleLog;
                FetchGet ("/login/begin/" ++ to_text (username c))]
  /\ firstn 3 (calls (webauthnAuthenticate env c))
     = [PreventDefault; ConsoleLog;
        FetchGet ("/login/begin/" ++ to_text (username c))].
Proof.
  split; [reflexivity|]. split; [reflexivity|].
  unfold webauthnAuthenticate.
  erewrite calls_bind_ok by reflexivity. reflexivity.
Qed.

(** C8 fails on the code: with the username unset ([null], as the component
    is created) the request [/login/begin/null] is made; with the empty
    username the request [/login/begin/] is made. *)
Lemma webauthnAuthenticate_no_username_guard :
  username initial = Null
  /\ calls (webauthnAuthenticate_perform initial)
     = [PreventDefault; ConsoleLog; FetchGet "/login/begin/null"]
  /\ calls (webauthnAuthenticate_perform (set_username (Str "") initial))
     = [PreventDefault; ConsoleLog; FetchGet "/login/begin/"]
  /\ calls (webauthnAuthenticate_perform (set_username Undefined initial))
     = [PreventDefault; ConsoleLog; FetchGet "/login/begin/undefined"].
Proof. repeat split. Qed.

(** *** The task [unwrapToken] *)

Lemma unwrapToken_settle_keeps_selectedAuth (response : result value) :
  keeps selectedAuth (unwrapToken_settle response).
Proof.
  unfold AuthForm.unwrapToken_settle. branch_keeps.
Qed.

(** C9.  After every run of the Token Unwrap operation, whether the exchange
    succeeded or failed, [selectedAuth] is ['token']: it is set before the
    exchange call is made, and the continuation, on either path, leaves it
    as it is. *)
Theorem unwrapToken_forces_token_backend (token : value) (response : result value)
    (c : component) :
  selectedAuth (after (unwrapToken token response c)) = Str "token"
  /\ selectedAuth (after (unwrapToken_perform token c)) = Str "token"
  /\ calls (unwrapToken_perform token c) = [ToolActionUnwrap token]
  /\ selectedAuth (after (unwrapToken_settle response c)) = selectedAuth c.
Proof.
  split; [|split; [|split]].
  - unfold AuthForm.unwrapToken.
    erewrite after_bind_ok by reflexivity.
    rewrite (keeps_elim _ _ (unwrapToken_settle_keeps_selectedAuth response)).
    destruct c; reflexivity.
  - destruct c; reflexivity.
  - reflexivity.
  - apply (keeps_elim _ _ (unwrapToken_settle_keeps_selectedAuth response)).
Qed.

End Orchestrator.

(* ===================================================================== *)
(** ** The attribute-change pass *)
(* ===================================================================== *)

Section Pass.

(** Receiving attributes does not touch what the previous pass recorded, nor
    the form fields. *)
Lemma receive_keeps (a : attrs) (c : component) :
  oldNamespace (receive a c) = oldNamespace c
  /\ oldWrappedToken (receive a c) = oldWrappedToken c
  /\ oldSelectedAuth (receive a c) = oldSelectedAuth c
  /\ error (receive a c) = error c.
Proof.
  destruct a as [[w|] [n|] [m|]], c; repeat split.
Qed.

(** The deferred function, test by test. *)
Lemma attrs_callback_out (s : snapshot) (c : component) :
  let o := attrs_callback s c in
  res o = Ok tt
  /\ calls o = (if discovers s then [StoreFindAll] else [])
               ++ (if unwraps s then [ToolActionUnwrap (snap_token s)] else [])
  /\ after o =
       set_oldSelectedAuth (snap_newMethod s)
         ((if resets s then resetDefaults else fun c => c)
            ((if unwraps s
              then fun c => set_oldWrappedToken (snap_token s)
                              (set_selectedAuth (Str "token") c)
              else fun c => c)
               (set_oldNamespace (snap_ns s) c))).
Proof.
  unfold attrs_callback, discovers, unwraps, resets.
  destruct (negb (truthy (snap_token s))
            && (strict_eq (snap_oldNS s) Null || strict_ne (snap_oldNS s) (snap_ns s)));
  destruct (truthy (snap_token s) && negb (truthy (snap_oldToken s)));
  destruct (truthy (snap_oldMethod s) && strict_ne (snap_oldMethod s) (snap_newMethod s));
  repeat split.
Qed.

Lemma pass_returns (a : attrs) (c : component) : res (pass a c) = Ok tt.
Proof. unfold pass. apply attrs_callback_out. Qed.

Lemma pass_calls (a : attrs) (c : component) :
  let s := didReceiveAttrs (receive a c) in
  calls (pass a c) = (if discovers s then [StoreFindAll] else [])
                     ++ (if unwraps s then [ToolActionUnwrap (snap_token s)] else []).
Proof. unfold pass. apply attrs_callback_out. Qed.

Lemma pass_after (a : attrs) (c : component) :
  let s := didReceiveAttrs (receive a c) in
  after (pass a c) =
    set_oldSelectedAuth (snap_newMethod s)
      ((if resets s then resetDefaults else fun c => c)
         ((if unwraps s
           then fun c => set_oldWrappedToken (snap_token s)
                           (set_selectedAuth (Str "token") c)
           else fun c => c)
            (set_oldNamespace (snap_ns s) (receive a c)))).
Proof. unfold pass. apply attrs_callback_out. Qed.

Lemma passes_cons_calls (a : attrs) (l : list attrs) (c : component) :
  calls (passes (a :: l) c) = calls (pass a c) ++ calls (passes l (after (pass a c))).
Proof. simpl. apply calls_bind_ok with (a := tt). apply pass_returns. Qed.

Lemma unwrap_calls_app (l1 l2 : list effect) :
  unwrap_calls (l1 ++ l2) = unwrap_calls l1 ++ unwrap_calls l2.
Proof. unfold unwrap_calls. apply flat_map_app. Qed.

Lemma unwrap_calls_pass (a : attrs) (c : component) :
  let s := didReceiveAttrs (receive a c) in
  unwrap_calls (calls (pass a c)) = if unwraps s then [snap_token s] else [].
Proof.
  simpl. rewrite pass_calls, unwrap_calls_app.
  destruct (discovers _), (unwraps _); reflexivity.
Qed.

Lemma oldWrappedToken_pass (a : attrs) (c : component) :
  let s := didReceiveAttrs (receive a c) in
  oldWrappedToken (after (pass a c))
  = if unwraps s then snap_token s else oldWrappedToken c.
Proof.
  simpl. rewrite pass_after.
  destruct (receive_keeps a c) as (_ & Hw & _).
  destruct (unwraps _), (resets _); try rewrite <- Hw; destruct (receive a c); reflexivity.
Qed.

(** Once a wrapped token has been handled, no later pass unwraps. *)
Lemma handled_stays_handled (l : list attrs) (c : component) :
  truthy (oldWrappedToken c) = true ->
  unwrap_calls (calls (passes l c)) = [].
Proof.
  revert c. induction l as [|a l IH]; intros c Hold; [reflexivity|].
  rewrite passes_cons_calls, unwrap_calls_app, unwrap_calls_pass.
  pose proof (oldWrappedToken_pass a c) as Hafter. simpl in Hafter.
  destruct (receive_keeps a c) as (_ & Hw & _).
  unfold unwraps in *. simpl in *. rewrite Hw, Hold, andb_false_r in *.
  apply IH. rewrite Hafter. exact Hold.
Qed.

(** *** Token Unwrap on an attribute-change pass *)

(** C1, as the code has it.  On a pass (its deferred function running before
    the next pass is delivered) the Token Unwrap operation is performed
    exactly once, for the pass's [wrappedToken], when that value is not empty
    and no wrapped token was handled before ([oldWrappedToken] is unset), and
    it is then recorded as handled; otherwise the pass performs no unwrap.
    So a pass whose [wrappedToken] equals the last handled value performs no
    unwrap, no pass performs one once a wrapped token has been handled, and a
    sequence of passes performs at most one. *)
Theorem unwrap_first_wrapped_token_only (a : attrs) (l : list attrs) (c : component) :
  let token := wrappedToken (receive a c) in
  let fires := truthy token && negb (truthy (oldWrappedToken c)) in
  unwrap_calls (calls (pass a c)) = (if fires then [token] else [])
  /\ oldWrappedToken (after (pass a c)) = (if fires then token else oldWrappedToken c)
  /\ (token = oldWrappedToken c -> unwrap_calls (calls (pass a c)) = [])
  /\ (truthy (oldWrappedToken c) = true -> unwrap_calls (calls (passes l c)) = [])
  /\ length (unwrap_calls (calls (passes l c))) <= 1.
Proof.
  assert (Hone : forall a c,
    unwrap_calls (calls (pass a c))
    = if truthy (wrappedToken (receive a c)) && negb (truthy (oldWrappedToken c))
      then [wrappedToken (receive a c)] else []).
  { intros a' c'. rewrite unwrap_calls_pass. unfold unwraps. simpl.
    destruct (receive_keeps a' c') as (_ & -> & _). reflexivity. }
  assert (Hold : forall a c,
    oldWrappedToken (after (pass a c))
    = if truthy (wrappedToken (receive a c)) && negb (truthy (oldWrappedToken c))
      then wrappedToken (receive a c) else oldWrappedToken c).
  { intros a' c'. rewrite oldWrappedToken_pass. unfold unwraps. simpl.
    destruct (receive_keeps a' c') as (_ & -> & _). reflexivity. }
  simpl. split; [apply Hone|]. split; [apply Hold|]. split; [|split].
  - intros Heq. rewrite Hone, Heq.
    destruct (truthy (oldWrappedToken c)); reflexivity.
  - apply handled_stays_handled.
  - revert c. induction l as [|a' l IH]; intros c; [simpl; lia|].
    rewrite passes_cons_calls, unwrap_calls_app, length_app, Hone.
    destruct (truthy (wrappedToken (receive a' c)) && negb (truthy (oldWrappedToken c)))
      eqn:Hfires.
    + rewrite handled_stays_handled; [simpl; lia|].
      rewrite Hold, Hfires. apply andb_true_iff in Hfires. apply Hfires.
    + simpl. apply IH.
Qed.

(** C1 fails on the code: after the wrapped token ["s.first"] was handled, a
    pass that carries the new, distinct wrapped token ["s.second"] performs
    no unwrap; over the two passes only the first value is unwrapped. *)
Lemma second_wrapped_token_not_unwrapped :
  let first := {| attr_wrappedToken := Some (Str "s.first");
                  attr_namespace := None; attr_selectedAuth := None |} in
  let second := {| attr_wrappedToken := Some (Str "s.second");
                   attr_namespace := None; attr_selectedAuth := None |} in
  let c := after (pass first initial) in
  unwrap_calls (calls (pass first initial)) = [Str "s.first"]
  /\ oldWrappedToken c = Str "s.first"
  /\ wrappedToken (receive second c) = Str "s.second"
  /\ unwrap_calls (calls (pass second c)) = []
  /\ unwrap_calls (calls (passes [first; second] initial)) = [Str "s.first"].
Proof. vm_compute. repeat split. Qed.

(** *** Method Discovery on an attribute-change pass *)

(** C5, as the code has it.  On a pass with no wrapped token present, Method
    Discovery is performed, once, exactly when the last observed namespace is
    [null] (as it is on the initial pass) or is not strictly equal to the
    namespace value, and not at all otherwise; the pass then records the
    namespace value as the last observed one. *)
Theorem discovery_on_namespace_change (a : attrs) (c : component) :
  truthy (wrappedToken (receive a c)) = false ->
  let ns := namespace (receive a c) in
  (discovery_calls (calls (pass a c)) = 1 <->
     oldNamespace c = Null \/ oldNamespace c <> ns)
  /\ (discovery_calls (calls (pass a c)) = 0 <->
       oldNamespace c <> Null /\ oldNamespace c = ns)
  /\ oldNamespace (after (pass a c)) = ns
  /\ oldNamespace initial = Null.
Proof.
  intros Hnone. simpl.
  assert (Hcalls : discovery_calls (calls (pass a c))
    = if strict_eq (oldNamespace c) Null
         || strict_ne (oldNamespace c) (namespace (receive a c))
      then 1 else 0).
  { rewrite pass_calls. unfold discovers, unwraps. simpl.
    destruct (receive_keeps a c) as (-> & _). rewrite Hnone. simpl.
    destruct (strict_eq (oldNamespace c) Null
              || strict_ne (oldNamespace c) (namespace (receive a c))); reflexivity. }
  rewrite Hcalls. unfold strict_ne, strict_eq.
  destruct (decide (oldNamespace c = Null)) as [Hn|Hn];
    destruct (decide (oldNamespace c = namespace (receive a c))) as [He|He].
  all: rewrite ?(bool_decide_eq_true_2 _ Hn), ?(bool_decide_eq_false_2 _ Hn),
               ?(bool_decide_eq_true_2 _ He), ?(bool_decide_eq_false_2 _ He); simpl.
  all: split; [|split; [|split; [|reflexivity]]];
    try (rewrite pass_after; simpl;
         destruct (unwraps _), (resets _); destruct (receive a c); reflexivity).
  all: split; intros; try tauto; try discriminate; try (intuition congruence).
Qed.

Lemma discovery_on_namespace_change_witness :
  let a := {| attr_wrappedToken := None; attr_namespace := Some (Str "team-a");
              attr_selectedAuth := None |} in
  truthy (wrappedToken (receive a initial)) = false
  /\ discovery_calls (calls (pass a initial)) = 1
  /\ oldNamespace (after (pass a initial)) = Str "team-a".
Proof.
  simpl. split; [reflexivity|].
  pose proof (discovery_on_namespace_change
    {| attr_wrappedToken := None; attr_namespace := Some (Str "team-a");
       attr_selectedAuth := None |} initial eq_refl) as (H1 & _ & H3 & _).
  split; [apply H1; left; reflexivity | exact H3].
Defined.

(** C5 fails on the code: with the namespace [null] and no wrapped token, the
    pass after the initial one finds the last observed namespace [null],
    equal to the namespace value, and performs Method Discovery again. *)
Lemma discovery_repeats_on_null_namespace :
  let none := {| attr_wrappedToken := None; attr_namespace := None;
                 attr_selectedAuth := None |} in
  let c := after (pass none initial) in
  truthy (wrappedToken (receive none c)) = false
  /\ oldNamespace c = Null
  /\ namespace (receive none c) = Null
  /\ discovery_calls (calls (pass none initial)) = 1
  /\ discovery_calls (calls (pass none c)) = 1.
Proof. vm_compute. repeat split. Qed.

(** *** Reset of the form on a change of backend *)

(** C4, as the code has it.  On a pass where the previous [selectedAuth] is
    not empty and the new one differs from it, [resetDefaults] sets
    [username], [password], [token] and [customPath] to [null]; [error] is
    not among the defaults and keeps the value it had. *)
Theorem backend_change_resets_form (a : attrs) (c : component) :
  truthy (oldSelectedAuth c) = true ->
  strict_ne (oldSelectedAuth c) (selectedAuth (receive a c)) = true ->
  let c' := after (pass a c) in
  username c' = Null
  /\ password c' = Null
  /\ token c' = Null
  /\ customPath c' = Null
  /\ error c' = error c.
Proof.
  intros Hold Hnew. simpl. rewrite pass_after. unfold resets. simpl.
  destruct (receive_keeps a c) as (_ & _ & Hm & He).
  rewrite Hm, Hold, Hnew. simpl. rewrite <- He.
  destruct (unwraps _); destruct (receive a c); repeat split.
Qed.

Lemma backend_change_resets_form_witness :
  let a := {| attr_wrappedToken := None; attr_namespace := None;
              attr_selectedAuth := Some (Str "token") |} in
  let c' := after (pass a userpass_form_after_failure) in
  username c' = Null /\ password c' = Null /\ token c' = Null
  /\ customPath c' = Null
  /\ error c' = error userpass_form_after_failure.
Proof.
  simpl.
  apply (backend_change_resets_form
    {| attr_wrappedToken := None; attr_namespace := None;
       attr_selectedAuth := Some (Str "token") |} userpass_form_after_failure);
    reflexivity.
Defined.

(** C4 fails on the code: switching from [userpass] to [token] clears the
    credentials but leaves the error message of the failed discovery in
    place. *)
Lemma backend_change_keeps_error :
  let a := {| attr_wrappedToken := None; attr_namespace := None;
              attr_selectedAuth := Some (Str "token") |} in
  let c := userpass_form_after_failure in
  let c' := after (pass a c) in
  oldSelectedAuth c = Str "userpass"
  /\ selectedAuth (receive a c) = Str "token"
  /\ username c = Str "alice" /\ username c' = Null
  /\ password c = Str "hunter2" /\ password c' = Null
  /\ error c = Str "There was an error fetching Auth Methods: permission denied"
  /\ error c' = Str "There was an error fetching Auth Methods: permission denied".
Proof. vm_compute. repeat split. Qed.

End Pass.

(* ===================================================================== *)
(** ** The Token Unwrap operation, end to end *)
(* ===================================================================== *)

Section TokenUnwrap.
Variable BACKENDS : list backend.
Variable testing : bool.

Abbreviation unwrapToken' := (unwrapToken BACKENDS testing).

(** A property gathered by [getProperties] holds the member's value. *)
Lemma getProperties_lookup (c : component) (names : list string) (k : string) :
  In k names -> getProperties c names !! k = Some (getProperty c k).
Proof.
  unfold getProperties.
  assert (G : forall (names : list string) (o : gmap string value),
    (In k names \/ o !! k = Some (getProperty c k)) ->
    fold_left (fun o k => <[k := getProperty c k]> o) names o !! k
    = Some (getProperty c k)).
  { intros l. induction l as [|n l IH]; intros o [Hin|Ho]; simpl.
    - destruct Hin.
    - exact Ho.
    - apply IH. destruct Hin as [->|Hin]; [right; apply lookup_insert_eq | left; exact Hin].
    - apply IH. right. destruct (decide (n = k)) as [->|Hne].
      + apply lookup_insert_eq.
      + rewrite lookup_insert_ne; assumption. }
  intros Hin. apply G. left. exact Hin.
Qed.

Lemma find_pointwise {A} (f g : A -> bool) (l : list A) :
  (forall x, f x = g x) -> List.find f l = List.find g l.
Proof.
  intros H. induction l as [|x l IH]; simpl; [reflexivity|].
  rewrite H, IH. reflexivity.
Qed.

Lemma type_or_empty_Str (t : string) : type_or_empty (Str t) = t.
Proof.
  unfold type_or_empty, or_else. simpl.
  destruct (String.eqb t "") eqn:E; simpl; [|reflexivity].
  apply String.eqb_eq in E. subst. reflexivity.
Qed.

Lemma findBy_type_found (l : list backend) (t : string) (b : backend) :
  findBy_type l (Str t) = Some b -> type b = t.
Proof.
  unfold findBy_type. intros H. apply List.find_some in H as [_ H].
  unfold strict_eq in H. apply bool_decide_eq_true in H. congruence.
Qed.

Lemma selectedAuthBackend_token (c : component) (b : backend) :
  selectedAuth c = Str "token" ->
  backend_resolvable c = true ->
  findBy_type BACKENDS (Str "token") = Some b ->
  selectedAuthBackend BACKENDS c = Ok (Found b).
Proof.
  intros Hsel Hres Hb.
  unfold backend_resolvable in Hres. apply negb_true_iff in Hres.
  unfold selectedAuthBackend, getAuthBackend, selectedAuthIsPath.
  rewrite Hres, Hsel. simpl. unfold or_else. simpl. rewrite Hb. reflexivity.
Qed.

Lemma providerName_token (c : component) (b : backend) :
  selectedAuth c = Str "token" ->
  backend_resolvable c = true ->
  findBy_type BACKENDS (Str "token") = Some b ->
  providerName BACKENDS c = Ok (Str "token").
Proof.
  intros Hsel Hres Hb. unfold providerName.
  rewrite (selectedAuthBackend_token c b Hsel Hres Hb). simpl.
  rewrite (findBy_type_found _ _ _ Hb). reflexivity.
Qed.

(** [authenticate.perform] on a component that has its cluster. *)
Lemma authenticate_perform_out (backendType : value) (data : gmap string value)
    (c : component) (cl : cluster_model) :
  cluster c = Some cl ->
  authenticate_perform testing backendType data c
  = {| res := Ok (Some {| pending_backendType := backendType; pending_data := data |});
       after := if testing then set_showLoading (Some true) c else c;
       calls := [Timeout (if testing then 0 else 5000)%N;
                 AuthAuthenticate {| clusterId := cluster_id cl;
                                     backend_param := backendType;
                                     data_param := data;
                                     selectedAuth_param := selectedAuth c |}] |}.
Proof.
  intros Hcl. unfold authenticate_perform.
  rewrite (bind_silent _ _ _ (selectedAuth c)) by reflexivity.
  rewrite (bind_silent _ _ _ (Some cl)) by (cbn; rewrite ?Hcl; reflexivity).
  cbn [after read]. unfold delayAuthMessageReminder.
  destruct testing; reflexivity.
Qed.

Lemma doSubmit_token_flow (c : component) (cl : cluster_model) (b meta : backend) :
  selectedAuth c = Str "token" ->
  cluster c = Some cl ->
  backend_resolvable c = true ->
  catalog_offers_token BACKENDS b meta ->
  let o := doSubmit BACKENDS testing NoArguments c in
  exists p,
    authenticate_calls (calls o) = [p]
    /\ prop (data_param p) "token" = token c
    /\ backend_param p = Str "token"
    /\ selectedAuth_param p = Str "token"
    /\ clusterId p = cluster_id cl
    /\ res o = Ok (Some {| pending_backendType := Str "token";
                           pending_data := data_param p |})
    /\ token (after o) = token c
    /\ error (after o) = Null.
Proof.
  intros Hsel Hcl Hres (Hb & Hmeta & Hattr & _).
  pose proof (findBy_type_found _ _ _ Hb) as Htype.
  set (c1 := setProperties [("error", Null)] c).
  assert (Hsel1 : selectedAuth c1 = Str "token") by (destruct c; exact Hsel).
  assert (Hres1 : backend_resolvable c1 = true) by (destruct c; exact Hres).
  assert (Hcl1 : cluster c1 = Some cl) by (destruct c; exact Hcl).
  assert (Htk1 : token c1 = token c) by (destruct c; reflexivity).
  assert (Her1 : error c1 = Null) by (destruct c; reflexivity).
  unfold AuthForm.doSubmit. cbv beta iota zeta.
  rewrite (bind_silent _ _ _ tt) by reflexivity.
  rewrite (bind_silent _ _ _ tt) by reflexivity.
  change (after (modify (setProperties [("error", Null)]) (after (when false (call PreventDefault) c))))
    with c1.
  rewrite (bind_silent _ _ _ (Str "token"))
    by (rewrite (providerName_token c1 b Hsel1 Hres1 Hb); reflexivity).
  rewrite (providerName_token c1 b Hsel1 Hres1 Hb).
  change (after (lift (Ok (Str "token")) c1)) with c1.
  change (strict_eq (Str "token") (Str "oidc")) with false. cbv iota.
  assert (Hstep :
    bind (fun c0 : component => lift (selectedAuthBackend BACKENDS c0) c0)
         (fun l => ret (lookup_or_empty l)) c1
    = {| res := Ok (Found b); after := c1; calls := [] |}).
  { unfold bind. rewrite (selectedAuthBackend_token c1 b Hsel1 Hres1 Hb). reflexivity. }
  rewrite (bind_silent _ _ _ (Found b)) by (rewrite Hstep; reflexivity).
  rewrite Hstep. cbn [after lookup_type lookup_id]. clear Hstep.
  rewrite (find_pointwise _ (fun b' => String.eqb (toLowerCase (type b')) "token"))
    by (intros b'; rewrite !type_or_empty_Str, Htype; reflexivity).
  rewrite Hmeta, Htype.
  erewrite bind_silent by reflexivity. cbn [after read res].
  erewrite bind_silent by reflexivity. cbn [after read res].
  set (data := if truthy (or_else (customPath c1) (id b)) then _ else _).
  assert (Hdata : prop data "token" = token c).
  { assert (Hprops : assign ∅ (getProperties c1 (formAttributes meta)) !! "token"
                     = Some (token c)).
    { unfold assign. rewrite (right_id_L ∅ (∪)).
      rewrite (getProperties_lookup c1 _ "token" Hattr). rewrite <- Htk1. reflexivity. }
    unfold prop, data. destruct (truthy _).
    - rewrite lookup_insert_ne by discriminate. rewrite Hprops. reflexivity.
    - rewrite Hprops. reflexivity. }
  rewrite (authenticate_perform_out _ _ _ cl Hcl1). cbn [res after calls].
  eexists. split; [reflexivity|]. cbn [data_param backend_param selectedAuth_param clusterId].
  repeat split; try assumption.
  - destruct testing, c; reflexivity.
  - destruct testing, c; reflexivity.
Qed.

(** The failure path needs nothing of the catalog or the cluster. *)
Lemma unwrapToken_failure (wrapped : value) (msg : string) (others : list string)
    (c : component) :
  let o := unwrapToken' wrapped (Throw (AdapterError (Some (msg :: others)))) c in
  error (after o) = Str ("Token unwrap failed: " ++ msg)
  /\ calls o = [ToolActionUnwrap wrapped]
  /\ token (after o) = token c.
Proof. destruct c. repeat split. Qed.

Lemma unwrapToken_success (wrapped client_token : value) (c : component)
    (cl : cluster_model) (b meta : backend) :
  cluster c = Some cl ->
  backend_resolvable c = true ->
  catalog_offers_token BACKENDS b meta ->
  let o := unwrapToken' wrapped (Ok client_token) c in
  token (after o) = client_token
  /\ error (after o) = Null
  /\ exists p,
       authenticate_calls (calls o) = [p]
       /\ prop (data_param p) "token" = client_token
       /\ backend_param p = Str "token"
       /\ clusterId p = cluster_id cl.
Proof.
  intros Hcl Hres Hcat.
  set (c0 := set_selectedAuth (Str "token") c).
  set (c2 := set_token client_token c0).
  assert (Hsel2 : selectedAuth c2 = Str "token") by (destruct c; reflexivity).
  assert (Hcl2 : cluster c2 = Some cl) by (destruct c; exact Hcl).
  assert (Hres2 : backend_resolvable c2 = true) by (destruct c; exact Hres).
  assert (Htk2 : token c2 = client_token) by (destruct c; reflexivity).
  destruct (doSubmit_token_flow c2 cl b meta Hsel2 Hcl2 Hres2 Hcat)
    as (p & Hp & Hd & Hb & _ & Hc & Hr & Ht & He).
  assert (Hbody :
    bind (lift (Ok client_token))
      (fun t => bind (modify (set_token t))
         (fun _ => bind (doSubmit BACKENDS testing NoArguments) (fun _ => ret tt))) c0
    = bind (doSubmit BACKENDS testing NoArguments) (fun _ => ret tt) c2).
  { rewrite (bind_silent _ _ _ client_token) by reflexivity.
    rewrite (bind_silent _ _ _ tt) by reflexivity. reflexivity. }
  assert (Hsettle :
    unwrapToken_settle BACKENDS testing (Ok client_token) c0
    = bind (doSubmit BACKENDS testing NoArguments) (fun _ => ret tt) c2).
  { unfold unwrapToken_settle. rewrite (try_catch_ok _ _ _ tt); [exact Hbody|].
    rewrite Hbody. rewrite (res_bind_ok _ _ _ _ Hr). reflexivity. }
  cbv zeta. unfold AuthForm.unwrapToken.
  rewrite (after_bind_ok _ _ _ tt) by reflexivity.
  rewrite (calls_bind_ok _ _ _ tt) by reflexivity.
  change (after (unwrapToken_perform wrapped c)) with c0.
  rewrite Hsettle.
  rewrite (after_bind_ok _ _ _ _ Hr), (calls_bind_ok _ _ _ _ Hr).
  cbn [after calls ret unwrapToken_perform].
  split; [rewrite Ht; exact Htk2|]. split; [exact He|].
  exists p. rewrite !authenticate_calls_app, Hp, Hd.
  repeat split; assumption.
Qed.

End TokenUnwrap.

(* ===================================================================== *)
(** ** The codec: when decoding undoes encoding *)
(* ===================================================================== *)

Module CodecFacts.
Import Codec CodecAux.
Local Open Scope N_scope.

(** *** Checking a property of one or two octets by enumeration *)

Lemma In_octets (a : N) : a < 256 -> In a octets.
Proof.
  intros H. unfold octets. apply in_map_iff. exists (N.to_nat a).
  split; [apply N2Nat.id|]. apply in_seq. lia.
Qed.

Lemma for_octets_sound (p : N -> bool) :
  for_octets p = true -> forall a, a < 256 -> p a = true.
Proof.
  unfold for_octets. rewrite forallb_forall. intros H a Ha.
  apply H, In_octets, Ha.
Qed.

Lemma for_octet_pairs_sound (p : N -> N -> bool) :
  for_octet_pairs p = true -> forall a b, a < 256 -> b < 256 -> p a b = true.
Proof.
  unfold for_octet_pairs. rewrite forallb_forall. intros H a b Ha Hb.
  specialize (H a (In_octets a Ha)). rewrite forallb_forall in H.
  apply H, In_octets, Hb.
Qed.

(** *** Sextets and octets *)

Lemma sextet1_lt (a : N) : a < 256 -> sextet1 a < 64.
Proof.
  intros H. apply N.ltb_lt.
  apply (for_octets_sound (fun a => sextet1 a <? 64)); [vm_compute; reflexivity | exact H].
Qed.

Lemma sextet4_lt (a : N) : a < 256 -> sextet4 a < 64.
Proof.
  intros H. apply N.ltb_lt.
  apply (for_octets_sound (fun a => sextet4 a <? 64)); [vm_compute; reflexivity | exact H].
Qed.

Lemma sextet2_lt (a b : N) : a < 256 -> b < 256 -> sextet2 a b < 64.
Proof.
  intros Ha Hb. apply N.ltb_lt.
  apply (for_octet_pairs_sound (fun a b => sextet2 a b <? 64));
    [vm_compute; reflexivity | exact Ha | exact Hb].
Qed.

Lemma sextet3_lt (a b : N) : a < 256 -> b < 256 -> sextet3 a b < 64.
Proof.
  intros Ha Hb. apply N.ltb_lt.
  apply (for_octet_pairs_sound (fun a b => sextet3 a b <? 64));
    [vm_compute; reflexivity | exact Ha | exact Hb].
Qed.

(** The first octet comes back from the first two sextets. *)
Lemma octet1_sextets (a b : N) :
  a < 256 -> b < 256 -> octet1 (sextet1 a) (sextet2 a b) = a.
Proof.
  intros Ha Hb. apply N.eqb_eq.
  apply (for_octet_pairs_sound (fun a b => octet1 (sextet1 a) (sextet2 a b) =? a));
    [vm_compute; reflexivity | exact Ha | exact Hb].
Qed.

(** The second octet comes back from the second and third sextets: the low
    four bits of the second sextet and the high four bits of the third. *)
Lemma sextet2_low (a b : N) :
  a < 256 -> b < 256 -> N.land (sextet2 a b) 15 = N.shiftr b 4.
Proof.
  intros Ha Hb. apply N.eqb_eq.
  apply (for_octet_pairs_sound (fun a b => N.land (sextet2 a b) 15 =? N.shiftr b 4));
    [vm_compute; reflexivity | exact Ha | exact Hb].
Qed.

Lemma sextet3_high (b c : N) :
  b < 256 -> c < 256 -> N.shiftr (sextet3 b c) 2 = N.land b 15.
Proof.
  intros Hb Hc. apply N.eqb_eq.
  apply (for_octet_pairs_sound (fun b c => N.shiftr (sextet3 b c) 2 =? N.land b 15));
    [vm_compute; reflexivity | exact Hb | exact Hc].
Qed.

Lemma octet_halves (b : N) :
  b < 256 -> N.lor (N.shiftl (N.shiftr b 4) 4) (N.land b 15) = b.
Proof.
  intros Hb. apply N.eqb_eq.
  apply (for_octets_sound (fun b => N.lor (N.shiftl (N.shiftr b 4) 4) (N.land b 15) =? b));
    [vm_compute; reflexivity | exact Hb].
Qed.

Lemma octet2_sextets (a b c : N) :
  a < 256 -> b < 256 -> c < 256 -> octet2 (sextet2 a b) (sextet3 b c) = b.
Proof.
  intros Ha Hb Hc. unfold octet2.
  rewrite (sextet2_low a b Ha Hb), (sextet3_high b c Hb Hc).
  apply octet_halves, Hb.
Qed.

(** The third octet comes back from the third and fourth sextets. *)
Lemma sextet3_low (b c : N) :
  b < 256 -> c < 256 -> N.land (sextet3 b c) 3 = N.shiftr c 6.
Proof.
  intros Hb Hc. apply N.eqb_eq.
  apply (for_octet_pairs_sound (fun b c => N.land (sextet3 b c) 3 =? N.shiftr c 6));
    [vm_compute; reflexivity | exact Hb | exact Hc].
Qed.

Lemma octet_quarters (c : N) :
  c < 256 -> N.lor (N.shiftl (N.shiftr c 6) 6) (sextet4 c) = c.
Proof.
  intros Hc. apply N.eqb_eq.
  apply (for_octets_sound (fun c => N.lor (N.shiftl (N.shiftr c 6) 6) (sextet4 c) =? c));
    [vm_compute; reflexivity | exact Hc].
Qed.

Lemma octet3_sextets (b c : N) :
  b < 256 -> c < 256 -> octet3 (sextet3 b c) (sextet4 c) = c.
Proof.
  intros Hb Hc. unfold octet3. rewrite (sextet3_low b c Hb Hc).
  apply octet_quarters, Hc.
Qed.

(** *** The characters of the alphabet *)

Lemma b64_index_char (n : N) : n < 64 -> b64_index (b64_char n) = Some n.
Proof.
  intros H.
  assert (E : option_N_eqb (b64_index (b64_char n)) n = true).
  { pose proof (for_octets_sound
             (fun n => if n <? 64 then option_N_eqb (b64_index (b64_char n)) n else true)
             eq_refl n ltac:(lia)) as E.
    apply N.ltb_lt in H. cbv beta in E. rewrite H in E. exact E. }
  destruct (b64_index (b64_char n)) as [m|]; [|discriminate].
  apply N.eqb_eq in E. congruence.
Qed.

Lemma b64_char_plain (n : N) :
  n < 64 ->
  Ascii.eqb (b64_char n) "="%char = false
  /\ is_ascii_whitespace (b64_char n) = false.
Proof.
  intros H.
  assert (E : (negb (Ascii.eqb (b64_char n) "="%char)
               && negb (is_ascii_whitespace (b64_char n)))%bool = true).
  { pose proof (for_octets_sound
             (fun n => if n <? 64
                       then (negb (Ascii.eqb (b64_char n) "="%char)
                             && negb (is_ascii_whitespace (b64_char n)))%bool
                       else true)
             eq_refl n ltac:(lia)) as E.
    apply N.ltb_lt in H. cbv beta in E. rewrite H in E. exact E. }
  apply andb_true_iff in E as [E1 E2].
  apply negb_true_iff in E1, E2. split; assumption.
Qed.

(** *** Lists three elements at a time *)

Lemma list_ind3 {A} (P : list A -> Prop) :
  P [] -> (forall a, P [a]) -> (forall a b, P [a; b]) ->
  (forall a b c l, P l -> P (a :: b :: c :: l)) ->
  forall l, P l.
Proof.
  intros H0 H1 H2 H3.
  refine (fix F (l : list A) : P l :=
            match l with
            | [] => H0
            | [a] => H1 a
            | [a; b] => H2 a b
            | a :: b :: c :: l' => H3 a b c l' (F l')
            end).
Qed.

Lemma sextets_lt (s : text) : Forall (fun n => n < 64) (sextets s).
Proof.
  induction s as [|a|a b|a b c l IH] using list_ind3; simpl;
    repeat constructor;
    first [ apply sextet1_lt | apply sextet2_lt | apply sextet3_lt | apply sextet4_lt
          | exact IH | idtac ];
    first [ apply N_ascii_bounded | reflexivity ].
Qed.

Lemma sextets_length (s : text) : N.of_nat (length (sextets s)) mod 4 <> 1.
Proof.
  induction s as [|a|a b|a b c l IH] using list_ind3;
    try (vm_compute; discriminate).
  change (length (sextets (a :: b :: c :: l))) with (4 + length (sextets l))%nat.
  intros H. apply IH. rewrite <- H.
  rewrite Nat2N.inj_add. change (N.of_nat 4) with (1 * 4).
  rewrite N.add_comm. symmetry. apply N.Div0.mod_add.
Qed.

Lemma atob_groups_sextets (s : text) : atob_groups (sextets s) = s.
Proof.
  induction s as [|a|a b|a b c l IH] using list_ind3.
  - reflexivity.
  - simpl. rewrite octet1_sextets by first [apply N_ascii_bounded | reflexivity].
    rewrite ascii_N_embedding. reflexivity.
  - simpl.
    rewrite octet1_sextets, octet2_sextets by first [apply N_ascii_bounded | reflexivity].
    rewrite !ascii_N_embedding. reflexivity.
  - change (atob_groups (sextets (a :: b :: c :: l)))
      with (ascii_of_N (octet1 (sextet1 (N_of_ascii a)) (sextet2 (N_of_ascii a) (N_of_ascii b)))
            :: ascii_of_N (octet2 (sextet2 (N_of_ascii a) (N_of_ascii b))
                                  (sextet3 (N_of_ascii b) (N_of_ascii c)))
            :: ascii_of_N (octet3 (sextet3 (N_of_ascii b) (N_of_ascii c))
                                  (sextet4 (N_of_ascii c)))
            :: atob_groups (sextets l)).
    rewrite octet1_sextets, octet2_sextets, octet3_sextets by apply N_ascii_bounded.
    rewrite !ascii_N_embedding, IH. reflexivity.
Qed.

(** *** [btoa] and the substitutions of [bufferEncode] *)

Lemma remove_char_keep (x c : ascii) (s : text) :
  Ascii.eqb c x = false -> remove_char x (c :: s) = c :: remove_char x s.
Proof. intros H. unfold remove_char. simpl. rewrite H. reflexivity. Qed.

Lemma remove_pad_b64 (n : N) (s : text) :
  n < 64 ->
  remove_char "="%char (b64_char n :: s) = b64_char n :: remove_char "="%char s.
Proof. intros H. apply remove_char_keep, b64_char_plain, H. Qed.

Lemma btoa_unpadded (s : text) :
  remove_char "="%char (btoa s) = map b64_char (sextets s).
Proof.
  pose proof N_ascii_bounded as Hb.
  induction s as [|a|a b|a b c l IH] using list_ind3.
  - reflexivity.
  - cbn [btoa sextets map].
    rewrite !remove_pad_b64
      by (first [apply sextet1_lt | apply sextet2_lt];
          first [apply Hb | reflexivity]).
    reflexivity.
  - cbn [btoa sextets map].
    rewrite !remove_pad_b64
      by (first [apply sextet1_lt | apply sextet2_lt | apply sextet3_lt];
          first [apply Hb | reflexivity]).
    reflexivity.
  - change (btoa (a :: b :: c :: l))
      with (b64_char (sextet1 (N_of_ascii a))
            :: b64_char (sextet2 (N_of_ascii a) (N_of_ascii b))
            :: b64_char (sextet3 (N_of_ascii b) (N_of_ascii c))
            :: b64_char (sextet4 (N_of_ascii c)) :: btoa l).
    change (sextets (a :: b :: c :: l))
      with (sextet1 (N_of_ascii a) :: sextet2 (N_of_ascii a) (N_of_ascii b)
            :: sextet3 (N_of_ascii b) (N_of_ascii c) :: sextet4 (N_of_ascii c)
            :: sextets l).
    rewrite !remove_pad_b64
      by (first [apply sextet1_lt | apply sextet2_lt | apply sextet3_lt | apply sextet4_lt];
          apply Hb).
    rewrite IH. reflexivity.
Qed.

Lemma replace_char_absent (x y : ascii) (s : text) :
  existsb (fun c => Ascii.eqb c x) s = false -> replace_char x y s = s.
Proof.
  induction s as [|c s IH]; simpl; [reflexivity|].
  intros H. apply orb_false_iff in H as [Hc Hs].
  rewrite Hc, (IH Hs). reflexivity.
Qed.

Lemma url_safe_unchanged (s : text) :
  url_unsafe s = false ->
  replace_char "/"%char "_"%char (replace_char "+"%char "-"%char s) = s.
Proof.
  intros H.
  assert (Hp : existsb (fun c => Ascii.eqb c "+"%char) s = false
               /\ existsb (fun c => Ascii.eqb c "/"%char) s = false).
  { induction s as [|c s IH]; simpl in *; [split; reflexivity|].
    apply orb_false_iff in H as [Hc Hs]. apply orb_false_iff in Hc as [H1 H2].
    destruct (IH Hs) as [I1 I2]. rewrite H1, H2, I1, I2. split; reflexivity. }
  destruct Hp as [H1 H2].
  rewrite (replace_char_absent _ _ _ H1). apply replace_char_absent, H2.
Qed.

(** With [+] or [/] in the padded text, [-] or [_] is in the encoded text. *)
Lemma url_unsafe_encoded (s : text) :
  url_unsafe s = true ->
  In "-"%char (remove_char "="%char
                 (replace_char "/"%char "_"%char (replace_char "+"%char "-"%char s)))
  \/ In "_"%char (remove_char "="%char
                    (replace_char "/"%char "_"%char (replace_char "+"%char "-"%char s))).
Proof.
  unfold url_unsafe. rewrite existsb_exists. intros [c [Hin Hc]].
  unfold remove_char. rewrite !filter_In. unfold replace_char. rewrite !in_map_iff.
  apply orb_true_iff in Hc as [Hc|Hc]; apply Ascii.eqb_eq in Hc; subst c.
  - left. split; [|reflexivity]. exists "-"%char. split; [reflexivity|].
    apply in_map_iff. exists "+"%char. split; [reflexivity | exact Hin].
  - right. split; [|reflexivity]. exists "/"%char. split; [reflexivity|].
    apply in_map_iff. exists "/"%char. split; [reflexivity | exact Hin].
Qed.

(** *** [atob] *)

(** [strip_padding], test by test. *)
Lemma strip_padding_tests (data : text) :
  strip_padding data
  = match rev data with
    | [] => data
    | x :: r =>
        if Ascii.eqb x "="%char then
          match r with
          | [] => rev r
          | y :: r' => if Ascii.eqb y "="%char then rev r' else rev r
          end
        else data
    end.
Proof.
  unfold strip_padding.
  destruct (rev data) as [|x [|y r']]; [reflexivity | |].
  - destruct x as [[] [] [] [] [] [] [] []]; reflexivity.
  - destruct x as [[] [] [] [] [] [] [] []]; try reflexivity.
    destruct y as [[] [] [] [] [] [] [] []]; reflexivity.
Qed.

Lemma strip_padding_unpadded (data : text) :
  Forall (fun c => Ascii.eqb c "="%char = false) data -> strip_padding data = data.
Proof.
  intros H. rewrite strip_padding_tests.
  destruct (rev data) as [|x r] eqn:E; [reflexivity|].
  assert (Hx : In x data) by (apply in_rev; rewrite E; left; reflexivity).
  rewrite List.Forall_forall in H. rewrite (H x Hx). reflexivity.
Qed.

Lemma strip_padding_keeps (data : text) (c : ascii) :
  Ascii.eqb c "="%char = false -> In c data -> In c (strip_padding data).
Proof.
  intros Hc Hin. rewrite strip_padding_tests.
  apply in_rev in Hin.
  destruct (rev data) as [|x r] eqn:E; [destruct Hin|].
  destruct (Ascii.eqb x "="%char) eqn:Hx; [|apply in_rev; rewrite E; exact Hin].
  apply Ascii.eqb_eq in Hx. subst x.
  destruct Hin as [Hin|Hin]; [subst c; discriminate|].
  destruct r as [|y r']; [destruct Hin|].
  destruct (Ascii.eqb y "="%char) eqn:Hy.
  - apply Ascii.eqb_eq in Hy. subst y.
    destruct Hin as [Hin|Hin]; [subst c; discriminate|].
    apply in_rev in Hin. exact Hin.
  - apply in_rev in Hin. exact Hin.
Qed.

Lemma indices_b64 (l : list N) :
  Forall (fun n => n < 64) l -> indices (map b64_char l) = Some l.
Proof.
  induction 1 as [|n l Hn _ IH]; simpl; [reflexivity|].
  rewrite (b64_index_char n Hn), IH. reflexivity.
Qed.

Lemma indices_rejects (data : text) (c : ascii) :
  In c data -> b64_index c = None -> indices data = None.
Proof.
  intros Hin Hc. induction data as [|x data IH]; [destruct Hin|].
  simpl. destruct Hin as [->|Hin].
  - rewrite Hc. reflexivity.
  - rewrite (IH Hin). destruct (b64_index x); reflexivity.
Qed.

(** [atob] accepts the unpadded text of a binary string and gives the binary
    string back. *)
Lemma atob_unpadded (s : text) : atob (map b64_char (sextets s)) = Ok s.
Proof.
  pose proof (sextets_lt s) as Hlt.
  assert (Hws : List.filter (fun c => negb (is_ascii_whitespace c))
                  (map b64_char (sextets s)) = map b64_char (sextets s)).
  { induction Hlt as [|n l Hn _ IH]; simpl; [reflexivity|].
    destruct (b64_char_plain n Hn) as [_ ->]. simpl. rewrite IH. reflexivity. }
  assert (Hpad : strip_padding (map b64_char (sextets s)) = map b64_char (sextets s)).
  { apply strip_padding_unpadded. apply List.Forall_forall. intros c Hc.
    apply in_map_iff in Hc as [n [<- Hn]].
    rewrite List.Forall_forall in Hlt. apply b64_char_plain, Hlt, Hn. }
  unfold atob. rewrite Hws.
  assert (Hsame : (if N.of_nat (length (map b64_char (sextets s))) mod 4 =? 0
                   then strip_padding (map b64_char (sextets s))
                   else map b64_char (sextets s)) = map b64_char (sextets s)).
  { destruct (_ =? 0); [exact Hpad | reflexivity]. }
  rewrite Hsame, length_map.
  destruct (N.of_nat (length (sextets s)) mod 4 =? 1) eqn:E.
  - apply N.eqb_eq in E. destruct (sextets_length s E).
  - rewrite (indices_b64 _ Hlt), atob_groups_sextets. reflexivity.
Qed.

(** [atob] rejects a text with a character that is neither of the alphabet,
    nor whitespace, nor padding. *)
Lemma atob_rejects (data : text) (c : ascii) :
  In c data -> b64_index c = None -> is_ascii_whitespace c = false ->
  Ascii.eqb c "="%char = false ->
  atob data = Throw InvalidCharacterError.
Proof.
  intros Hin Hidx Hws Hpad. unfold atob.
  set (d1 := List.filter (fun c => negb (is_ascii_whitespace c)) data).
  assert (H1 : In c d1) by (apply filter_In; split; [exact Hin | rewrite Hws; reflexivity]).
  set (d2 := if N.of_nat (length d1) mod 4 =? 0 then strip_padding d1 else d1).
  assert (H2 : In c d2).
  { unfold d2. destruct (_ =? 0); [apply strip_padding_keeps|]; assumption. }
  destruct (_ =? 1); [reflexivity|].
  rewrite (indices_rejects d2 c H2 Hidx). reflexivity.
Qed.

(** *** [bufferDecode] after [bufferEncode] *)

(** Reading the char codes of [String.fromCharCode] of bytes gives the bytes. *)
Lemma fromCharCodes_back (b : bytes) : map byte_of_ascii (fromCharCodes b) = b.
Proof.
  unfold fromCharCodes. induction b as [|x b IH]; simpl; [reflexivity|].
  rewrite byte_of_ascii_of_byte, IH. reflexivity.
Qed.

(** Decoding undoes encoding exactly for the byte sequences whose base64
    text has neither [+] nor [/]; for the others [bufferDecode] throws. *)
Lemma bufferDecode_bufferEncode_cases (b : bytes) :
  bufferDecode (bufferEncode b)
  = if url_unsafe (btoa (fromCharCodes b)) then Throw InvalidCharacterError else Ok b.
Proof.
  unfold bufferDecode, bufferEncode.
  destruct (url_unsafe (btoa (fromCharCodes b))) eqn:U.
  - destruct (url_unsafe_encoded _ U) as [H|H];
      rewrite (atob_rejects _ _ H) by reflexivity; reflexivity.
  - rewrite (url_safe_unchanged _ U), btoa_unpadded, atob_unpadded.
    rewrite fromCharCodes_back. reflexivity.
Qed.

(** C2 fails on the code at the one-byte sequence [0xFB]: its base64 text is
    ["+w=="], [bufferEncode] gives ["-w"], and [bufferDecode] of that throws
    [InvalidCharacterError] instead of giving the byte back; so does every
    byte sequence whose base64 text has [+] or [/] in it, while the others
    are given back. *)
Theorem bufferDecode_rejects_bufferEncode_output :
  btoa (fromCharCodes [Byte.xfb]) = list_ascii_of_string "+w=="
  /\ bufferEncode [Byte.xfb] = list_ascii_of_string "-w"
  /\ bufferDecode (bufferEncode [Byte.xfb]) = Throw InvalidCharacterError
  /\ bufferDecode (bufferEncode [Byte.x4d; Byte.x61]) = Ok [Byte.x4d; Byte.x61]
  /\ (forall b : bytes,
       bufferDecode (bufferEncode b)
       = if url_unsafe (btoa (fromCharCodes b))
         then Throw InvalidCharacterError else Ok b).
Proof.
  split; [reflexivity|]. split; [reflexivity|]. split; [reflexivity|].
  split; [reflexivity|]. exact bufferDecode_bufferEncode_cases.
Qed.

End CodecFacts.

(* ===================================================================== *)
(** ** The codec: alphabet, length, padded input, injectivity *)
(* ===================================================================== *)

Module CodecMore.
Import Codec CodecAux CodecFacts.
Local Open Scope N_scope.

Lemma btoa_padded (s : text) : btoa s = map b64_char (sextets s) ++ padding s.
Proof.
  induction s as [|a|a b|a b c l IH] using list_ind3; try reflexivity.
  change (btoa (a :: b :: c :: l))
    with (b64_char (sextet1 (N_of_ascii a))
          :: b64_char (sextet2 (N_of_ascii a) (N_of_ascii b))
          :: b64_char (sextet3 (N_of_ascii b) (N_of_ascii c))
          :: b64_char (sextet4 (N_of_ascii c)) :: btoa l).
  rewrite IH. reflexivity.
Qed.

Lemma encoded_sextets (b : bytes) :
  bufferEncode b = map (fun n => to_url_safe_char (b64_char n)) (sextets (fromCharCodes b)).
Proof.
  unfold bufferEncode.
  assert (Hmap : forall s : text,
    replace_char "/"%char "_"%char (replace_char "+"%char "-"%char s)
    = map to_url_safe_char s).
  { intros s. unfold replace_char. rewrite map_map. reflexivity. }
  rewrite Hmap, btoa_padded, map_app.
  assert (Hpad : forall s : text,
    remove_char "="%char (map to_url_safe_char (padding s)) = []).
  { intros s. induction s as [|a|a c|a c d l IH] using list_ind3; try reflexivity.
    exact IH. }
  unfold remove_char in *. rewrite List.filter_app, Hpad, app_nil_r, map_map.
  pose proof (sextets_lt (fromCharCodes b)) as Hlt.
  induction Hlt as [|n l Hn _ IH]; simpl; [reflexivity|].
  assert (E : negb (Ascii.eqb (to_url_safe_char (b64_char n)) "="%char) = true).
  { pose proof (for_octets_sound
      (fun n => if n <? 64
                then negb (Ascii.eqb (to_url_safe_char (b64_char n)) "="%char)
                else true) eq_refl n ltac:(lia)) as E.
    apply N.ltb_lt in Hn. cbv beta in E. rewrite Hn in E. exact E. }
  rewrite E, IH. reflexivity.
Qed.

Lemma sextets_count (s : text) :
  length (sextets s) = ((4 * length s + 2) / 3)%nat.
Proof.
  induction s as [|a|a b|a b c l IH] using list_ind3; try reflexivity.
  change (length (sextets (a :: b :: c :: l))) with (4 + length (sextets l))%nat.
  change (length (a :: b :: c :: l)) with (3 + length l)%nat.
  rewrite IH.
  replace (4 * (3 + length l) + 2)%nat with ((4 * length l + 2) + 4 * 3)%nat by lia.
  rewrite Nat.div_add by discriminate. lia.
Qed.

(** X1.  Whatever the bytes, [bufferEncode] writes only characters of the
    base64url alphabet [A-Za-z0-9-_] (no [+], no [/], no [=] padding), and
    writes the 4n/3 of them, rounded up, that n bytes need. *)
Theorem bufferEncode_base64url_unpadded (b : bytes) :
  forallb is_base64url (bufferEncode b) = true
  /\ length (bufferEncode b) = ((4 * length b + 2) / 3)%nat
  /\ ~ In "+"%char (bufferEncode b)
  /\ ~ In "/"%char (bufferEncode b)
  /\ ~ In "="%char (bufferEncode b).
Proof.
  assert (Hall : forallb is_base64url (bufferEncode b) = true).
  { rewrite encoded_sextets.
    pose proof (sextets_lt (fromCharCodes b)) as Hlt.
    induction Hlt as [|n l Hn _ IH]; simpl; [reflexivity|].
    rewrite IH, andb_true_r.
    pose proof (for_octets_sound
      (fun n => if n <? 64 then is_base64url (to_url_safe_char (b64_char n)) else true)
      eq_refl n ltac:(lia)) as E.
    apply N.ltb_lt in Hn. cbv beta in E. rewrite Hn in E. exact E. }
  split; [exact Hall|]. split.
  - rewrite encoded_sextets, length_map, sextets_count.
    unfold fromCharCodes. rewrite length_map. reflexivity.
  - rewrite forallb_forall in Hall.
    repeat split; intros Hin; apply Hall in Hin; discriminate Hin.
Qed.

(** *** Padded input *)

Lemma padding_cases (s : text) :
  padding s = [] \/ padding s = ["="%char] \/ padding s = ["="%char; "="%char].
Proof.
  induction s as [|a|a b|a b c l IH] using list_ind3; simpl; auto.
Qed.

Lemma btoa_length (s : text) : length (btoa s) = (4 * ((length s + 2) / 3))%nat.
Proof.
  induction s as [|a|a b|a b c l IH] using list_ind3; try reflexivity.
  change (length (btoa (a :: b :: c :: l))) with (4 + length (btoa l))%nat.
  change (length (a :: b :: c :: l)) with (3 + length l)%nat.
  rewrite IH.
  replace (3 + length l + 2)%nat with ((length l + 2) + 1 * 3)%nat by lia.
  rewrite Nat.div_add by discriminate. lia.
Qed.

Lemma plain_not_whitespace (l : list N) :
  Forall (fun n => n < 64) l ->
  List.filter (fun c => negb (is_ascii_whitespace c)) (map b64_char l) = map b64_char l.
Proof.
  induction 1 as [|n l Hn _ IH]; simpl; [reflexivity|].
  destruct (b64_char_plain n Hn) as [_ ->]. simpl. rewrite IH. reflexivity.
Qed.

Lemma plain_not_padding (l : list N) :
  Forall (fun n => n < 64) l ->
  Forall (fun c => Ascii.eqb c "="%char = false) (map b64_char l).
Proof.
  intros H. apply List.Forall_forall. intros c Hc.
  apply in_map_iff in Hc as [n [<- Hn]].
  rewrite List.Forall_forall in H. apply b64_char_plain, H, Hn.
Qed.

Lemma strip_padding_padded (x pad : text) :
  Forall (fun c => Ascii.eqb c "="%char = false) x ->
  pad = [] \/ pad = ["="%char] \/ pad = ["="%char; "="%char] ->
  strip_padding (x ++ pad) = x.
Proof.
  intros Hx [->|[->| ->]].
  - rewrite app_nil_r. apply strip_padding_unpadded, Hx.
  - rewrite strip_padding_tests, rev_app_distr. simpl.
    destruct (rev x) as [|y r'] eqn:E.
    + apply (f_equal (@rev ascii)) in E. rewrite rev_involutive in E. subst x. reflexivity.
    + assert (Hy : In y x) by (apply in_rev; rewrite E; left; reflexivity).
      rewrite List.Forall_forall in Hx. rewrite (Hx y Hy).
      rewrite <- E. apply rev_involutive.
  - rewrite strip_padding_tests, rev_app_distr. simpl. apply rev_involutive.
Qed.

(** [atob] undoes [btoa], padding included. *)
Lemma atob_btoa (s : text) : atob (btoa s) = Ok s.
Proof.
  pose proof (sextets_lt s) as Hlt.
  assert (Hlen : N.of_nat (length (btoa s)) mod 4 = 0).
  { rewrite btoa_length, Nat2N.inj_mul, N.mul_comm. apply N.Div0.mod_mul. }
  rewrite btoa_padded in *.
  assert (Hws : List.filter (fun c => negb (is_ascii_whitespace c))
                  (map b64_char (sextets s) ++ padding s)
                = map b64_char (sextets s) ++ padding s).
  { rewrite List.filter_app, (plain_not_whitespace _ Hlt). f_equal.
    destruct (padding_cases s) as [->|[->| ->]]; reflexivity. }
  unfold atob. rewrite Hws, Hlen. cbn [N.eqb].
  rewrite (strip_padding_padded _ _ (plain_not_padding _ Hlt) (padding_cases s)).
  rewrite length_map.
  destruct (N.of_nat (length (sextets s)) mod 4 =? 1) eqn:E.
  - apply N.eqb_eq in E. destruct (sextets_length s E).
  - rewrite (indices_b64 _ Hlt), atob_groups_sextets. reflexivity.
Qed.

(** X2.  [bufferDecode] is a decoder of standard base64: it gives back the
    bytes of every padded text written by [btoa], and equally of that text
    with its padding removed. *)
Theorem bufferDecode_standard_base64 (b : bytes) :
  bufferDecode (btoa (fromCharCodes b)) = Ok b
  /\ bufferDecode (remove_char "="%char (btoa (fromCharCodes b))) = Ok b.
Proof.
  unfold bufferDecode. split.
  - rewrite atob_btoa, fromCharCodes_back. reflexivity.
  - rewrite btoa_unpadded, atob_unpadded, fromCharCodes_back. reflexivity.
Qed.

(** *** What [bufferDecode] refuses, and what [bufferEncode] keeps *)

(** [bufferDecode] has one way to fail. *)
Lemma bufferDecode_throws (data : text) (e : exn) :
  bufferDecode data = Throw e -> e = InvalidCharacterError.
Proof.
  unfold bufferDecode, atob.
  destruct (N.eqb _ 1); [intros H; congruence|].
  destruct (indices _); intros H; congruence.
Qed.

(** A text with a [-] or a [_] in it is refused. *)
Lemma bufferDecode_refuses (data : text) (c : ascii) :
  In c data -> c = "-"%char \/ c = "_"%char ->
  bufferDecode data = Throw InvalidCharacterError.
Proof.
  intros Hin Hc. unfold bufferDecode.
  rewrite (atob_rejects data c Hin); [reflexivity | | |];
    destruct Hc as [-> | ->]; reflexivity.
Qed.

(** X3.  [bufferDecode] refuses every text with a [-] or a [_] in it,
    wherever it stands and whatever surrounds it: the two characters that
    set base64url apart from base64 are never decoded. *)
Theorem bufferDecode_rejects_url_safe (before rest : text) :
  bufferDecode (before ++ "-"%char :: rest) = Throw InvalidCharacterError
  /\ bufferDecode (before ++ "_"%char :: rest) = Throw InvalidCharacterError.
Proof.
  split.
  - apply (bufferDecode_refuses _ "-"%char); [|left; reflexivity].
    apply in_or_app. right. left. reflexivity.
  - apply (bufferDecode_refuses _ "_"%char); [|right; reflexivity].
    apply in_or_app. right. left. reflexivity.
Qed.

Lemma from_url_safe_encoded (b : bytes) :
  from_url_safe (bufferEncode b) = map b64_char (sextets (fromCharCodes b)).
Proof.
  rewrite encoded_sextets. unfold from_url_safe, replace_char. rewrite !map_map.
  pose proof (sextets_lt (fromCharCodes b)) as Hlt.
  induction Hlt as [|n l Hn _ IH]; simpl; [reflexivity|].
  rewrite IH. f_equal.
  pose proof (for_octets_sound
    (fun n => if n <? 64
              then Ascii.eqb
                     (let c := to_url_safe_char (b64_char n) in
                      let c := if Ascii.eqb c "-"%char then "+"%char else c in
                      if Ascii.eqb c "_"%char then "/"%char else c)
                     (b64_char n)
              else true) eq_refl n ltac:(lia)) as E.
  apply N.ltb_lt in Hn. cbv beta zeta in E. rewrite Hn in E.
  apply Ascii.eqb_eq in E. exact E.
Qed.

(** X4.  [bufferEncode] loses nothing: once [-] and [_] are mapped back to
    [+] and [/], [bufferDecode] gives the bytes back, for every byte
    sequence; so two byte sequences with the same encoding are equal. *)
Theorem bufferEncode_injective :
  (forall b : bytes, bufferDecode (from_url_safe (bufferEncode b)) = Ok b)
  /\ (forall b1 b2 : bytes, bufferEncode b1 = bufferEncode b2 -> b1 = b2).
Proof.
  assert (Hback : forall b : bytes, bufferDecode (from_url_safe (bufferEncode b)) = Ok b).
  { intros b. unfold bufferDecode.
    rewrite from_url_safe_encoded, atob_unpadded, fromCharCodes_back. reflexivity. }
  split; [exact Hback|].
  intros b1 b2 H. pose proof (Hback b1) as H1. rewrite H, Hback in H1.
  congruence.
Qed.

End CodecMore.

(* ===================================================================== *)
(** ** The token menu: registration and renewal *)
(* ===================================================================== *)

Module TraceFacts.
Import Traces.

(** What [only_after] says of a trace cut at one of its posting calls. *)
Lemma only_after_split {A} (asks posts : A -> bool) (l before later : list A)
    (x : A) (asked : bool) :
  only_after asks posts asked l = true ->
  l = before ++ x :: later ->
  posts x = true ->
  (asked || existsb asks before)%bool = true.
Proof.
  revert l asked. induction before as [|e before IH]; intros l asked Hl -> Hx.
  - simpl in Hl. rewrite Hx in Hl. apply andb_true_iff in Hl as [Hl _].
    rewrite Hl. reflexivity.
  - simpl in Hl. apply andb_true_iff in Hl as [_ Hl].
    simpl. rewrite orb_assoc. exact (IH _ _ Hl eq_refl Hx).
Qed.

End TraceFacts.

Module AuthInfoFacts.
Import AuthInfo AuthInfoObservations.

(** The codec is used as a whole here. *)
#[local] Opaque Codec.bufferEncode Codec.bufferDecode.

(** *** The links of the chain, one projection at a time *)

Lemma fst_calling {B} (e : call) (k : unit -> link B) :
  fst (and_then (calling e) k) = e :: fst (k tt).
Proof. reflexivity. Qed.

Lemma snd_calling {B} (e : call) (k : unit -> link B) :
  snd (and_then (calling e) k) = snd (k tt).
Proof. reflexivity. Qed.

Lemma fst_answered {A B} (a : A) (k : A -> link B) :
  fst (and_then (failed (Ok a)) k) = fst (k a).
Proof. reflexivity. Qed.

Lemma snd_answered {A B} (a : A) (k : A -> link B) :
  snd (and_then (failed (Ok a)) k) = snd (k a).
Proof. reflexivity. Qed.

Lemma fst_refused {A B} (e : exn) (k : A -> link B) :
  fst (and_then (failed (Throw e)) k) = [].
Proof. reflexivity. Qed.

Lemma snd_refused {A B} (e : exn) (k : A -> link B) :
  snd (and_then (failed (Throw e)) k) = Throw e.
Proof. reflexivity. Qed.

(** The chain, answer by answer. *)
Ltac run_chain :=
  unfold registerWebauthn, registerWebauthn_chain;
  repeat first
    [ rewrite fst_calling | rewrite snd_calling
    | rewrite fst_answered | rewrite snd_answered
    | rewrite fst_refused | rewrite snd_refused
    | match goal with
      | H : _ = Ok _ |- _ => rewrite H
      | H : _ = Throw _ |- _ => rewrite H
      end ];
  cbn [fst snd calling app].

(** X5.  Every run of [registerWebauthn] ends with exactly one alert, its
    last call: "successfully registered ..." when every step answered
    (options fetched and decoded, credential created, attestation posted and
    its answer parsed), with nothing logged; "failed to register ..." in
    every other case, with one cause logged. *)
Theorem registerWebauthn_alerts_once (env : ceremony) :
  let t := registerWebauthn env in
  let name := to_text (prompted env) in
  (alerts t = [("successfully registered " ++ name ++ "!")%string] /\ logged t = []
   /\ last t = Some (Alert ("successfully registered " ++ name ++ "!")%string)
   /\ registration_goes_through env)
  \/ (alerts t = [("failed to register " ++ name)%string] /\ length (logged t) = 1
      /\ last t = Some (Alert ("failed to register " ++ name)%string)
      /\ ~ registration_goes_through env).
Proof.
  cbv zeta. unfold registration_goes_through.
  destruct (begin_json env) as [options|e] eqn:Eb; cycle 1.
  { right. run_chain. repeat split.
    intros (o & d & u & x & cr & H & _). discriminate. }
  destruct (Codec.bufferDecode (challenge options)) as [decoded|e] eqn:Ec; cycle 1.
  { right. run_chain. repeat split.
    intros (o & d & u & x & cr & H & H1 & _). congruence. }
  destruct (Codec.bufferDecode (user_id options)) as [user|e] eqn:Eu; cycle 1.
  { right. run_chain. repeat split.
    intros (o & d & u & x & cr & H & H1 & H2 & _). congruence. }
  destruct (decode_excluded (excludeCredentials options)) as [excluded|e] eqn:Ex; cycle 1.
  { right. run_chain. repeat split.
    intros (o & d & u & x & cr & H & H1 & H2 & H3 & _). congruence. }
  destruct (credentials_create env) as [cred|e] eqn:Ecr; cycle 1.
  { right. run_chain. repeat split.
    intros (o & d & u & x & cr & H & H1 & H2 & H3 & H4 & _). congruence. }
  destruct (finish_json env) as [[]|e] eqn:Ef; cycle 1.
  { right. run_chain. repeat split.
    intros (o & d & u & x & cr & H & H1 & H2 & H3 & H4 & H5). congruence. }
  left. run_chain. repeat split.
  exists options, decoded, user, excluded, cred. repeat split; assumption.
Qed.

(** Membership in a trace that is written out. *)
Ltac in_trace H :=
  simpl in H;
  repeat match type of H with
         | _ \/ _ => destruct H as [H|H]
         | False => destruct H
         end;
  try discriminate H.

(** The calls of [registerWebauthn] and what they carry. *)
Lemma registerWebauthn_calls_made (env : ceremony) :
  let t := registerWebauthn env in
  (forall ch u ex, In (CredentialsCreate ch u ex) t ->
     exists options,
       begin_json env = Ok options
       /\ Codec.bufferDecode (challenge options) = Ok ch
       /\ Codec.bufferDecode (user_id options) = Ok u
       /\ decode_excluded (excludeCredentials options) = Ok ex)
  /\ (forall url i r ty a cj, In (FetchRegisterFinish url i r ty a cj) t ->
       existsb asks_platform t = true
       /\ url = ("/register/finish/" ++ to_text (prompted env))%string
       /\ exists cred,
            credentials_create env = Ok cred
            /\ i = credential_id cred /\ ty = credential_type cred
            /\ r = Codec.bufferEncode (rawId cred)
            /\ a = Codec.bufferEncode (attestationObject cred)
            /\ cj = Codec.bufferEncode (clientDataJSON cred))
  /\ length (List.filter asks_platform t) <= 1
  /\ length (List.filter posts_attestation t) <= 1.
Proof.
  cbv zeta.
  destruct (begin_json env) as [options|e] eqn:Eb; cycle 1.
  { run_chain. repeat split; try (simpl; lia); intros; in_trace H. }
  destruct (Codec.bufferDecode (challenge options)) as [decoded|e] eqn:Ec; cycle 1.
  { run_chain. repeat split; try (simpl; lia); intros; in_trace H. }
  destruct (Codec.bufferDecode (user_id options)) as [user|e] eqn:Eu; cycle 1.
  { run_chain. repeat split; try (simpl; lia); intros; in_trace H. }
  destruct (decode_excluded (excludeCredentials options)) as [excluded|e] eqn:Ex; cycle 1.
  { run_chain. repeat split; try (simpl; lia); intros; in_trace H. }
  assert (Hasked : forall ch u ex,
    CredentialsCreate decoded user excluded = CredentialsCreate ch u ex ->
    exists options0,
      Ok options = Ok options0
      /\ Codec.bufferDecode (challenge options0) = Ok ch
      /\ Codec.bufferDecode (user_id options0) = Ok u
      /\ decode_excluded (excludeCredentials options0) = Ok ex).
  { intros ch u ex H. inversion H; subst. exists options. repeat split; assumption. }
  destruct (credentials_create env) as [cred|e] eqn:Ecr; cycle 1.
  { run_chain. repeat split; try (simpl; lia); intros; in_trace H.
    apply Hasked, H. }
  assert (Hposted : forall url i r ty a cj,
    FetchRegisterFinish ("/register/finish/" ++ to_text (prompted env))%string
      (credential_id cred) (Codec.bufferEncode (rawId cred)) (credential_type cred)
      (Codec.bufferEncode (attestationObject cred))
      (Codec.bufferEncode (clientDataJSON cred))
    = FetchRegisterFinish url i r ty a cj ->
    url = ("/register/finish/" ++ to_text (prompted env))%string
    /\ exists cred0,
         Ok cred = Ok cred0
         /\ i = credential_id cred0 /\ ty = credential_type cred0
         /\ r = Codec.bufferEncode (rawId cred0)
         /\ a = Codec.bufferEncode (attestationObject cred0)
         /\ cj = Codec.bufferEncode (clientDataJSON cred0)).
  { intros url i r ty a cj H. inversion H; subst. split; [reflexivity|].
    exists cred. repeat split. }
  destruct (finish_json env) as [[]|e] eqn:Ef.
  - run_chain. split; [|split; [|split]]; try (simpl; lia).
    + intros ch u ex H. in_trace H. apply Hasked, H.
    + intros url i r ty a cj H. in_trace H. split; [reflexivity|]. apply Hposted, H.
  - run_chain. split; [|split; [|split]]; try (simpl; lia).
    + intros ch u ex H. in_trace H. apply Hasked, H.
    + intros url i r ty a cj H. in_trace H. split; [reflexivity|]. apply Hposted, H.
Qed.

(** In every run the platform is asked before anything is posted. *)
Lemma registerWebauthn_asks_first (env : ceremony) :
  Traces.only_after asks_platform posts_attestation false (registerWebauthn env) = true.
Proof.
  destruct (begin_json env) as [options|e] eqn:Eb; cycle 1.
  { run_chain. reflexivity. }
  destruct (Codec.bufferDecode (challenge options)) as [decoded|e] eqn:Ec; cycle 1.
  { run_chain. reflexivity. }
  destruct (Codec.bufferDecode (user_id options)) as [user|e] eqn:Eu; cycle 1.
  { run_chain. reflexivity. }
  destruct (decode_excluded (excludeCredentials options)) as [excluded|e] eqn:Ex; cycle 1.
  { run_chain. reflexivity. }
  destruct (credentials_create env) as [cred|e] eqn:Ecr; cycle 1.
  { run_chain. reflexivity. }
  destruct (finish_json env) as [[]|e] eqn:Ef; run_chain; reflexivity.
Qed.

(** X6.  In every run of [registerWebauthn] the platform is asked at most
    once and only with the challenge, user id and exclude list all decoded
    from the fetched options; the attestation is posted at most once, and
    wherever it stands in the trace the platform was asked before it and
    returned a credential: it is posted to [/register/finish/] followed by
    the prompted name, with the raw id, attestation object and client data
    of that credential encoded by [bufferEncode]. *)
Theorem registerWebauthn_steps_in_order (env : ceremony) :
  let t := registerWebauthn env in
  (forall ch u ex, In (CredentialsCreate ch u ex) t ->
     exists options,
       begin_json env = Ok options
       /\ Codec.bufferDecode (challenge options) = Ok ch
       /\ Codec.bufferDecode (user_id options) = Ok u
       /\ decode_excluded (excludeCredentials options) = Ok ex)
  /\ (forall before later url i r ty a cj,
       t = before ++ FetchRegisterFinish url i r ty a cj :: later ->
       existsb asks_platform before = true
       /\ url = ("/register/finish/" ++ to_text (prompted env))%string
       /\ exists cred,
            credentials_create env = Ok cred
            /\ i = credential_id cred /\ ty = credential_type cred
            /\ r = Codec.bufferEncode (rawId cred)
            /\ a = Codec.bufferEncode (attestationObject cred)
            /\ cj = Codec.bufferEncode (clientDataJSON cred))
  /\ length (List.filter asks_platform t) <= 1
  /\ length (List.filter posts_attestation t) <= 1.
Proof.
  cbv zeta.
  destruct (registerWebauthn_calls_made env) as (Hasked & Hposted & Hone & Hone').
  split; [exact Hasked|]. split; [|split; assumption].
  intros before later url i r ty a cj Ht. split.
  - apply (TraceFacts.only_after_split asks_platform posts_attestation
             _ before later _ false (registerWebauthn_asks_first env) Ht).
    reflexivity.
  - apply Hposted. rewrite Ht. apply in_elt.
Qed.

(** X7.  When the challenge of the fetched options has a [-] or a [_] in
    it, the registration stops at the decoding: the platform is not asked,
    nothing is posted, [InvalidCharacterError] is logged and the failure is
    alerted. *)
Theorem registerWebauthn_url_safe_challenge (env : ceremony)
    (options : creation_options) (c : ascii) :
  begin_json env = Ok options ->
  In c (challenge options) ->
  c = "-"%char \/ c = "_"%char ->
  registerWebauthn env
  = [Prompt "Username:";
     FetchRegisterBegin "http://127.0.0.1:8200/v1/auth/webauthn/register/begin"
       (prompted env);
     ConsoleLog InvalidCharacterError;
     Alert ("failed to register " ++ to_text (prompted env))%string].
Proof.
  intros Eb Hin Hc.
  pose proof (CodecMore.bufferDecode_refuses _ c Hin Hc) as Ec.
  run_chain. reflexivity.
Qed.

Lemma registerWebauthn_url_safe_challenge_witness :
  registerWebauthn challenge_with_dash
  = [Prompt "Username:";
     FetchRegisterBegin "http://127.0.0.1:8200/v1/auth/webauthn/register/begin"
       (Str "alice");
     ConsoleLog InvalidCharacterError;
     Alert "failed to register alice"].
Proof.
  apply (registerWebauthn_url_safe_challenge challenge_with_dash
           {| challenge := list_ascii_of_string "-w";
              user_id := list_ascii_of_string "YWxpY2U";
              excludeCredentials := None |} "-"%char).
  - reflexivity.
  - simpl. left. reflexivity.
  - left. reflexivity.
Defined.

(** X8.  After [renewToken] the menu shows the renewal as running whatever
    the auth service says, and no renewal call is made before the 200 ms
    delay.  When the renewal resolves, the flag takes the value of
    [auth.isRenewing]; when it rejects, the flag stays raised and the menu
    keeps showing the renewal as running. *)
Theorem renewToken_flag (c : component) (e : exn) (at_resolve later_on : bool) :
  let clicked := fst (renewToken c) in
  snd (renewToken c) = [Later 200%N]
  /\ (forall auth_isRenewing, isRenewing clicked auth_isRenewing = true)
  /\ snd (renewToken_later clicked) = [AuthRenew]
  /\ isRenewing (renewToken_settle (Ok tt) at_resolve clicked) later_on
     = (at_resolve || later_on)%bool
  /\ isRenewing (renewToken_settle (Throw e) at_resolve clicked) later_on = true.
Proof. repeat split. Qed.

End AuthInfoFacts.

(* ===================================================================== *)
(** ** The WebAuthn login ceremony *)
(* ===================================================================== *)

Module CeremonyFacts.
Import AuthForm Observations MoreObservations Rules.

#[local] Opaque Codec.bufferEncode Codec.bufferDecode.

(** *** The calls and the outcome of a piece of code, link by link *)

Lemma calls_call {B} (e : effect) (k : unit -> M B) (c : component) :
  calls (bind (call e) k c) = e :: calls (k tt c).
Proof. reflexivity. Qed.

Lemma res_call {B} (e : effect) (k : unit -> M B) (c : component) :
  res (bind (call e) k c) = res (k tt c).
Proof. reflexivity. Qed.

Lemma calls_answered {A B} (a : A) (k : A -> M B) (c : component) :
  calls (bind (lift (Ok a)) k c) = calls (k a c).
Proof. reflexivity. Qed.

Lemma res_answered {A B} (a : A) (k : A -> M B) (c : component) :
  res (bind (lift (Ok a)) k c) = res (k a c).
Proof. reflexivity. Qed.

Lemma calls_refused {A B} (e : exn) (k : A -> M B) (c : component) :
  calls (bind (lift (Throw e)) k c) = [].
Proof. reflexivity. Qed.

Lemma res_refused {A B} (e : exn) (k : A -> M B) (c : component) :
  res (bind (lift (Throw e)) k c) = Throw e.
Proof. reflexivity. Qed.

Lemma calls_try_catch {A} (m : M A) (h : exn -> M A) (c : component) :
  calls (try_catch m h c)
  = calls (m c) ++ match res (m c) with
                   | Ok _ => []
                   | Throw e => calls (h e (after (m c)))
                   end.
Proof.
  unfold try_catch. destruct (res (m c)); [rewrite app_nil_r|]; reflexivity.
Qed.

(** *** Pieces of code that only make calls of one kind *)

Section Only.
Context (p : effect -> bool).

Lemma only_elim {A} (m : M A) : only p m -> forall c, forallb p (calls (m c)) = true.
Proof. intros [H]. exact H. Qed.

Lemma only_ret {A} (a : A) : only p (ret a).
Proof. constructor. reflexivity. Qed.

Lemma only_throw {A} (e : exn) : only p (@throw A e).
Proof. constructor. reflexivity. Qed.

Lemma only_read {A} (g : component -> A) : only p (read g).
Proof. constructor. reflexivity. Qed.

Lemma only_modify (g : component -> component) : only p (modify g).
Proof. constructor. reflexivity. Qed.

Lemma only_lift {A} (r : result A) : only p (lift r).
Proof. constructor. intros c. destruct r; reflexivity. Qed.

Lemma only_lift_read {A} (g : component -> result A) :
  only p (fun c => lift (g c) c).
Proof. constructor. intros c. destruct (g c); reflexivity. Qed.

Lemma only_call (e : effect) : p e = true -> only p (call e).
Proof. intros H. constructor. intros c. simpl. rewrite H. reflexivity. Qed.

Lemma only_bind {A B} (m : M A) (k : A -> M B) :
  only p m -> (forall a, only p (k a)) -> only p (bind m k).
Proof.
  intros [Hm] Hk. constructor. intros c. unfold bind.
  destruct (res (m c)) as [a|e]; simpl.
  - rewrite forallb_app, Hm, (only_elim _ (Hk a)). reflexivity.
  - apply Hm.
Qed.

Lemma only_try_catch {A} (m : M A) (h : exn -> M A) :
  only p m -> (forall e, only p (h e)) -> only p (try_catch m h).
Proof.
  intros [Hm] Hh. constructor. intros c. unfold try_catch.
  destruct (res (m c)) as [a|e]; simpl.
  - apply Hm.
  - rewrite forallb_app, Hm, (only_elim _ (Hh e)). reflexivity.
Qed.

Lemma only_when (b : bool) (m : M unit) : only p m -> only p (when b m).
Proof. intros Hm. destruct b; [exact Hm | apply only_ret]. Qed.
End Only.

Ltac branch_only :=
  repeat first
    [ apply only_bind; [| intros ? ]
    | apply only_try_catch; [| intros ? ]
    | apply only_when
    | apply only_ret | apply only_throw | apply only_read | apply only_modify
    | apply only_lift | apply only_lift_read
    | apply only_call; reflexivity
    | match goal with
      | |- only _ (match ?x with _ => _ end) => destruct x
      | |- only _ (if ?b then _ else _) => destruct b
      end ].

(** A trace with only calls of one kind has none of another. *)
Lemma forallb_excludes (p q : effect -> bool) (l : list effect) :
  (forall e, p e = true -> q e = false) ->
  forallb p l = true -> List.filter q l = [].
Proof.
  intros Hpq. induction l as [|e l IH]; simpl; [reflexivity|].
  intros H. apply andb_true_iff in H as [He Hl].
  rewrite (Hpq e He). apply IH, Hl.
Qed.

(** The calls of the ceremony. *)
Definition of_ceremony (e : effect) : bool :=
  match e with
  | PreventDefault | ConsoleLog | ConsoleError _ | FetchGet _ | FetchPost _ _
  | CredentialsGet _ _ => true
  | _ => false
  end.

(** X9.  The WebAuthn login ceremony never signs the user in and never
    fails aloud: whatever its collaborators answer, the task returns, the
    component is left exactly as it was (no token, no error message, no
    loading flag is written), and no call to [auth.authenticate] or to
    [onSuccess] is made, also when every step succeeded. *)
Theorem webauthnAuthenticate_never_signs_in (env : ceremony) (c : component) :
  let o := webauthnAuthenticate env c in
  res o = Ok tt
  /\ after o = c
  /\ List.filter signs_in (calls o) = []
  /\ authenticate_calls (calls o) = [].
Proof.
  cbv zeta.
  assert (Hkeeps : keeps (fun c => c) (webauthnAuthenticate env)).
  { unfold webauthnAuthenticate, webauthnAuthenticate_perform, webauthnAuthenticate_chain.
    branch_keeps. }
  assert (Honly : only of_ceremony (webauthnAuthenticate env)).
  { unfold webauthnAuthenticate, webauthnAuthenticate_perform, webauthnAuthenticate_chain.
    branch_only. }
  assert (Hnone : List.filter signs_in (calls (webauthnAuthenticate env c)) = []).
  { apply (forallb_excludes of_ceremony); [|apply (only_elim _ _ Honly)].
    intros e He. destruct e; try reflexivity; discriminate He. }
  split; [|split; [apply (keeps_elim _ _ Hkeeps)|split; [exact Hnone|]]].
  - unfold webauthnAuthenticate.
    erewrite res_bind_ok by reflexivity.
    unfold webauthnAuthenticate_chain, try_catch.
    match goal with |- res (match res ?x with _ => _ end) = _ =>
      destruct x as [[[]|e] st tr] end; reflexivity.
  - revert Hnone. generalize (calls (webauthnAuthenticate env c)).
    intros l. induction l as [|e l IH]; simpl; [reflexivity|].
    destruct e; simpl; try exact IH; discriminate.
Qed.

Lemma calls_lift {A} (r : result A) (c : component) : calls (lift r c) = [].
Proof. destruct r; reflexivity. Qed.

Lemma res_lift {A} (r : result A) (c : component) : res (lift r c) = r.
Proof. destruct r; reflexivity. Qed.

(** The ceremony, answer by answer. *)
Ltac run_login :=
  unfold webauthnAuthenticate;
  erewrite calls_bind_ok by reflexivity;
  unfold webauthnAuthenticate_chain; rewrite calls_try_catch;
  repeat first
    [ rewrite calls_call | rewrite res_call
    | rewrite calls_answered | rewrite res_answered
    | rewrite calls_refused | rewrite res_refused
    | rewrite calls_lift | rewrite res_lift
    | match goal with
      | H : _ = Ok _ |- _ => rewrite H
      | H : _ = Throw _ |- _ => rewrite H
      end ];
  cbn [calls after res call app webauthnAuthenticate_perform bind read ret].

Ltac in_login H :=
  simpl in H;
  repeat match type of H with
         | _ \/ _ => destruct H as [H|H]
         | False => destruct H
         end;
  try discriminate H.

(** The calls of the login ceremony and what they carry. *)
Lemma webauthnAuthenticate_calls_made (env : ceremony) (c : component) :
  let t := calls (webauthnAuthenticate env c) in
  (forall ch ids, In (CredentialsGet ch ids) t ->
     exists options,
       begin_json env = Ok options
       /\ Codec.bufferDecode (challenge options) = Ok ch
       /\ decode_each (allowCredentials options) = Ok ids)
  /\ (forall url body, In (FetchPost url body) t ->
       existsb asks_platform t = true
       /\ url = ("/login/finish/" ++ to_text (username c))%string
       /\ exists a,
            credentials_get env = Ok a
            /\ body = {| body_id := assertion_id a;
                         body_rawId := Codec.bufferEncode (rawId a);
                         body_type := assertion_type a;
                         body_authenticatorData := Codec.bufferEncode (authenticatorData a);
                         body_clientDataJSON := Codec.bufferEncode (clientDataJSON a);
                         body_signature := Codec.bufferEncode (signature a);
                         body_userHandle := Codec.bufferEncode (userHandle a) |})
  /\ length (List.filter asks_platform t) <= 1
  /\ length (List.filter posts_assertion t) <= 1.
Proof.
  cbv zeta.
  destruct (begin_json env) as [options|e] eqn:Eb; cycle 1.
  { run_login. repeat split; try (simpl; lia); intros; in_login H. }
  destruct (Codec.bufferDecode (challenge options)) as [decoded|e] eqn:Ec; cycle 1.
  { run_login. repeat split; try (simpl; lia); intros; in_login H. }
  destruct (decode_each (allowCredentials options)) as [allowed|e] eqn:Ea; cycle 1.
  { run_login. repeat split; try (simpl; lia); intros; in_login H. }
  assert (Hasked : forall ch ids,
    CredentialsGet decoded allowed = CredentialsGet ch ids ->
    exists options0,
      Ok options = Ok options0
      /\ Codec.bufferDecode (challenge options0) = Ok ch
      /\ decode_each (allowCredentials options0) = Ok ids).
  { intros ch ids H. inversion H; subst. exists options. repeat split; assumption. }
  destruct (credentials_get env) as [a|e] eqn:Eg; cycle 1.
  { run_login. repeat split; try (simpl; lia); intros; in_login H. apply Hasked, H. }
  assert (Hposted : forall url body,
    FetchPost ("/login/finish/" ++ to_text (username c))%string
      {| body_id := assertion_id a;
         body_rawId := Codec.bufferEncode (rawId a);
         body_type := assertion_type a;
         body_authenticatorData := Codec.bufferEncode (authenticatorData a);
         body_clientDataJSON := Codec.bufferEncode (clientDataJSON a);
         body_signature := Codec.bufferEncode (signature a);
         body_userHandle := Codec.bufferEncode (userHandle a) |}
    = FetchPost url body ->
    url = ("/login/finish/" ++ to_text (username c))%string
    /\ exists a0,
         Ok a = Ok a0
         /\ body = {| body_id := assertion_id a0;
                      body_rawId := Codec.bufferEncode (rawId a0);
                      body_type := assertion_type a0;
                      body_authenticatorData := Codec.bufferEncode (authenticatorData a0);
                      body_clientDataJSON := Codec.bufferEncode (clientDataJSON a0);
                      body_signature := Codec.bufferEncode (signature a0);
                      body_userHandle := Codec.bufferEncode (userHandle a0) |}).
  { intros url body H. inversion H; subst. split; [reflexivity|].
    exists a. split; reflexivity. }
  destruct (finish_json env) as [[]|e] eqn:Ef.
  - run_login. split; [|split; [|split]]; try (simpl; lia).
    + intros ch ids H. in_login H. apply Hasked, H.
    + intros url body H. in_login H. split; [reflexivity|]. apply Hposted, H.
  - run_login. split; [|split; [|split]]; try (simpl; lia).
    + intros ch ids H. in_login H. apply Hasked, H.
    + intros url body H. in_login H. split; [reflexivity|]. apply Hposted, H.
Qed.

(** In every run the platform is asked before anything is posted. *)
Lemma webauthnAuthenticate_asks_first (env : ceremony) (c : component) :
  Traces.only_after asks_platform posts_assertion false
    (calls (webauthnAuthenticate env c)) = true.
Proof.
  destruct (begin_json env) as [options|e] eqn:Eb; cycle 1.
  { run_login. reflexivity. }
  destruct (Codec.bufferDecode (challenge options)) as [decoded|e] eqn:Ec; cycle 1.
  { run_login. reflexivity. }
  destruct (decode_each (allowCredentials options)) as [allowed|e] eqn:Ea; cycle 1.
  { run_login. reflexivity. }
  destruct (credentials_get env) as [a|e] eqn:Eg; cycle 1.
  { run_login. reflexivity. }
  destruct (finish_json env) as [[]|e] eqn:Ef; run_login; reflexivity.
Qed.

(** X10.  In every run of the login ceremony the platform is asked at most
    once and only with the challenge and every allowed credential id
    decoded from the fetched options; the assertion is posted at most once,
    and wherever it stands in the trace the platform was asked before it
    and returned an assertion: it is posted to [/login/finish/] followed by
    the username read at the start, with the raw id, authenticator data,
    client data, signature and user handle of that assertion encoded by
    [bufferEncode]. *)
Theorem webauthnAuthenticate_steps_in_order (env : ceremony) (c : component) :
  let t := calls (webauthnAuthenticate env c) in
  (forall ch ids, In (CredentialsGet ch ids) t ->
     exists options,
       begin_json env = Ok options
       /\ Codec.bufferDecode (challenge options) = Ok ch
       /\ decode_each (allowCredentials options) = Ok ids)
  /\ (forall before later url body,
       t = before ++ FetchPost url body :: later ->
       existsb asks_platform before = true
       /\ url = ("/login/finish/" ++ to_text (username c))%string
       /\ exists a,
            credentials_get env = Ok a
            /\ body = {| body_id := assertion_id a;
                         body_rawId := Codec.bufferEncode (rawId a);
                         body_type := assertion_type a;
                         body_authenticatorData := Codec.bufferEncode (authenticatorData a);
                         body_clientDataJSON := Codec.bufferEncode (clientDataJSON a);
                         body_signature := Codec.bufferEncode (signature a);
                         body_userHandle := Codec.bufferEncode (userHandle a) |})
  /\ length (List.filter asks_platform t) <= 1
  /\ length (List.filter posts_assertion t) <= 1.
Proof.
  cbv zeta.
  destruct (webauthnAuthenticate_calls_made env c) as (Hasked & Hposted & Hone & Hone').
  split; [exact Hasked|]. split; [|split; assumption].
  intros before later url body Ht. split.
  - apply (TraceFacts.only_after_split asks_platform posts_assertion
             _ before later _ false (webauthnAuthenticate_asks_first env c) Ht).
    reflexivity.
  - apply Hposted. rewrite Ht. apply in_elt.
Qed.

Lemma decode_each_refuses (l : list Codec.text) (id : Codec.text) (e : exn) :
  In id l -> Codec.bufferDecode id = Throw e ->
  decode_each l = Throw InvalidCharacterError.
Proof.
  intros Hin Hid. induction l as [|x l IH]; [destruct Hin|].
  simpl. destruct (Codec.bufferDecode x) as [b|e'] eqn:Ex.
  - destruct Hin as [->|Hin]; [congruence|]. rewrite (IH Hin). reflexivity.
  - rewrite (CodecMore.bufferDecode_throws _ _ Ex). reflexivity.
Qed.

(** X11.  When the challenge of the fetched options, or the id of one of
    its allowed credentials, has a [-] or a [_] in it, the login ceremony
    stops at the decoding: after the request to [/login/begin] the only
    call is the logging of [InvalidCharacterError]; the platform is not
    asked and nothing is posted. *)
Theorem webauthnAuthenticate_url_safe_options (env : ceremony) (c : component)
    (options : request_options) (x : ascii) :
  begin_json env = Ok options ->
  In x (challenge options)
  \/ (exists id, In id (allowCredentials options) /\ In x id) ->
  x = "-"%char \/ x = "_"%char ->
  calls (webauthnAuthenticate env c)
  = [PreventDefault; ConsoleLog;
     FetchGet ("/login/begin/" ++ to_text (username c));
     ConsoleError InvalidCharacterError].
Proof.
  intros Eb Hin Hx.
  destruct (Codec.bufferDecode (challenge options)) as [decoded|e] eqn:Ec.
  - destruct Hin as [Hin|[id [Hid Hin]]].
    + rewrite (CodecMore.bufferDecode_refuses _ x Hin Hx) in Ec. discriminate.
    + pose proof (decode_each_refuses _ id _ Hid
                    (CodecMore.bufferDecode_refuses _ x Hin Hx)) as Ea.
      run_login. reflexivity.
  - pose proof (CodecMore.bufferDecode_throws _ _ Ec) as ->.
    run_login. reflexivity.
Qed.

Lemma webauthnAuthenticate_url_safe_options_witness :
  calls (webauthnAuthenticate challenge_with_dash (set_username (Str "alice") initial))
  = [PreventDefault; ConsoleLog; FetchGet "/login/begin/alice";
     ConsoleError InvalidCharacterError].
Proof.
  apply (webauthnAuthenticate_url_safe_options challenge_with_dash
           (set_username (Str "alice") initial)
           {| challenge := list_ascii_of_string "-w"; allowCredentials := [] |}
           "-"%char).
  - reflexivity.
  - left. simpl. left. reflexivity.
  - left. reflexivity.
Defined.

End CeremonyFacts.

(* ===================================================================== *)
(** ** The submit step in general *)
(* ===================================================================== *)

Section Submit.
Variable BACKENDS : list backend.
Variable testing : bool.

Import MoreObservations.

Lemma bind_call {B} (e : effect) (k : unit -> M B) (c : component) :
  bind (call e) k c = prepend [e] (k tt c).
Proof. reflexivity. Qed.

Lemma prepend_nil {A} (o : out A) : prepend [] o = o.
Proof. destruct o. reflexivity. Qed.

Lemma bind_throw {A B} (m : M A) (k : A -> M B) (c : component) (e : exn) :
  res (m c) = Throw e ->
  bind m k c = {| res := Throw e; after := after (m c); calls := calls (m c) |}.
Proof. intros H. unfold bind. rewrite H. reflexivity. Qed.

(** The steps of [doSubmit] after the event: each returns without a call,
    or throws. *)
Ltac submit_leaf :=
  erewrite bind_silent by reflexivity; erewrite bind_silent by reflexivity;
  unfold submit_data, submit_path, submit_attributes; reflexivity.

Ltac submit_steps c1 :=
  rewrite (bind_silent _ _ _ tt) by reflexivity;
  change (after (modify (setProperties [("error", Null)]) _)) with c1;
  unfold submit_backend;
  let provider := fresh "provider" in
  let backend := fresh "backend" in
  let l := fresh "l" in
  let e := fresh "e" in
  let Ep := fresh "Ep" in
  let Eg := fresh "Eg" in
  destruct (providerName BACKENDS c1) as [provider|e] eqn:Ep;
  [ rewrite (bind_silent _ _ _ provider) by (rewrite Ep; reflexivity);
    rewrite Ep; change (after (lift (Ok provider) c1)) with c1;
    destruct (strict_eq provider (Str "oidc"));
    [ destruct (getAuthBackend BACKENDS (Str "token") c1) as [backend|e] eqn:Eg;
      [ rewrite (bind_silent _ _ _ backend) by (rewrite Eg; reflexivity);
        rewrite Eg; change (after (lift (Ok backend) c1)) with c1;
        destruct backend; [submit_leaf | submit_leaf | reflexivity]
      | rewrite (bind_throw _ _ _ e) by (rewrite Eg; reflexivity);
        rewrite Eg; reflexivity ]
    | destruct (selectedAuthBackend BACKENDS c1) as [l|e] eqn:Eg;
      [ rewrite (bind_silent _ _ _ (lookup_or_empty l))
          by (unfold bind; rewrite Eg; reflexivity);
        replace (after (bind (fun c => lift (selectedAuthBackend BACKENDS c) c)
                             (fun l => ret (lookup_or_empty l)) c1))
          with c1 by (unfold bind; rewrite Eg; reflexivity);
        destruct l; cbn [lookup_or_empty]; submit_leaf
      | rewrite (bind_throw _ _ _ e) by (unfold bind; rewrite Eg; reflexivity);
        unfold bind; rewrite Eg; reflexivity ] ]
  | rewrite (bind_throw _ _ _ e) by (rewrite Ep; reflexivity);
    rewrite Ep; reflexivity ].

(** [doSubmit], step by step: the event is stopped, [error] is cleared, the
    backend is resolved, and [authenticate] is performed with the gathered
    data. *)
Lemma doSubmit_out (args : submit_args) (c : component) :
  let c1 := setProperties [("error", Null)] c in
  doSubmit BACKENDS testing args c
  = prepend (if submit_event args then [PreventDefault] else [])
      match submit_backend BACKENDS c1 with
      | Throw e => {| res := Throw e; after := c1; calls := [] |}
      | Ok NotFound => {| res := Throw TypeError; after := c1; calls := [] |}
      | Ok backend =>
          authenticate_perform testing (lookup_type backend)
            (submit_data BACKENDS backend (submit_passedData args) c1) c1
      end.
Proof.
  cbv zeta. set (c1 := setProperties [("error", Null)] c).
  unfold AuthForm.doSubmit.
  destruct args as [|[]|passedData []]; cbv beta iota zeta;
    cbn [submit_event submit_passedData when].
  - rewrite (bind_silent _ _ _ tt) by reflexivity. rewrite prepend_nil.
    change (after (ret tt c)) with c. submit_steps c1.
  - rewrite bind_call. f_equal. submit_steps c1.
  - rewrite (bind_silent _ _ _ tt) by reflexivity. rewrite prepend_nil.
    change (after (ret tt c)) with c. submit_steps c1.
  - rewrite bind_call. f_equal. submit_steps c1.
  - rewrite (bind_silent _ _ _ tt) by reflexivity. rewrite prepend_nil.
    change (after (ret tt c)) with c. submit_steps c1.
Qed.

Lemma authenticate_perform_no_cluster (backendType : value)
    (data : gmap string value) (c : component) :
  cluster c = None ->
  authenticate_perform testing backendType data c
  = {| res := Ok None; after := c; calls := [] |}.
Proof.
  intros Hcl. unfold authenticate_perform.
  rewrite (bind_silent _ _ _ (selectedAuth c)) by reflexivity.
  rewrite (bind_silent _ _ _ None) by (cbn; rewrite ?Hcl; reflexivity).
  reflexivity.
Qed.

Lemma authenticate_calls_prepend_event {A} (b : bool) (o : out A) :
  authenticate_calls (calls (prepend (if b then [PreventDefault] else []) o))
  = authenticate_calls (calls o).
Proof. destruct b; reflexivity. Qed.

(** The authenticate calls of a submit: none, or the one made for the
    resolved backend. *)
Lemma doSubmit_authenticate_calls (args : submit_args) (c : component) :
  let c1 := setProperties [("error", Null)] c in
  authenticate_calls (calls (doSubmit BACKENDS testing args c))
  = match submit_backend BACKENDS c1, cluster c with
    | Ok NotFound, _ | Throw _, _ | _, None => []
    | Ok backend, Some cl =>
        [{| clusterId := cluster_id cl;
            backend_param := lookup_type backend;
            data_param := submit_data BACKENDS backend (submit_passedData args) c1;
            selectedAuth_param := selectedAuth c |}]
    end.
Proof.
  cbv zeta. rewrite doSubmit_out. cbv zeta. rewrite authenticate_calls_prepend_event.
  set (c1 := setProperties [("error", Null)] c).
  assert (Hcl : cluster c1 = cluster c) by (destruct c; reflexivity).
  assert (Hsa : selectedAuth c1 = selectedAuth c) by (destruct c; reflexivity).
  destruct (submit_backend BACKENDS c1) as [[b| |]|e];
    destruct (cluster c) as [cl|] eqn:E; try reflexivity.
  all: first
    [ rewrite (authenticate_perform_out testing _ _ c1 cl Hcl), Hsa;
      destruct testing; reflexivity
    | rewrite (authenticate_perform_no_cluster _ _ c1 Hcl); reflexivity ].
Qed.

Lemma getProperties_lookup_inv (c : component) (names : list string)
    (k : string) (v : value) :
  getProperties c names !! k = Some v -> v = getProperty c k /\ In k names.
Proof.
  unfold getProperties.
  assert (G : forall (names : list string) (o : gmap string value),
    fold_left (fun o k => <[k := getProperty c k]> o) names o !! k = Some v ->
    (v = getProperty c k /\ In k names) \/ o !! k = Some v).
  { intros l. induction l as [|n l IH]; intros o H; simpl in *; [right; exact H|].
    destruct (IH _ H) as [[Hv Hin]|Ho]; [left; split; [exact Hv | right; exact Hin]|].
    destruct (decide (n = k)) as [->|Hne].
    - rewrite lookup_insert_eq in Ho. left. split; [congruence | left; reflexivity].
    - rewrite lookup_insert_ne in Ho by exact Hne. right. exact Ho. }
  intros H. destruct (G _ _ H) as [Hv|He]; [exact Hv|].
  rewrite lookup_empty in He. discriminate.
Qed.

(** X12.  A submit makes at most one call to [auth.authenticate]: none when
    the component has no cluster, none when it throws; the one it makes
    carries the id of the cluster and the [selectedAuth] key of the
    component. *)
Theorem doSubmit_authenticates_at_most_once (args : submit_args) (c : component) :
  let made := authenticate_calls (calls (doSubmit BACKENDS testing args c)) in
  length made <= 1
  /\ (cluster c = None -> made = [])
  /\ (forall e, res (doSubmit BACKENDS testing args c) = Throw e -> made = [])
  /\ (forall p, In p made ->
       selectedAuth_param p = selectedAuth c
       /\ exists cl, cluster c = Some cl /\ clusterId p = cluster_id cl).
Proof.
  cbv zeta. rewrite doSubmit_authenticate_calls. cbv zeta.
  set (c1 := setProperties [("error", Null)] c).
  split; [|split; [|split]].
  - destruct (submit_backend BACKENDS c1) as [[b| |]|e], (cluster c); simpl; lia.
  - intros ->. destruct (submit_backend BACKENDS c1) as [[b| |]|e]; reflexivity.
  - intros e. rewrite doSubmit_out. cbv zeta. fold c1. unfold prepend. cbn [res].
    assert (Hcl : cluster c1 = cluster c) by (destruct c; reflexivity).
    destruct (submit_backend BACKENDS c1) as [[b| |]|e'];
      destruct (cluster c) as [cl|] eqn:E; try reflexivity.
    all: rewrite (authenticate_perform_out testing _ _ c1 cl Hcl); discriminate.
  - intros p Hp.
    destruct (submit_backend BACKENDS c1) as [[b| |]|e'];
      destruct (cluster c) as [cl|] eqn:E; simpl in Hp; try contradiction.
    all: destruct Hp as [<-|[]]; split; [reflexivity|]; exists cl; split; reflexivity.
Qed.

(** X13.  In the data of the authenticate call a submit makes: a custom
    path that is not empty is sent as [path], whatever the passed data and
    the backend; passed data take precedence over the form fields, for
    every key but [path]; and every entry is the [path], a passed entry, or
    the value the component holds for a declared form attribute. *)
Theorem doSubmit_data_precedence (args : submit_args) (c : component) :
  Forall (fun p =>
    (truthy (customPath c) = true -> data_param p !! "path" = Some (customPath c))
    /\ (forall pd k v, submit_passedData args = Some pd -> pd !! k = Some v ->
         k <> "path" -> data_param p !! k = Some v)
    /\ (forall k v, data_param p !! k = Some v ->
         k = "path"
         \/ (exists pd, submit_passedData args = Some pd /\ pd !! k = Some v)
         \/ v = getProperty (set_error Null c) k))
    (authenticate_calls (calls (doSubmit BACKENDS testing args c))).
Proof.
  apply List.Forall_forall.
  intros p. rewrite doSubmit_authenticate_calls. cbv zeta.
  change (setProperties [("error", Null)] c) with (set_error Null c).
  set (c1 := set_error Null c).
  assert (Hcp : customPath c1 = customPath c) by (destruct c; reflexivity).
  intros Hp.
  assert (Hdata : exists backend,
    data_param p = submit_data BACKENDS backend (submit_passedData args) c1).
  { destruct (submit_backend BACKENDS c1) as [[b| |]|e];
      destruct (cluster c) as [cl|]; simpl in Hp; try contradiction.
    all: destruct Hp as [<-|[]]; eexists; reflexivity. }
  destruct Hdata as [backend ->]. clear Hp.
  unfold submit_data, submit_path, assign. rewrite Hcp.
  split; [|split].
  - intros Hc. unfold or_else. rewrite Hc, Hc. apply lookup_insert_eq.
  - intros pd k v -> Hk Hne.
    destruct (truthy _); [rewrite lookup_insert_ne by congruence|];
      apply lookup_union_Some_l; exact Hk.
  - intros k v H.
    destruct (decide (k = "path")) as [->|Hne]; [left; reflexivity|right].
    assert (H' : (match submit_passedData args with
                  | Some pd => pd ∪ (getProperties c1 (submit_attributes BACKENDS backend) ∪ ∅)
                  | None => getProperties c1 (submit_attributes BACKENDS backend) ∪ ∅
                  end) !! k = Some v).
    { destruct (truthy _); [rewrite lookup_insert_ne in H by congruence|]; exact H. }
    clear H. rewrite (right_id_L ∅ (∪)) in H'.
    destruct (submit_passedData args) as [pd|].
    + apply lookup_union_Some_raw in H' as [H'|[_ H']].
      * left. exists pd. split; [reflexivity | exact H'].
      * right. apply getProperties_lookup_inv in H'. apply H'.
    + right. apply getProperties_lookup_inv in H'. apply H'.
Qed.

(** X14.  With the selection naming a mount by its path (a key ending in
    [/]) that Method Discovery reported, and the provider of that mount not
    ['oidc'], a submit on a component with its cluster makes one
    authenticate call, for the type of that mount and under the selected
    key; its [path] is the custom path when there is one, and otherwise the
    id of the mount when it has one. *)
Theorem doSubmit_mount_path (args : submit_args) (c : component)
    (ms : list backend) (m : backend) (s : string) (cl : cluster_model) :
  methods c = Some ms ->
  selectedAuth c = Str s ->
  ends_with_slash s = true ->
  findBy_path ms (Str s) = Some m ->
  cluster c = Some cl ->
  String.eqb (dasherize (toLowerCase (to_text (or_else (Str (type m)) (Str "token")))))
             "oidc" = false ->
  exists p,
    authenticate_calls (calls (doSubmit BACKENDS testing args c)) = [p]
    /\ backend_param p = Str (type m)
    /\ selectedAuth_param p = Str s
    /\ clusterId p = cluster_id cl
    /\ (truthy (customPath c) = true -> data_param p !! "path" = Some (customPath c))
    /\ (truthy (customPath c) = false -> truthy (id m) = true ->
        data_param p !! "path" = Some (id m)).
Proof.
  intros Hms Hsel Hslash Hm Hcl Hprov.
  rewrite doSubmit_authenticate_calls. cbv zeta.
  change (setProperties [("error", Null)] c) with (set_error Null c).
  set (c1 := set_error Null c).
  assert (Hms1 : methods c1 = Some ms) by (destruct c; exact Hms).
  assert (Hsel1 : selectedAuth c1 = Str s) by (destruct c; exact Hsel).
  assert (Hcp : customPath c1 = customPath c) by (destruct c; reflexivity).
  assert (Hsab : selectedAuthBackend BACKENDS c1 = Ok (Found m)).
  { unfold selectedAuthBackend, getAuthBackend, selectedAuthIsPath.
    rewrite Hms1, Hsel1, Hslash. simpl. unfold or_else. simpl. rewrite Hm. reflexivity. }
  assert (Hback : submit_backend BACKENDS c1 = Ok (Found m)).
  { unfold submit_backend, providerName. rewrite Hsab. cbn [lookup_type].
    unfold strict_eq. rewrite bool_decide_eq_false_2.
    - reflexivity.
    - intros H. inversion H as [H']. rewrite H' in Hprov. discriminate. }
  rewrite Hback, Hcl, Hsel. eexists. split; [reflexivity|].
  cbn [backend_param selectedAuth_param clusterId data_param lookup_type].
  repeat split.
  - intros Hc. unfold submit_data, submit_path, or_else. rewrite Hcp, Hc, Hc.
    apply lookup_insert_eq.
  - intros Hc Hid. unfold submit_data, submit_path, or_else. cbn [lookup_id].
    rewrite Hcp, Hc, Hid. apply lookup_insert_eq.
Qed.

End Submit.

Lemma doSubmit_mount_path_witness :
  exists p,
    authenticate_calls (calls (doSubmit sample_catalog false (OneArgument true)
                                 MoreObservations.selected_foo)) = [p]
    /\ backend_param p = Str "userpass"
    /\ selectedAuth_param p = Str "foo/"
    /\ data_param p !! "path" = Some (Str "foo").
Proof.
  destruct (doSubmit_mount_path sample_catalog false (OneArgument true)
              MoreObservations.selected_foo
              [{| type := "userpass"; path := Str "foo/"; id := Str "foo";
                  description := Undefined; mountDescription := Undefined;
                  formAttributes := [] |}]
              MoreObservations.foo_mount "foo/" {| cluster_id := Str "1" |})
    as (p & Hp & Hb & Hs & _ & _ & Hpath); try reflexivity.
  exists p. repeat split; try assumption. apply Hpath; reflexivity.
Defined.

(* ===================================================================== *)
(** ** The outcomes of the Token Unwrap operation *)
(* ===================================================================== *)

Section UnwrapOutcomes.
Variable BACKENDS : list backend.
Variable testing : bool.

Import MoreObservations.

(** Without a cluster a submit makes no call but the stopping of its event,
    and writes nothing but the cleared [error]. *)
Lemma doSubmit_no_cluster (args : submit_args) (c : component) :
  cluster c = None ->
  calls (doSubmit BACKENDS testing args c)
  = (if submit_event args then [PreventDefault] else [])
  /\ after (doSubmit BACKENDS testing args c) = setProperties [("error", Null)] c.
Proof.
  intros Hcl. rewrite doSubmit_out. cbv zeta.
  set (c1 := setProperties [("error", Null)] c).
  assert (Hcl1 : cluster c1 = None) by (subst c1; destruct c; exact Hcl).
  unfold prepend. cbn [calls after].
  destruct (submit_backend BACKENDS c1) as [[b| |]|e];
    rewrite ?(authenticate_perform_no_cluster testing _ _ c1 Hcl1);
    cbn [calls after]; rewrite app_nil_r; split; reflexivity.
Qed.

Lemma unwrapToken_no_cluster (wrapped client_token : value) (c : component) :
  cluster c = None ->
  let o := unwrapToken BACKENDS testing wrapped (Ok client_token) c in
  token (after o) = client_token
  /\ calls o = [ToolActionUnwrap wrapped].
Proof.
  intros Hcl. cbv zeta.
  set (c0 := set_selectedAuth (Str "token") c).
  set (c2 := set_token client_token c0).
  assert (Hcl2 : cluster c2 = None) by (subst c2 c0; destruct c; exact Hcl).
  destruct (doSubmit_no_cluster NoArguments c2 Hcl2) as [Hcalls Hafter].
  cbn [submit_event] in Hcalls.
  unfold AuthForm.unwrapToken.
  rewrite (after_bind_ok _ _ _ tt) by reflexivity.
  rewrite (calls_bind_ok _ _ _ tt) by reflexivity.
  change (after (unwrapToken_perform wrapped c)) with c0.
  cbn [calls unwrapToken_perform].
  unfold unwrapToken_settle.
  assert (Hbody :
    bind (lift (Ok client_token))
      (fun t => bind (modify (set_token t))
         (fun _ => bind (doSubmit BACKENDS testing NoArguments) (fun _ => ret tt))) c0
    = bind (doSubmit BACKENDS testing NoArguments) (fun _ => ret tt) c2).
  { rewrite (bind_silent _ _ _ client_token) by reflexivity.
    rewrite (bind_silent _ _ _ tt) by reflexivity. reflexivity. }
  destruct (doSubmit BACKENDS testing NoArguments c2) as [r a cs] eqn:Ed.
  cbn [calls after] in Hcalls, Hafter. subst a cs.
  assert (Hsettle : forall X (f : out unit -> X),
    f (try_catch
         (bind (lift (Ok client_token))
            (fun t => bind (modify (set_token t))
               (fun _ => bind (doSubmit BACKENDS testing NoArguments) (fun _ => ret tt))))
         (fun e => bind (lift (first_error_text e))
            (fun msg => modify (set_error (Str ("Token unwrap failed: " ++ msg))))) c0)
    = f (match r with
         | Ok _ => {| res := Ok tt; after := setProperties [("error", Null)] c2; calls := [] |}
         | Throw e =>
             match first_error_text e with
             | Ok msg => {| res := Ok tt;
                            after := set_error (Str ("Token unwrap failed: " ++ msg))
                                       (setProperties [("error", Null)] c2);
                            calls := [] |}
             | Throw e' => {| res := Throw e';
                              after := setProperties [("error", Null)] c2; calls := [] |}
             end
         end)).
  { intros X f. f_equal. unfold try_catch. rewrite Hbody.
    unfold bind, lift. cbv beta zeta. rewrite !Ed. cbn [res after calls].
    destruct r as [r|e]; cbn [res after calls ret]; [reflexivity|].
    destruct (first_error_text e); reflexivity. }
  split.
  - rewrite (Hsettle _ after).
    destruct r as [r|e]; [|destruct (first_error_text e)];
      subst c2 c0; destruct c; reflexivity.
  - rewrite (Hsettle _ calls).
    destruct r as [r|e]; [|destruct (first_error_text e)]; reflexivity.
Qed.


(** C3, as the code has it.  With the catalog offering the token backend:
    when the exchange succeeds, [token] is set to the returned client token;
    on a component that holds its cluster (and on which methods are set or a
    wrapped token is present) the submit step then makes exactly one
    authenticate call, whose [data.token] is that client token, while on a
    component without its cluster it makes none.  When the exchange fails,
    [error] is set to "Token unwrap failed: " followed by the first error
    string of the server, and no authenticate call is made. *)
Theorem unwrapToken_exchange_outcomes (wrapped : value) (c : component)
    (b meta : backend) :
  catalog_offers_token BACKENDS b meta ->
  (forall (cl : cluster_model) (client_token : value),
     cluster c = Some cl ->
     backend_resolvable c = true ->
     let o := unwrapToken BACKENDS testing wrapped (Ok client_token) c in
     token (after o) = client_token
     /\ exists p, authenticate_calls (calls o) = [p]
                  /\ prop (data_param p) "token" = client_token)
  /\ (forall client_token : value,
       cluster c = None ->
       let o := unwrapToken BACKENDS testing wrapped (Ok client_token) c in
       token (after o) = client_token
       /\ authenticate_calls (calls o) = [])
  /\ (forall (msg : string) (others : list string),
       let o := unwrapToken BACKENDS testing wrapped
                  (Throw (AdapterError (Some (msg :: others)))) c in
       error (after o) = Str ("Token unwrap failed: " ++ msg)
       /\ authenticate_calls (calls o) = []).
Proof.
  intros Hcat. split; [|split].
  - intros cl client_token Hcl Hres.
    destruct (unwrapToken_success BACKENDS testing wrapped client_token c cl b meta
                Hcl Hres Hcat) as (Ht & _ & p & Hp & Hd & _).
    cbv zeta. split; [exact Ht|]. exists p. split; assumption.
  - intros client_token Hcl.
    destruct (unwrapToken_no_cluster wrapped client_token c Hcl) as (Ht & Hc).
    cbv zeta. split; [exact Ht|]. rewrite Hc. reflexivity.
  - intros msg others.
    destruct (unwrapToken_failure BACKENDS testing wrapped msg others c) as (He & Hc & _).
    cbv zeta. split; [exact He|]. rewrite Hc. reflexivity.
Qed.

End UnwrapOutcomes.

Lemma unwrapToken_exchange_outcomes_witness :
  let c := rendered_with_wrapped_token in
  let ok := unwrapToken sample_catalog false (Str "s.wrapped") (Ok (Str "s.client")) c in
  let failed := unwrapToken sample_catalog false (Str "s.wrapped")
                  (Throw (AdapterError (Some ["wrapping token is not valid"]))) c in
  (token (after ok) = Str "s.client"
   /\ exists p, authenticate_calls (calls ok) = [p]
                /\ prop (data_param p) "token" = Str "s.client")
  /\ error (after failed) = Str "Token unwrap failed: wrapping token is not valid"
  /\ authenticate_calls (calls failed) = [].
Proof.
  cbv zeta.
  destruct (unwrapToken_exchange_outcomes sample_catalog false (Str "s.wrapped")
              rendered_with_wrapped_token token_backend token_backend)
    as (Hok & _ & Hfailed).
  - split; [reflexivity|]. split; [reflexivity|]. split; [left; reflexivity | reflexivity].
  - split; [apply (Hok {| cluster_id := Str "1" |}); reflexivity | apply Hfailed].
Defined.

(** C3 fails on the code without its condition on the cluster: on a
    component rendered with a wrapped token but without its cluster, the
    exchange succeeds and [token] is set, but [authenticate] throws while it
    reads [cluster.id], before it calls the auth service: the exchange call
    is the only call, and no authenticate call is made. *)
Lemma unwrap_without_cluster_makes_no_call :
  let c := after (pass {| attr_wrappedToken := Some (Str "s.wrapped");
                          attr_namespace := None; attr_selectedAuth := None |}
                    initial) in
  let o := unwrapToken sample_catalog false (Str "s.wrapped") (Ok (Str "s.client")) c in
  cluster c = None
  /\ backend_resolvable c = true
  /\ findBy_type sample_catalog (Str "token") = Some token_backend
  /\ formAttributes token_backend = ["token"]
  /\ token (after o) = Str "s.client"
  /\ calls o = [ToolActionUnwrap (Str "s.wrapped")]
  /\ authenticate_calls (calls o) = [].
Proof. vm_compute. repeat split. Qed.

(* ===================================================================== *)
(** ** Resolving the selection, and the default selection *)
(* ===================================================================== *)

Section Selection.
Variable BACKENDS : list backend.

Import MoreObservations.

Lemma findBy_path_found (l : list backend) (v : value) (b : backend) :
  findBy_path l v = Some b -> In b l /\ path b = v.
Proof.
  unfold findBy_path. intros H. apply List.find_some in H as [Hin H].
  unfold strict_eq in H. apply bool_decide_eq_true in H. split; assumption.
Qed.

Lemma findBy_type_in (l : list backend) (v : value) (b : backend) :
  findBy_type l v = Some b -> In b l /\ Str (type b) = v.
Proof.
  unfold findBy_type. intros H. apply List.find_some in H as [Hin H].
  unfold strict_eq in H. apply bool_decide_eq_true in H. split; assumption.
Qed.

Lemma of_find_Found (o : option backend) (b : backend) :
  of_find o = Found b -> o = Some b.
Proof. destruct o; simpl; intros H; [congruence | discriminate]. Qed.

Lemma of_find_not_empty (o : option backend) : of_find o <> EmptyObject.
Proof. destruct o; discriminate. Qed.

Lemma selectedAuthBackend_cases (c : component) :
  selectedAuthBackend BACKENDS c
  = match methods c, truthy (wrappedToken c), selectedAuthIsPath c with
    | None, false, _ => Ok EmptyObject
    | Some ms, _, true => Ok (of_find (findBy_path ms (selectedAuth c)))
    | None, true, true => Throw TypeError
    | _, _, false => Ok (of_find (findBy_type BACKENDS (selectedAuth c)))
    end.
Proof.
  unfold selectedAuthBackend, getAuthBackend.
  destruct (methods c), (truthy (wrappedToken c)), (selectedAuthIsPath c); reflexivity.
Qed.

(** X15.  How the selection is resolved.  A backend found for a key ending
    in [/] is a reported mount whose path is exactly the key; a backend
    found for any other key is a catalog entry whose type is exactly the key
    (case matters here).  The answer is [{}] exactly when neither methods
    nor a wrapped token are there.  Resolving throws, a [TypeError], exactly
    when a wrapped token is present, methods are unset and the key ends in
    [/].  A lookup with an explicit type goes by type, whatever the key. *)
Theorem selectedAuthBackend_by_path_or_type (c : component) :
  (forall b, selectedAuthBackend BACKENDS c = Ok (Found b) ->
     (selectedAuthIsPath c = true
      /\ (exists ms, methods c = Some ms /\ In b ms)
      /\ path b = selectedAuth c)
     \/ (selectedAuthIsPath c = false
         /\ In b BACKENDS
         /\ Str (type b) = selectedAuth c))
  /\ (selectedAuthBackend BACKENDS c = Ok EmptyObject <->
       methods c = None /\ truthy (wrappedToken c) = false)
  /\ (forall e, selectedAuthBackend BACKENDS c = Throw e <->
       e = TypeError /\ methods c = None /\ truthy (wrappedToken c) = true
       /\ selectedAuthIsPath c = true)
  /\ (forall t, truthy (Str t) = true -> backend_resolvable c = true ->
       getAuthBackend BACKENDS (Str t) c = Ok (of_find (findBy_type BACKENDS (Str t)))).
Proof.
  rewrite selectedAuthBackend_cases. split; [|split; [|split]].
  - intros b H.
    destruct (methods c) as [ms|], (truthy (wrappedToken c)), (selectedAuthIsPath c);
      try discriminate H; injection H as H; apply of_find_Found in H.
    all: first
      [ apply findBy_path_found in H as [Hin Hpath]; left;
        split; [reflexivity|]; split; [exists ms; split; [reflexivity | exact Hin] | exact Hpath]
      | apply findBy_type_in in H as [Hin Hty]; right;
        split; [reflexivity|]; split; assumption ].
  - destruct (methods c) as [ms|], (truthy (wrappedToken c)), (selectedAuthIsPath c).
    all: split; [intros H | intros [H1 H2]]; try discriminate; try reflexivity;
      try (split; reflexivity).
    all: injection H as H; destruct (of_find_not_empty _ H).
  - intros e.
    destruct (methods c) as [ms|], (truthy (wrappedToken c)), (selectedAuthIsPath c).
    all: split; [intros H | intros (H1 & H2 & H3 & H4)]; try discriminate; try congruence.
    injection H as <-. repeat split.
  - intros t Ht Hres. unfold getAuthBackend, backend_resolvable in *.
    apply negb_true_iff in Hres. rewrite Hres, Ht. simpl. rewrite andb_false_r.
    unfold or_else. rewrite Ht. reflexivity.
Qed.

(** With no wrapped token the selection resolves without throwing. *)
Lemma selectedAuthBackend_returns (c : component) :
  truthy (wrappedToken c) = false ->
  exists l, selectedAuthBackend BACKENDS c = Ok l.
Proof.
  intros Hwt. rewrite selectedAuthBackend_cases, Hwt.
  destruct (methods c), (selectedAuthIsPath c); eexists; reflexivity.
Qed.

(** The deferred function of [didRender], test by test. *)
Lemma didRender_callback_out (idle : bool) (c : component) :
  didRender_callback BACKENDS idle c
  = {| res := Ok tt;
       after :=
         if truthy (wrappedToken c) then c
         else if (idle && truthy (firstMethod BACKENDS c) && negb (truthy (selectedAuth c)))%bool
              then set_selectedAuth (firstMethod BACKENDS c) c
              else if truthy (selectedAuth c)
                   then match selectedAuthBackend BACKENDS c with
                        | Ok NotFound => set_selectedAuth (firstMethod BACKENDS c) c
                        | _ => c
                        end
                   else c;
       calls := [] |}.
Proof.
  unfold didRender_callback.
  rewrite (bind_silent _ _ _ (firstMethod BACKENDS c)) by reflexivity.
  rewrite (bind_silent _ _ _ (wrappedToken c)) by reflexivity.
  cbn [after read].
  destruct (truthy (wrappedToken c)) eqn:Hwt; [reflexivity|].
  rewrite (bind_silent _ _ _ (selectedAuth c)) by reflexivity.
  cbn [after read].
  destruct (idle && truthy (firstMethod BACKENDS c) && negb (truthy (selectedAuth c)))%bool;
    [reflexivity|].
  destruct (truthy (selectedAuth c)); [|reflexivity].
  destruct (selectedAuthBackend_returns c Hwt) as [l Hl].
  rewrite (bind_silent _ _ _ l) by (rewrite Hl; reflexivity).
  rewrite Hl. destruct l; reflexivity.
Qed.

(** X16.  The default selection made after a render.  The deferred function
    of [didRender] returns, makes no call, and writes nothing but
    [selectedAuth], which it either leaves or sets to the first candidate.
    It leaves it when a wrapped token is present; when the selection resolves
    to a backend or to [{}]; and when nothing is selected while Method
    Discovery is still running.  It sets it to the first candidate when nothing is
    selected, discovery is idle and there is a candidate; and when the
    selection is set but resolves to nothing. *)
Theorem didRender_default_selection (idle : bool) (c : component) :
  let o := didRender_callback BACKENDS idle c in
  let first := firstMethod BACKENDS c in
  res o = Ok tt /\ calls o = []
  /\ (after o = c \/ after o = set_selectedAuth first c)
  /\ (truthy (wrappedToken c) = true -> after o = c)
  /\ (forall l, truthy (selectedAuth c) = true ->
       selectedAuthBackend BACKENDS c = Ok l -> lookup_truthy l = true -> after o = c)
  /\ (truthy (selectedAuth c) = false -> idle = false -> after o = c)
  /\ (truthy (wrappedToken c) = false -> truthy (selectedAuth c) = false ->
      idle = true -> truthy first = true -> after o = set_selectedAuth first c)
  /\ (truthy (wrappedToken c) = false -> truthy (selectedAuth c) = true ->
      selectedAuthBackend BACKENDS c = Ok NotFound -> after o = set_selectedAuth first c).
Proof.
  cbv zeta. rewrite didRender_callback_out. cbn [res after calls].
  split; [reflexivity|]. split; [reflexivity|]. split; [|split; [|split; [|split; [|split]]]].
  - destruct (truthy (wrappedToken c)); [left; reflexivity|].
    destruct (idle && _ && _)%bool; [right; reflexivity|].
    destruct (truthy (selectedAuth c)); [|left; reflexivity].
    destruct (selectedAuthBackend BACKENDS c) as [[| |]|]; auto.
  - intros ->. reflexivity.
  - intros l Hsa Hl Ht. rewrite Hsa, Hl, andb_false_r.
    destruct (truthy (wrappedToken c)); [reflexivity|]. destruct l; [reflexivity..|discriminate].
  - intros Hsa ->. rewrite Hsa. simpl. destruct (truthy (wrappedToken c)); reflexivity.
  - intros Hwt Hsa -> Hf. rewrite Hwt, Hsa, Hf. reflexivity.
  - intros Hwt Hsa Hl. rewrite Hwt, Hsa, Hl, andb_false_r. reflexivity.
Qed.

(** X17.  The default selection holds.  With nothing selected, no wrapped
    token, discovery idle, and the first candidate a reported mount whose
    path ends in [/]: the selection becomes that path, it resolves to a
    reported mount at that path, and a further render leaves it as it is. *)
Theorem didRender_selection_resolves (c : component) (ms rest : list backend)
    (m : backend) (p : string) (idle : bool) :
  truthy (wrappedToken c) = false ->
  truthy (selectedAuth c) = false ->
  methods c = Some ms ->
  methodsToShow BACKENDS c = m :: rest ->
  In m ms ->
  path m = Str p ->
  ends_with_slash p = true ->
  let c' := after (didRender_callback BACKENDS true c) in
  selectedAuth c' = Str p
  /\ (exists b, selectedAuthBackend BACKENDS c' = Ok (Found b)
                /\ path b = Str p /\ In b ms)
  /\ after (didRender_callback BACKENDS idle c') = c'.
Proof.
  intros Hwt Hsa Hms Hshow Hin Hpath Hslash. cbv zeta.
  assert (Hp : truthy (Str p) = true).
  { destruct p; [discriminate Hslash | reflexivity]. }
  assert (Hfirst : firstMethod BACKENDS c = Str p).
  { unfold firstMethod. rewrite Hshow, Hpath. unfold or_else. rewrite Hp. reflexivity. }
  assert (Hafter : after (didRender_callback BACKENDS true c) = set_selectedAuth (Str p) c).
  { rewrite didRender_callback_out. cbn [after]. rewrite Hwt, Hsa, Hfirst, Hp. reflexivity. }
  rewrite Hafter. set (c' := set_selectedAuth (Str p) c).
  assert (Hsel : selectedAuth c' = Str p) by (destruct c; reflexivity).
  assert (Hms' : methods c' = Some ms) by (destruct c; exact Hms).
  assert (Hwt' : truthy (wrappedToken c') = false) by (destruct c; exact Hwt).
  assert (Hfound : exists b, findBy_path ms (Str p) = Some b).
  { unfold findBy_path. destruct (List.find _ ms) as [b|] eqn:E; [eexists; reflexivity|].
    pose proof (List.find_none _ _ E m Hin) as H. cbv beta in H.
    unfold strict_eq in H. rewrite Hpath, bool_decide_eq_true_2 in H by reflexivity.
    discriminate. }
  destruct Hfound as [b Hb].
  assert (Hback : selectedAuthBackend BACKENDS c' = Ok (Found b)).
  { rewrite selectedAuthBackend_cases, Hms', Hsel.
    unfold selectedAuthIsPath. rewrite Hsel, Hslash, Hb. reflexivity. }
  split; [exact Hsel|]. split.
  - exists b. apply findBy_path_found in Hb as [Hbin Hbp]. repeat split; assumption.
  - rewrite didRender_callback_out. cbn [after].
    rewrite Hwt', Hsel, Hp, Hback, andb_false_r. reflexivity.
Qed.

End Selection.

Lemma didRender_selection_resolves_witness :
  let c := after (fetchMethods_settle (Ok [MoreObservations.foo_mount])
                    (after (pass {| attr_wrappedToken := None; attr_namespace := None;
                                    attr_selectedAuth := None |} initial))) in
  let c' := after (didRender_callback sample_catalog true c) in
  selectedAuth c' = Str "foo/"
  /\ (exists b, selectedAuthBackend sample_catalog c' = Ok (Found b)
                /\ path b = Str "foo/" /\ In b [MoreObservations.foo_mount])
  /\ after (didRender_callback sample_catalog true c') = c'.
Proof.
  cbv zeta.
  apply (didRender_selection_resolves sample_catalog
           (after (fetchMethods_settle (Ok [MoreObservations.foo_mount])
                    (after (pass {| attr_wrappedToken := None; attr_namespace := None;
                                    attr_selectedAuth := None |} initial))))
           [MoreObservations.foo_mount] [] MoreObservations.foo_mount "foo/" true);
    try reflexivity.
  simpl. left. reflexivity.
Defined.

(* ===================================================================== *)
(** ** One pass, and the pass after it *)
(* ===================================================================== *)

Section Rerender.

Import MoreObservations.

Lemma receive_keeps_more (a : attrs) (c : component) :
  methods (receive a c) = methods c /\ cluster (receive a c) = cluster c.
Proof. destruct a as [[w|] [n|] [m|]], c; repeat split. Qed.

Lemma strict_ne_same (v : value) : strict_ne v v = false.
Proof. unfold strict_ne, strict_eq. rewrite bool_decide_eq_true_2; reflexivity. Qed.

(** X18.  A pass starts at most one operation.  The deferred function of
    [didReceiveAttrs] returns, and its calls are none, the discovery call
    alone, or the exchange call alone, for the wrapped token of the pass:
    with a wrapped token present there is no discovery, without one there is
    no unwrap.  The pass writes neither [error], [methods] nor [cluster],
    and it records the namespace and the selection it was delivered, the
    selection as it was before an unwrap forced it to ['token']. *)
Theorem pass_starts_one_operation (a : attrs) (c : component) :
  let o := pass a c in
  let r := receive a c in
  res o = Ok tt
  /\ (calls o = [] \/ calls o = [StoreFindAll]
      \/ calls o = [ToolActionUnwrap (wrappedToken r)])
  /\ (truthy (wrappedToken r) = true -> discovery_calls (calls o) = 0)
  /\ (truthy (wrappedToken r) = false -> unwrap_calls (calls o) = [])
  /\ error (after o) = error c
  /\ methods (after o) = methods c
  /\ cluster (after o) = cluster c
  /\ oldNamespace (after o) = namespace r
  /\ oldSelectedAuth (after o) = selectedAuth r.
Proof.
  cbv zeta. rewrite pass_returns, pass_calls, pass_after. cbv zeta.
  destruct (receive_keeps a c) as (_ & _ & _ & He).
  destruct (receive_keeps_more a c) as (Hm & Hc).
  rewrite <- He, <- Hm, <- Hc.
  unfold discovers, unwraps.
  cbn [didReceiveAttrs snap_token snap_oldToken snap_oldNS snap_ns snap_newMethod].
  split; [reflexivity|]. split; [|split; [|split]].
  - destruct (truthy (wrappedToken (receive a c))); cbn [negb andb].
    + destruct (negb _); auto.
    + destruct (_ || _)%bool; auto.
  - intros ->. cbn [negb andb]. destruct (negb _); reflexivity.
  - intros ->. cbn [negb andb]. destruct (_ || _)%bool; reflexivity.
  - destruct (truthy (wrappedToken (receive a c)) && _)%bool, (resets _);
      destruct (receive a c); repeat split.
Qed.

(** What a pass leaves in the members the next pass looks at. *)
Lemma pass_fields (a : attrs) (c : component) :
  let r := receive a c in
  let s := didReceiveAttrs r in
  let c1 := after (pass a c) in
  wrappedToken c1 = wrappedToken r
  /\ oldWrappedToken c1 = (if unwraps s then wrappedToken r else oldWrappedToken r)
  /\ namespace c1 = namespace r
  /\ oldNamespace c1 = namespace r
  /\ selectedAuth c1 = (if unwraps s then Str "token" else selectedAuth r)
  /\ oldSelectedAuth c1 = selectedAuth r.
Proof.
  cbv zeta. rewrite pass_after. cbv zeta.
  destruct (unwraps _), (resets _); destruct (receive a c); repeat split.
Qed.

Lemma set_oldNamespace_same (c : component) : set_oldNamespace (oldNamespace c) c = c.
Proof. destruct c; reflexivity. Qed.

Lemma set_oldSelectedAuth_same (c : component) :
  set_oldSelectedAuth (oldSelectedAuth c) c = c.
Proof. destruct c; reflexivity. Qed.

(** X19.  The pass after a pass, when the render passes no new attribute.
    It never unwraps.  It performs Method Discovery again exactly when no
    wrapped token is present and the namespace is [null].  It leaves the
    component as it is when the first pass did not unwrap.  When the first
    pass did unwrap while a backend other than ['token'] was selected, it
    finds the recorded selection different from ['token'] and resets the
    form: [token], [username], [password] and [customPath] are [null]. *)
Theorem pass_without_change_after_pass (a : attrs) (c : component) :
  let r := receive a c in
  let s := didReceiveAttrs r in
  let c1 := after (pass a c) in
  let o := pass same_attributes c1 in
  unwrap_calls (calls o) = []
  /\ calls o = (if negb (truthy (wrappedToken r)) && strict_eq (namespace r) Null
                then [StoreFindAll] else [])
  /\ after o = set_oldSelectedAuth (selectedAuth c1)
                 ((if stale_selection s then resetDefaults else fun c => c) c1)
  /\ (unwraps s = false -> after o = c1)
  /\ (stale_selection s = true ->
      token (after o) = Null /\ username (after o) = Null
      /\ password (after o) = Null /\ customPath (after o) = Null).
Proof.
  cbv zeta.
  destruct (pass_fields a c) as (Hwt & Howt & Hns & Hons & Hsa & Hosa). cbv zeta in *.
  set (r := receive a c) in *. set (c1 := after (pass a c)) in *.
  assert (Hd : discovers (didReceiveAttrs c1)
               = negb (truthy (wrappedToken r)) && strict_eq (namespace r) Null).
  { unfold discovers. cbn [didReceiveAttrs snap_token snap_oldNS snap_ns].
    rewrite Hwt, Hons, Hns, strict_ne_same, orb_false_r. reflexivity. }
  assert (Hu : unwraps (didReceiveAttrs c1) = false).
  { unfold unwraps. cbn [didReceiveAttrs snap_token snap_oldToken].
    rewrite Hwt, Howt. unfold unwraps. cbn [didReceiveAttrs snap_token snap_oldToken].
    fold r.
    destruct (truthy (wrappedToken r)) eqn:E, (truthy (oldWrappedToken r)) eqn:E';
      cbn [negb andb]; rewrite ?E, ?E'; reflexivity. }
  assert (Hr : resets (didReceiveAttrs c1) = stale_selection (didReceiveAttrs r)).
  { unfold resets, stale_selection. cbn [didReceiveAttrs snap_newMethod snap_oldMethod].
    rewrite Hosa, Hsa. destruct (unwraps _); cbn [andb].
    - reflexivity.
    - rewrite strict_ne_same, andb_false_r. reflexivity. }
  assert (Hafter : after (pass same_attributes c1)
    = set_oldSelectedAuth (selectedAuth c1)
        ((if stale_selection (didReceiveAttrs r) then resetDefaults else fun c => c) c1)).
  { rewrite pass_after. cbv zeta. change (receive same_attributes c1) with c1.
    rewrite Hu, Hr. cbn [didReceiveAttrs snap_newMethod snap_ns].
    replace (namespace c1) with (oldNamespace c1) by congruence.
    rewrite set_oldNamespace_same. reflexivity. }
  assert (Hcalls : calls (pass same_attributes c1)
    = if negb (truthy (wrappedToken r)) && strict_eq (namespace r) Null
      then [StoreFindAll] else []).
  { rewrite pass_calls. cbv zeta. change (receive same_attributes c1) with c1.
    rewrite Hu, Hd, app_nil_r. reflexivity. }
  split; [rewrite Hcalls; destruct (_ && _); reflexivity|].
  split; [exact Hcalls|]. split; [exact Hafter|]. split.
  - intros Hno. rewrite Hafter. unfold stale_selection. rewrite Hno. cbn [andb].
    rewrite Hno in Hsa. rewrite Hsa, <- Hosa. apply set_oldSelectedAuth_same.
  - intros Hst. rewrite Hafter, Hst. destruct c1; repeat split.
Qed.

End Rerender.

(* ===================================================================== *)
(** ** How Method Discovery and the exchange end *)
(* ===================================================================== *)

Section Discovery.
Variable BACKENDS : list backend.
Variable testing : bool.

Lemma serialized_methods (ms : list backend) :
  Forall2 (fun m' m => mountDescription m' = description m
                       /\ type m' = type m /\ path m' = path m /\ id m' = id m
                       /\ description m' = description m
                       /\ formAttributes m' = formAttributes m)
    (map (fun method =>
            {| type := type method; path := path method; id := id method;
               description := description method;
               mountDescription := description method;
               formAttributes := formAttributes method |}) ms)
    ms.
Proof. induction ms as [|m ms IH]; simpl; constructor; [repeat split | exact IH]. Qed.

(** X20.  How Method Discovery ends.  When [store.findAll] resolves,
    [methods] is replaced, whatever it held, by one entry per record, in
    order, each with the members of the serialized record and its
    description again as [mountDescription]; the records are unloaded,
    [error] is not touched, and from then on resolving the selection neither
    throws nor answers [{}].  When it rejects with a list of errors,
    [methods] stays as it was, [error] is "There was an error fetching Auth
    Methods: " followed by the first of them, and the task ends normally. *)
Theorem fetchMethods_settle_outcomes (c : component) :
  (forall ms,
     let o := fetchMethods_settle (Ok ms) c in
     res o = Ok tt /\ calls o = [StoreUnloadAll] /\ error (after o) = error c
     /\ (exists ms', methods (after o) = Some ms'
          /\ Forall2 (fun m' m => mountDescription m' = description m
                                  /\ type m' = type m /\ path m' = path m /\ id m' = id m
                                  /\ description m' = description m
                                  /\ formAttributes m' = formAttributes m) ms' ms)
     /\ (exists l, selectedAuthBackend BACKENDS (after o) = Ok l /\ l <> EmptyObject))
  /\ (forall msg others,
     let o := fetchMethods_settle (Throw (AdapterError (Some (msg :: others)))) c in
     res o = Ok tt /\ calls o = [] /\ methods (after o) = methods c
     /\ error (after o) = Str ("There was an error fetching Auth Methods: " ++ msg)).
Proof.
  split.
  - intros ms. cbv zeta.
    split; [reflexivity|]. split; [reflexivity|]. split; [destruct c; reflexivity|].
    split.
    + eexists. split; [destruct c; reflexivity | apply serialized_methods].
    + set (c' := after (fetchMethods_settle (Ok ms) c)).
      assert (Hms : exists ms', methods c' = Some ms')
        by (eexists; destruct c; reflexivity).
      destruct Hms as [ms' Hms]. rewrite selectedAuthBackend_cases, Hms.
      destruct (truthy (wrappedToken c')), (selectedAuthIsPath c'); eexists;
        (split; [reflexivity | apply of_find_not_empty]).
  - intros msg others. cbv zeta. destruct c; repeat split.
Qed.

(** X21.  A rejection without a list of errors.  When [store.findAll] or
    the exchange rejects with something that has no [errors] array (a
    language error, an adapter error without errors), the [catch] block
    throws a [TypeError] while it builds the message: the task ends in that
    error, and no message is set.  Method Discovery leaves the component as
    it was; Token Unwrap leaves it with the selection forced to ['token']
    and the exchange call as its only call. *)
Theorem rejection_without_errors (e : exn) (wrapped : value) (c : component) :
  first_error_text e = Throw TypeError ->
  let found := fetchMethods_settle (Throw e) c in
  let unwrapped := unwrapToken BACKENDS testing wrapped (Throw e) c in
  (res found = Throw TypeError /\ after found = c /\ calls found = [])
  /\ (res unwrapped = Throw TypeError
      /\ after unwrapped = set_selectedAuth (Str "token") c
      /\ calls unwrapped = [ToolActionUnwrap wrapped]).
Proof.
  intros He. cbv zeta.
  unfold fetchMethods_settle, unwrapToken, unwrapToken_perform, unwrapToken_settle.
  unfold try_catch, bind, lift, modify, call. cbn. rewrite He. cbn.
  repeat split.
Qed.

End Discovery.

Lemma rejection_without_errors_witness :
  let found := fetchMethods_settle (Throw (AdapterError None)) initial in
  first_error_text (AdapterError None) = Throw TypeError
  /\ res found = Throw TypeError
  /\ error (after found) = Undefined.
Proof.
  cbv zeta. split; [reflexivity|].
  destruct (rejection_without_errors sample_catalog false (AdapterError None)
              (Str "s.wrapped") initial eq_refl) as [(Hr & Ha & _) _].
  split; [exact Hr | rewrite Ha; reflexivity].
Defined.

(* ===================================================================== *)
(** ** From a submit to the report of success *)
(* ===================================================================== *)

Section Success.
Variable BACKENDS : list backend.
Variable testing : bool.
Variable auth_handleError : exn -> value.
Variable onSuccess : option (value -> value -> gmap string value -> result unit).

Import MoreObservations.

(** The continuation of [authenticate] when [auth.authenticate] resolved. *)
Lemma authenticate_settle_resolved (p : pending_auth) (authResponse mfaError : value)
    (c : component) :
  let caught e :=
    (if truthy mfaError then fun c => c
     else set_error (Str ("Authentication failed: " ++ to_text (auth_handleError e))))
      (set_isLoading (Bool false) c) in
  authenticate_settle auth_handleError onSuccess p (Ok authResponse) mfaError c
  = match onSuccess with
    | None => {| res := Ok tt; after := caught TypeError; calls := [] |}
    | Some action =>
        {| res := Ok tt;
           after := match action authResponse (pending_backendType p) (pending_data p) with
                    | Ok _ => c
                    | Throw e => caught e
                    end;
           calls := [OnSuccess authResponse (pending_backendType p) (pending_data p)] |}
    end.
Proof.
  cbv zeta. unfold authenticate_settle.
  destruct onSuccess as [action|].
  - unfold try_catch, bind. cbn.
    destruct (action authResponse (pending_backendType p) (pending_data p)) as [[]|e];
      cbn; [reflexivity|].
    destruct (truthy mfaError); reflexivity.
  - unfold try_catch, bind. cbn. destruct (truthy mfaError); reflexivity.
Qed.

(** X22.  From a submit to [onSuccess].  When a submit has performed
    [authenticate] and [auth.authenticate] then resolves, the continuation
    ends normally, and: with an [onSuccess] action, the action is its only
    call and receives the response together with the very backend type and
    data the submit sent to [auth.authenticate]; when the action returns,
    nothing is written, and the component is as the submit left it, with
    [error] cleared.  When the action throws, or when there is no
    [onSuccess] action (then no call is made at all), the [catch] of the
    task takes it for a failed sign-in: [isLoading] is cleared and, unless
    [auth.mfaError] is set, [error] is "Authentication failed: " followed by
    what [auth.handleError] made of the error. *)
Theorem doSubmit_success_reports_what_was_sent (args : submit_args) (c : component)
    (p : pending_auth) (authResponse mfaError : value) :
  res (doSubmit BACKENDS testing args c) = Ok (Some p) ->
  let c' := after (doSubmit BACKENDS testing args c) in
  let o := authenticate_settle auth_handleError onSuccess p (Ok authResponse) mfaError c' in
  let failed e :=
    isLoading (after o) = Bool false
    /\ error (after o)
       = if truthy mfaError then Null
         else Str ("Authentication failed: " ++ to_text (auth_handleError e)) in
  exists q,
    authenticate_calls (calls (doSubmit BACKENDS testing args c)) = [q]
    /\ res o = Ok tt
    /\ (forall action, onSuccess = Some action ->
         calls o = [OnSuccess authResponse (backend_param q) (data_param q)]
         /\ (action authResponse (backend_param q) (data_param q) = Ok tt ->
             after o = c' /\ error (after o) = Null)
         /\ (forall e, action authResponse (backend_param q) (data_param q) = Throw e ->
             failed e))
    /\ (onSuccess = None -> calls o = [] /\ failed TypeError).
Proof.
  cbv zeta. rewrite doSubmit_authenticate_calls, doSubmit_out. cbv zeta.
  set (c1 := setProperties [("error", Null)] c).
  assert (Hcl : cluster c1 = cluster c) by (destruct c; reflexivity).
  unfold prepend. cbn [res after].
  assert (Hmain : forall backendType data cl,
    cluster c = Some cl ->
    res (authenticate_perform testing backendType data c1) = Ok (Some p) ->
    let c' := after (authenticate_perform testing backendType data c1) in
    let o := authenticate_settle auth_handleError onSuccess p (Ok authResponse) mfaError c' in
    let failed e :=
      isLoading (after o) = Bool false
      /\ error (after o)
         = if truthy mfaError then Null
           else Str ("Authentication failed: " ++ to_text (auth_handleError e)) in
    res o = Ok tt
    /\ (forall action, onSuccess = Some action ->
         calls o = [OnSuccess authResponse backendType data]
         /\ (action authResponse backendType data = Ok tt ->
             after o = c' /\ error (after o) = Null)
         /\ (forall e, action authResponse backendType data = Throw e -> failed e))
    /\ (onSuccess = None -> calls o = [] /\ failed TypeError)).
  { intros backendType data cl Hc. rewrite Hc in Hcl.
    rewrite (authenticate_perform_out testing _ _ c1 cl Hcl). cbn [res after].
    intros [= <-]. cbv zeta. rewrite authenticate_settle_resolved. cbv zeta.
    cbn [pending_backendType pending_data].
    set (c2 := if testing then set_showLoading (Some true) c1 else c1).
    assert (Herr2 : error c2 = Null) by (subst c2 c1; destruct testing, c; reflexivity).
    destruct onSuccess as [action|].
    - split; [reflexivity|]. split; [|intros [=]].
      intros action' [= <-]. cbn [calls after]. split; [reflexivity|]. split.
      + intros ->. split; [reflexivity | exact Herr2].
      + intros e ->. destruct (truthy mfaError); destruct c2; cbn in *;
          (split; [reflexivity|]); try reflexivity; exact Herr2.
    - split; [reflexivity|]. split; [intros ? [=]|].
      intros _. cbn [calls after]. split; [reflexivity|].
      destruct (truthy mfaError); destruct c2; cbn in *;
        (split; [reflexivity|]); try reflexivity; exact Herr2. }
  destruct (submit_backend BACKENDS c1) as [[b| |]|e];
    destruct (cluster c) as [cl|] eqn:E; try discriminate.
  all: try (rewrite (authenticate_perform_no_cluster testing _ _ c1 Hcl); discriminate).
  all: intros Hp; eexists; (split; [reflexivity|]);
    cbn [backend_param data_param]; exact (Hmain _ _ cl eq_refl Hp).
Qed.

End Success.

Lemma doSubmit_success_reports_what_was_sent_witness :
  let d := doSubmit sample_catalog false (OneArgument true) MoreObservations.selected_foo in
  let received := Some (fun (_ _ : value) (_ : gmap string value) => Ok tt) in
  exists p q,
    res d = Ok (Some p)
    /\ authenticate_calls (calls d) = [q]
    /\ calls (authenticate_settle (fun _ => Undefined) received p (Ok (Str "s.client"))
                Undefined (after d))
       = [OnSuccess (Str "s.client") (backend_param q) (data_param q)].
Proof.
  cbv zeta.
  assert (H : exists p,
    res (doSubmit sample_catalog false (OneArgument true) MoreObservations.selected_foo)
    = Ok (Some p)) by (eexists; reflexivity).
  destruct H as [p Hp].
  destruct (doSubmit_success_reports_what_was_sent sample_catalog false
              (fun _ => Undefined)
              (Some (fun (_ _ : value) (_ : gmap string value) => Ok tt))
              (OneArgument true) MoreObservations.selected_foo
              p (Str "s.client") Undefined Hp) as (q & Hq & _ & Hc & _).
  exists p, q. split; [exact Hp|]. split; [exact Hq|].
  apply (Hc _ eq_refl).
Defined.

(* ===================================================================== *)
(** ** The candidates offered *)
(* ===================================================================== *)

Section Candidates.
Variable BACKENDS : list backend.

Lemma same_ignoring_case_refl (s : string) : same_ignoring_case s s = true.
Proof.
  induction s as [|a s IH]; simpl; [reflexivity|].
  rewrite IH. unfold same_letter. cbv zeta. rewrite N.eqb_refl. reflexivity.
Qed.

Lemma catalog_entry_in_catalog (b : backend) :
  In b BACKENDS -> type_in_catalog BACKENDS b = true.
Proof.
  intros H. unfold type_in_catalog. apply List.existsb_exists.
  exists b. split; [exact H | apply same_ignoring_case_refl].
Qed.

Lemma methodsToShow_in_catalog (c : component) :
  Forall (fun m => type_in_catalog BACKENDS m = true) (methodsToShow BACKENDS c).
Proof.
  apply List.Forall_forall. intros m Hm. unfold methodsToShow in Hm.
  destruct (List.filter _ _) as [|x l] eqn:E.
  - apply catalog_entry_in_catalog. exact Hm.
  - rewrite <- E in Hm. apply List.filter_In in Hm as [_ Hm].
    rewrite find_type_in_catalog in Hm. exact Hm.
Qed.

Lemma methodsToShow_reported_or_catalog (c : component) (m : backend) :
  In m (methodsToShow BACKENDS c) -> In m (default [] (methods c)) \/ In m BACKENDS.
Proof.
  unfold methodsToShow. intros Hm.
  destruct (List.filter _ _) as [|x l] eqn:E.
  - right. exact Hm.
  - rewrite <- E in Hm. apply List.filter_In in Hm as [Hm _].
    left. destruct (methods c); exact Hm.
Qed.

Lemma methodsToShow_empty (c : component) :
  methodsToShow BACKENDS c = [] <-> BACKENDS = [].
Proof.
  unfold methodsToShow. split.
  - destruct (List.filter _ _); [auto | discriminate].
  - intros ->. destruct (methods c) as [ms|]; [|reflexivity].
    cbn [List.find]. induction ms as [|m ms IH]; [reflexivity|].
    cbn [List.filter]. rewrite bool_decide_eq_false_2; [exact IH|].
    intros [x Hx]. discriminate.
Qed.

Lemma hasMethodsWithPath_exists (c : component) :
  hasMethodsWithPath BACKENDS c = true
  <-> exists m, In m (methodsToShow BACKENDS c) /\ truthy (path m) = true.
Proof. unfold hasMethodsWithPath. apply List.existsb_exists. Qed.

(** X23.  The candidates offered.  Every entry of [allSupportedMethods] is a
    reported mount or an entry of the catalog and, type names being ASCII,
    its type is a type of the catalog but for the case of its letters.  The
    list is empty only when the catalog is, and [firstMethod()] is
    [undefined] only then.  When one of the entries of [methodsToShow] has a
    path, [allSupportedMethods] is [methodsToShow] followed by the whole
    catalog; when none has, it is [methodsToShow]. *)
Theorem candidates_come_from_catalog (c : component) :
  (forall m, In m (allSupportedMethods BACKENDS c) ->
     In m (default [] (methods c)) \/ In m BACKENDS)
  /\ (ascii_types BACKENDS = true -> ascii_types (default [] (methods c)) = true ->
      Forall (fun m => type_in_catalog BACKENDS m = true) (allSupportedMethods BACKENDS c))
  /\ (allSupportedMethods BACKENDS c = [] <-> BACKENDS = [])
  /\ (firstMethod BACKENDS c = Undefined <-> BACKENDS = [])
  /\ ((exists m, In m (methodsToShow BACKENDS c) /\ truthy (path m) = true) ->
      allSupportedMethods BACKENDS c = methodsToShow BACKENDS c ++ BACKENDS)
  /\ ((forall m, In m (methodsToShow BACKENDS c) -> truthy (path m) = false) ->
      allSupportedMethods BACKENDS c = methodsToShow BACKENDS c).
Proof.
  pose proof (methodsToShow_in_catalog c) as Hshow.
  pose proof (methodsToShow_empty c) as Hempty.
  pose proof (hasMethodsWithPath_exists c) as Hpath.
  unfold allSupportedMethods, firstMethod.
  split; [|split; [|split; [|split; [|split]]]].
  - intros m Hm. destruct (hasMethodsWithPath BACKENDS c).
    + apply in_app_or in Hm as [Hm|Hm];
        [apply methodsToShow_reported_or_catalog; exact Hm | right; exact Hm].
    + apply methodsToShow_reported_or_catalog; exact Hm.
  - intros _ _. destruct (hasMethodsWithPath BACKENDS c); [|exact Hshow].
    apply Forall_app. split; [exact Hshow|].
    apply List.Forall_forall. apply catalog_entry_in_catalog.
  - destruct (hasMethodsWithPath BACKENDS c); [|exact Hempty].
    split.
    + intros H. apply app_eq_nil in H. apply H.
    + intros H. rewrite (proj2 Hempty H), H. reflexivity.
  - destruct (methodsToShow BACKENDS c) as [|m l] eqn:E.
    + split; [intros _; apply Hempty; reflexivity | reflexivity].
    + split.
      * unfold or_else. destruct (truthy (path m)) eqn:T; [|discriminate].
        intros H. rewrite H in T. discriminate.
      * intros H. apply Hempty in H. discriminate.
  - intros H. apply Hpath in H. rewrite H. reflexivity.
  - intros H. destruct (hasMethodsWithPath BACKENDS c); [|reflexivity].
    destruct (proj1 Hpath eq_refl) as (m & Hm & Ht).
    rewrite (H m Hm) in Ht. discriminate.
Qed.

End Candidates.
